(** * PDF invoice scanner: a shallow embedding of [pdf_invoice_scanner.py]

    The program extracts the text of a PDF invoice, sends it to a remote
    chat-completion service, cleans the answer of an optional markdown code
    fence, parses it as JSON and prints or saves the result.

    Python strings are sequences of Unicode code points; they are modelled as
    lists of code points ([N]).  The library functions the program calls
    ([str.strip], [str.split], [str.join], [str.startswith], [json.loads],
    [json.dumps]) are modelled after their documented behaviour; the PDF
    reader, the process environment, the file system and the remote service
    are an explicit [World], and the effects of a run are a trace of events. *)

From Stdlib Require Import String Ascii.
From Stdlib Require Import NArith ZArith Bool Lia List.
From Stdlib Require Decimal DecimalZ DecimalN DecimalPos DecimalFacts.
Import ListNotations.

Set Implicit Arguments.

(** ** Python strings *)

Module Str.

Abbreviation char := N.
Abbreviation str := (list N).

(** The code points of an ASCII literal. *)
Fixpoint lit (s : string) : str :=
  match s with
  | EmptyString => []
  | String a r => N_of_ascii a :: lit r
  end.

Definition LF : char := 10%N.
Definition QUOTE : char := 34%N.
Definition BACKSLASH : char := 92%N.

Fixpoint eqb (a b : str) : bool :=
  match a, b with
  | [], [] => true
  | x :: a', y :: b' => N.eqb x y && eqb a' b'
  | _, _ => false
  end.

(** [str.isspace] on one code point: [Py_UNICODE_ISSPACE]. *)
Definition isspace (c : char) : bool :=
  ((9 <=? c) && (c <=? 13) || (28 <=? c) && (c <=? 32)
   || (c =? 133) || (c =? 160) || (c =? 5760)
   || (8192 <=? c) && (c <=? 8202)
   || (c =? 8232) || (c =? 8233) || (c =? 8239) || (c =? 8287)
   || (c =? 12288))%N.

(** [s.lstrip()], [s.rstrip()] and [s.strip()] without argument. *)
Fixpoint lstrip (s : str) : str :=
  match s with
  | c :: r => if isspace c then lstrip r else s
  | [] => []
  end.

Definition rstrip (s : str) : str := List.rev (lstrip (List.rev s)).

Definition strip (s : str) : str := rstrip (lstrip s).

(** [s.startswith(p)]. *)
Fixpoint startswith (s p : str) {struct p} : bool :=
  match p, s with
  | [], _ => true
  | x :: p', y :: s' => N.eqb x y && startswith s' p'
  | _ :: _, [] => false
  end.

(** [s.split(sep)] for a separator of one character: the pieces between
    the occurrences of [sep]; always at least one piece. *)
Fixpoint split (sep : char) (s : str) : list str :=
  match s with
  | [] => [[]]
  | c :: r =>
      if N.eqb c sep then [] :: split sep r
      else match split sep r with
           | p :: ps => (c :: p) :: ps
           | [] => [[c]]
           end
  end.

(** [sep.join(l)]. *)
Fixpoint join (sep : str) (l : list str) : str :=
  match l with
  | [] => []
  | [x] => x
  | x :: r => x ++ sep ++ join sep r
  end.

(** The slices [l[1:-1]] and [s[n:]]. *)
Definition slice_1_m1 (A : Type) (l : list A) : list A := removelast (tl l).
Definition slice_from (A : Type) (n : nat) (l : list A) : list A := skipn n l.

End Str.

Import Str.

(** ** Cleaning the model's answer

    [parse_invoice_to_json], lines 113-120: the text handed to [json.loads]. *)

Definition fence : str := lit "```".
Definition json_tag : str := lit "json".

Definition clean_json_text (content : str) : str :=
  let json_text := strip content in
  if startswith json_text fence then
    let lines := split LF json_text in
    let json_text :=
      if (2 <? List.length lines)%nat then join [LF] (slice_1_m1 lines) else json_text in
    if startswith json_text json_tag then strip (slice_from 4 json_text) else json_text
  else json_text.


(** ** JSON values

    The values [json.loads] builds: [None], [True]/[False], [int], [float],
    [str], [list] and [dict] with string keys.  A [dict] keeps its keys in
    insertion order; it is an association list whose keys are pairwise
    distinct (see [wf]).

    Python's [float] is IEEE binary64.  Its three special values are
    constructors; the finite values are a type [F] that comes with
    [float.__repr__] and with the conversion [float(text)] of a JSON number
    literal, both left abstract. *)

Inductive pyfloat (F : Type) : Type :=
| NaN
| Infinity
| NegInfinity
| Finite (x : F).

Arguments NaN {F}.
Arguments Infinity {F}.
Arguments NegInfinity {F}.

#[warnings="-register-all"]
Inductive json (F : Type) : Type :=
| JNull
| JBool (b : bool)
| JInt (z : Z)
| JFloat (f : pyfloat F)
| JStr (s : str)
| JList (l : list (json F))
| JDict (d : list (str * json F)).

Arguments JNull {F}.
Arguments JBool {F} b.
Arguments JInt {F} z.
Arguments JStr {F} s.

(** [d[k] = v] on an insertion-ordered dict: an existing key keeps its
    place and takes the new value, a new key goes last. *)
Fixpoint dict_set (A : Type) (d : list (str * A)) (k : str) (v : A) : list (str * A) :=
  match d with
  | [] => [(k, v)]
  | (k', v') :: d' =>
      if Str.eqb k' k then (k', v) :: d' else (k', v') :: dict_set d' k v
  end.

(** [dict(pairs)]. *)
Definition dict_of_pairs (A : Type) (pairs : list (str * A)) : list (str * A) :=
  fold_left (fun d kv => dict_set d (fst kv) (snd kv)) pairs [].

(** ** Decimal integers: [int.__repr__] and [int(text)] *)

Module Dec.

Definition digit_char (d : N) : char := (48 + d)%N.

Fixpoint of_uint (u : Decimal.uint) : str :=
  match u with
  | Decimal.Nil => []
  | Decimal.D0 r => digit_char 0 :: of_uint r
  | Decimal.D1 r => digit_char 1 :: of_uint r
  | Decimal.D2 r => digit_char 2 :: of_uint r
  | Decimal.D3 r => digit_char 3 :: of_uint r
  | Decimal.D4 r => digit_char 4 :: of_uint r
  | Decimal.D5 r => digit_char 5 :: of_uint r
  | Decimal.D6 r => digit_char 6 :: of_uint r
  | Decimal.D7 r => digit_char 7 :: of_uint r
  | Decimal.D8 r => digit_char 8 :: of_uint r
  | Decimal.D9 r => digit_char 9 :: of_uint r
  end.

Definition is_digit (c : char) : bool := ((48 <=? c) && (c <=? 57))%N.

(** The digits of a text made of ASCII digits only. *)
Fixpoint to_uint (s : str) : Decimal.uint :=
  match s with
  | [] => Decimal.Nil
  | c :: r =>
      let u := to_uint r in
      match (c - 48)%N with
      | 0 => Decimal.D0 u | 1 => Decimal.D1 u | 2 => Decimal.D2 u
      | 3 => Decimal.D3 u | 4 => Decimal.D4 u | 5 => Decimal.D5 u
      | 6 => Decimal.D6 u | 7 => Decimal.D7 u | 8 => Decimal.D8 u
      | _ => Decimal.D9 u
      end%N
  end.

(** [int.__repr__(z)]. *)
Definition repr (z : Z) : str :=
  match Z.to_int z with
  | Decimal.Pos u => of_uint u
  | Decimal.Neg u => 45%N :: of_uint u
  end.

(** [int(text)] for a text [-?digits]. *)
Definition int (neg : bool) (digits : str) : Z :=
  Z.of_int (if neg then Decimal.Neg (to_uint digits) else Decimal.Pos (to_uint digits)).

(** The number of decimal digits of an integer, its sign apart. *)
Definition digits (z : Z) : nat :=
  List.length (match Z.to_int z with
               | Decimal.Pos u | Decimal.Neg u => of_uint u
               end).

End Dec.

(** ** [json.loads] *)

Module Loads.

Inductive res (A : Type) : Type :=
| Ok (a : A)
| Fail           (* json.JSONDecodeError *)
| OutOfFuel.

Arguments Fail {A}.
Arguments OutOfFuel {A}.

(** [WHITESPACE = re.compile(r'[ \t\n\r]*')]. *)
Definition is_ws (c : char) : bool :=
  ((c =? 32) || (c =? 9) || (c =? 10) || (c =? 13))%N.

Fixpoint skip_ws (s : str) : str :=
  match s with
  | c :: r => if is_ws c then skip_ws r else s
  | [] => []
  end.

Definition hex_val (c : char) : option N :=
  if ((48 <=? c) && (c <=? 57))%N then Some (c - 48)%N
  else if ((97 <=? c) && (c <=? 102))%N then Some (c - 87)%N
  else if ((65 <=? c) && (c <=? 70))%N then Some (c - 55)%N
  else None.

(** The four hex digits of a [\uXXXX] escape. *)
Definition hex4 (a b c d : char) : option N :=
  match hex_val a, hex_val b, hex_val c, hex_val d with
  | Some x, Some y, Some z, Some w => Some (((x * 16 + y) * 16 + z) * 16 + w)%N
  | _, _, _, _ => None
  end.

Definition is_high_surrogate (u : N) : bool := ((55296 <=? u) && (u <=? 56319))%N.
Definition is_low_surrogate (u : N) : bool := ((56320 <=? u) && (u <=? 57343))%N.
Definition join_surrogates (hi lo : N) : N :=
  (65536 + N.lor (N.shiftl (hi - 55296) 10) (lo - 56320))%N.

(** [BACKSLASH]: the one-character escapes. *)
Definition unescape (e : char) : option char :=
  (if e =? 34 then Some 34 else if e =? 92 then Some 92
   else if e =? 47 then Some 47 else if e =? 98 then Some 8
   else if e =? 102 then Some 12 else if e =? 110 then Some 10
   else if e =? 114 then Some 13 else if e =? 116 then Some 9
   else None)%N.

Definition push (c : char) (r : option (str * str)) : option (str * str) :=
  match r with
  | Some (k, rest) => Some (c :: k, rest)
  | None => None
  end.

(** [scanstring(s, end, strict=True)]: [s] starts after the opening
    quote; the result is the decoded string and the text after the closing
    quote.  [None] is a [JSONDecodeError] (unterminated string, control
    character, invalid escape). *)
Fixpoint scanstring (s : str) : option (str * str) :=
  match s with
  | [] => None
  | c :: r =>
      if (c =? QUOTE)%N then Some ([], r)
      else if (c =? BACKSLASH)%N then
        match r with
        | [] => None
        | e :: r1 =>
            if (e =? 117)%N then
              match r1 with
              | a :: b :: c1 :: d :: r2 =>
                  match hex4 a b c1 d with
                  | None => None
                  | Some uni =>
                      if is_high_surrogate uni then
                        match r2 with
                        | b1 :: u1 :: a2 :: b2 :: c2 :: d2 :: r3 =>
                            if ((b1 =? BACKSLASH) && (u1 =? 117))%N then
                              match hex4 a2 b2 c2 d2 with
                              | None => None
                              | Some uni2 =>
                                  if is_low_surrogate uni2
                                  then push (join_surrogates uni uni2) (scanstring r3)
                                  else push uni (scanstring r2)
                              end
                            else push uni (scanstring r2)
                        | _ => push uni (scanstring r2)
                        end
                      else push uni (scanstring r2)
                  end
              | _ => None
              end
            else
              match unescape e with
              | Some c' => push c' (scanstring r1)
              | None => None
              end
        end
      else if (c <? 32)%N then None
      else push c (scanstring r)
  end.

(** [NUMBER_RE]: an optional minus sign and an integer part ([0], or a
    non-zero digit followed by digits), then optionally a fraction (a dot
    and at least one digit), then optionally an exponent ([e] or [E], an
    optional sign, at least one digit).  Each optional group is taken when
    it matches (the regular expression is greedy). *)
Fixpoint span_digits (s : str) : str * str :=
  match s with
  | c :: r =>
      if Dec.is_digit c then let (ds, rest) := span_digits r in (c :: ds, rest)
      else ([], s)
  | [] => ([], [])
  end.

Record number := {
  num_neg : bool;
  num_int : str;          (* the digits of the integer part *)
  num_frac : str;         (* [.digits] or empty *)
  num_exp : str           (* [e[+-]digits] or empty *)
}.

Definition match_frac (s : str) : str * str :=
  match s with
  | c :: r =>
      if (c =? 46)%N then
        match span_digits r with
        | ([], _) => ([], s)
        | (ds, rest) => (c :: ds, rest)
        end
      else ([], s)
  | [] => ([], s)
  end.

Definition match_exp (s : str) : str * str :=
  match s with
  | c :: r =>
      if ((c =? 101) || (c =? 69))%N then
        match r with
        | sg :: r' =>
            if ((sg =? 43) || (sg =? 45))%N then
              match span_digits r' with
              | ([], _) => ([], s)
              | (ds, rest) => (c :: sg :: ds, rest)
              end
            else
              match span_digits r with
              | ([], _) => ([], s)
              | (ds, rest) => (c :: ds, rest)
              end
        | [] => ([], s)
        end
      else ([], s)
  | [] => ([], s)
  end.

Definition match_integer (s : str) : option (str * str) :=
  match s with
  | c :: r =>
      if (c =? 48)%N then Some ([c], r)
      else if Dec.is_digit c then let (ds, rest) := span_digits r in Some (c :: ds, rest)
      else None
  | [] => None
  end.

Definition match_number (s : str) : option (number * str) :=
  let (neg, s1) :=
    match s with
    | c :: r => if (c =? 45)%N then (true, r) else (false, s)
    | [] => (false, s)
    end in
  match match_integer s1 with
  | None => None
  | Some (i, s2) =>
      let (fr, s3) := match_frac s2 in
      let (ex, s4) := match_exp s3 in
      Some ({| num_neg := neg; num_int := i; num_frac := fr; num_exp := ex |}, s4)
  end.

(** The text [integer + (frac or '') + (exp or '')] given to [float]. *)
Definition number_text (n : number) : str :=
  (if num_neg n then [45%N] else []) ++ num_int n ++ num_frac n ++ num_exp n.

Section Scanner.

Variable F : Type.
(** [float(text)] on the text of a JSON number with a fraction or an
    exponent. *)
Variable float_of_literal : str -> pyfloat F.

Definition number_value (n : number) : json F :=
  match num_frac n, num_exp n with
  | [], [] => JInt (Dec.int (num_neg n) (num_int n))
  | _, _ => JFloat (float_of_literal (number_text n))
  end.

(** [scan_once] with [JSONArray] and [JSONObject].  [array_items] is the
    loop of [JSONArray] and starts at a value; [object_items] is the loop
    of [JSONObject] and starts after the opening quote of a key. *)
Fixpoint scan_once (fuel : nat) (s : str) {struct fuel} : res (json F * str) :=
  match fuel with
  | O => OutOfFuel
  | S f =>
      match s with
      | [] => Fail
      | c :: r =>
          if (c =? QUOTE)%N then
            match scanstring r with
            | Some (k, rest) => Ok (JStr k, rest)
            | None => Fail
            end
          else if (c =? 123)%N then
            match r with
            | c1 :: r1 =>
                if (c1 =? QUOTE)%N then
                  match object_items f r1 with
                  | Ok (pairs, rest) => Ok (JDict (dict_of_pairs pairs), rest)
                  | Fail => Fail
                  | OutOfFuel => OutOfFuel
                  end
                else
                  match skip_ws r with
                  | c2 :: r2 =>
                      if (c2 =? 125)%N then Ok (JDict [], r2)
                      else if (c2 =? QUOTE)%N then
                        match object_items f r2 with
                        | Ok (pairs, rest) => Ok (JDict (dict_of_pairs pairs), rest)
                        | Fail => Fail
                        | OutOfFuel => OutOfFuel
                        end
                      else Fail
                  | [] => Fail
                  end
            | [] => Fail
            end
          else if (c =? 91)%N then
            match skip_ws r with
            | c1 :: r1 =>
                if (c1 =? 93)%N then Ok (JList [], r1)
                else
                  match array_items f (c1 :: r1) with
                  | Ok (vs, rest) => Ok (JList vs, rest)
                  | Fail => Fail
                  | OutOfFuel => OutOfFuel
                  end
            | [] => Fail
            end
          else if startswith s (lit "null") then Ok (JNull, skipn 4 s)
          else if startswith s (lit "true") then Ok (JBool true, skipn 4 s)
          else if startswith s (lit "false") then Ok (JBool false, skipn 5 s)
          else
            match match_number s with
            | Some (n, rest) => Ok (number_value n, rest)
            | None =>
                if startswith s (lit "NaN") then Ok (JFloat NaN, skipn 3 s)
                else if startswith s (lit "Infinity") then Ok (JFloat Infinity, skipn 8 s)
                else if startswith s (lit "-Infinity") then Ok (JFloat NegInfinity, skipn 9 s)
                else Fail
            end
      end
  end

with array_items (fuel : nat) (s : str) {struct fuel} : res (list (json F) * str) :=
  match fuel with
  | O => OutOfFuel
  | S f =>
      match scan_once f s with
      | Ok (v, r) =>
          match skip_ws r with
          | c :: r1 =>
              if (c =? 93)%N then Ok ([v], r1)
              else if (c =? 44)%N then
                match array_items f (skip_ws r1) with
                | Ok (vs, rest) => Ok (v :: vs, rest)
                | Fail => Fail
                | OutOfFuel => OutOfFuel
                end
              else Fail
          | [] => Fail
          end
      | Fail => Fail
      | OutOfFuel => OutOfFuel
      end
  end

with object_items (fuel : nat) (s : str) {struct fuel} : res (list (str * json F) * str) :=
  match fuel with
  | O => OutOfFuel
  | S f =>
      match scanstring s with
      | None => Fail
      | Some (key, r) =>
          match skip_ws r with
          | c :: r1 =>
              if (c =? 58)%N then
                match scan_once f (skip_ws r1) with
                | Ok (v, r2) =>
                    match skip_ws r2 with
                    | c2 :: r3 =>
                        if (c2 =? 125)%N then Ok ([(key, v)], r3)
                        else if (c2 =? 44)%N then
                          match skip_ws r3 with
                          | c3 :: r4 =>
                              if (c3 =? QUOTE)%N then
                                match object_items f r4 with
                                | Ok (pairs, rest) => Ok ((key, v) :: pairs, rest)
                                | Fail => Fail
                                | OutOfFuel => OutOfFuel
                                end
                              else Fail
                          | [] => Fail
                          end
                        else Fail
                    | [] => Fail
                    end
                | Fail => Fail
                | OutOfFuel => OutOfFuel
                end
              else Fail
          | [] => Fail
          end
      end
  end.

(** [json.loads(s)] for a [str]: [JSONDecoder.decode], in an interpreter that
    sets no limit to the nesting and to the digits of an integer (the limits
    come below). *)
Definition decode (s : str) : res (json F) :=
  if startswith s [65279%N] then Fail
  else
    match scan_once (2 * List.length s + 2) (skip_ws s) with
    | Ok (v, rest) =>
        match skip_ws rest with
        | [] => Ok v
        | _ :: _ => Fail
        end
    | Fail => Fail
    | OutOfFuel => OutOfFuel
    end.

(** [None] stands for [json.JSONDecodeError].  Without limits, it is the
    one exception of [json.loads]. *)
Definition json_loads (s : str) : option (json F) :=
  match decode s with
  | Ok v => Some v
  | _ => None
  end.

End Scanner.

(** *** The limits of the interpreter

    The scanner above is [json.loads] as long as the interpreter sets no
    limit.  It sets two.  [scan_once] enters an array or an object through
    [Py_EnterRecursiveCall], which raises [RecursionError] when the nesting
    is deeper than the interpreter allows; the test comes first, whatever
    the array or the object holds.  [int] raises [ValueError] on an integer
    of more digits than [sys.get_int_max_str_digits()], which is 4300 unless
    it has been set, and 0 for no limit; an integer of JSON has no leading
    zero, so that the digits of its text are those of its value.  Neither
    exception is a [json.JSONDecodeError].  The scanner below is the one
    above with the two tests, and [depth] the nesting that is left. *)

Inductive outcome (A : Type) : Type :=
| Value (a : A)
| Invalid                    (* json.JSONDecodeError *)
| TooDeep (object : bool)    (* RecursionError, at an object or at an array *)
| TooLong (digits : nat)     (* ValueError, at an integer of so many digits *)
| NoFuel.

Arguments Invalid {A}.
Arguments TooDeep {A} object.
Arguments TooLong {A} digits.
Arguments NoFuel {A}.

Definition and_then (A B : Type) (x : outcome A) (k : A -> outcome B) : outcome B :=
  match x with
  | Value a => k a
  | Invalid => Invalid
  | TooDeep o => TooDeep o
  | TooLong n => TooLong n
  | NoFuel => NoFuel
  end.

Section Limited.

Variable F : Type.
Variable float_of_literal : str -> pyfloat F.
(** [sys.get_int_max_str_digits()] *)
Variable max_digits : nat.

Definition too_long (z : Z) : bool :=
  ((0 <? max_digits) && (max_digits <? Dec.digits z))%nat.

Definition checked_number (n : number) (rest : str) : outcome (json F * str) :=
  match number_value float_of_literal n with
  | JInt z => if too_long z then TooLong (Dec.digits z) else Value (JInt z, rest)
  | v => Value (v, rest)
  end.

Fixpoint scan_once_in (fuel depth : nat) (s : str) {struct fuel} : outcome (json F * str) :=
  match fuel with
  | O => NoFuel
  | S f =>
      match s with
      | [] => Invalid
      | c :: r =>
          if (c =? QUOTE)%N then
            match scanstring r with
            | Some (k, rest) => Value (JStr k, rest)
            | None => Invalid
            end
          else if (c =? 123)%N then
            match depth with
            | O => TooDeep true
            | S d =>
                match r with
                | c1 :: r1 =>
                    if (c1 =? QUOTE)%N then
                      and_then (object_items_in f d r1)
                        (fun pr => Value (JDict (dict_of_pairs (fst pr)), snd pr))
                    else
                      match skip_ws r with
                      | c2 :: r2 =>
                          if (c2 =? 125)%N then Value (JDict [], r2)
                          else if (c2 =? QUOTE)%N then
                            and_then (object_items_in f d r2)
                              (fun pr => Value (JDict (dict_of_pairs (fst pr)), snd pr))
                          else Invalid
                      | [] => Invalid
                      end
                | [] => Invalid
                end
            end
          else if (c =? 91)%N then
            match depth with
            | O => TooDeep false
            | S d =>
                match skip_ws r with
                | c1 :: r1 =>
                    if (c1 =? 93)%N then Value (JList [], r1)
                    else
                      and_then (array_items_in f d (c1 :: r1))
                        (fun vr => Value (JList (fst vr), snd vr))
                | [] => Invalid
                end
            end
          else if startswith s (lit "null") then Value (JNull, skipn 4 s)
          else if startswith s (lit "true") then Value (JBool true, skipn 4 s)
          else if startswith s (lit "false") then Value (JBool false, skipn 5 s)
          else
            match match_number s with
            | Some (n, rest) => checked_number n rest
            | None =>
                if startswith s (lit "NaN") then Value (JFloat NaN, skipn 3 s)
                else if startswith s (lit "Infinity") then Value (JFloat Infinity, skipn 8 s)
                else if startswith s (lit "-Infinity") then Value (JFloat NegInfinity, skipn 9 s)
                else Invalid
            end
      end
  end

with array_items_in (fuel depth : nat) (s : str) {struct fuel}
  : outcome (list (json F) * str) :=
  match fuel with
  | O => NoFuel
  | S f =>
      and_then (scan_once_in f depth s)
        (fun vr =>
           match skip_ws (snd vr) with
           | c :: r1 =>
               if (c =? 93)%N then Value ([fst vr], r1)
               else if (c =? 44)%N then
                 and_then (array_items_in f depth (skip_ws r1))
                   (fun more => Value (fst vr :: fst more, snd more))
               else Invalid
           | [] => Invalid
           end)
  end

with object_items_in (fuel depth : nat) (s : str) {struct fuel}
  : outcome (list (str * json F) * str) :=
  match fuel with
  | O => NoFuel
  | S f =>
      match scanstring s with
      | None => Invalid
      | Some (key, r) =>
          match skip_ws r with
          | c :: r1 =>
              if (c =? 58)%N then
                and_then (scan_once_in f depth (skip_ws r1))
                  (fun vr =>
                     match skip_ws (snd vr) with
                     | c2 :: r3 =>
                         if (c2 =? 125)%N then Value ([(key, fst vr)], r3)
                         else if (c2 =? 44)%N then
                           match skip_ws r3 with
                           | c3 :: r4 =>
                               if (c3 =? QUOTE)%N then
                                 and_then (object_items_in f depth r4)
                                   (fun more => Value ((key, fst vr) :: fst more, snd more))
                               else Invalid
                           | [] => Invalid
                           end
                         else Invalid
                     | [] => Invalid
                     end)
              else Invalid
          | [] => Invalid
          end
      end
  end.

(** [json.loads(s)] in an interpreter that allows [depth] nested arrays
    and objects. *)
Definition decode_in (depth : nat) (s : str) : outcome (json F) :=
  if startswith s [65279%N] then Invalid
  else
    and_then (scan_once_in (2 * List.length s + 2) depth (skip_ws s))
      (fun vr =>
         match skip_ws (snd vr) with
         | [] => Value (fst vr)
         | _ :: _ => Invalid
         end).

End Limited.

End Loads.

(** ** [json.dumps(obj, indent=indent, ensure_ascii=False)] *)

Module Dumps.

Definition hex_digit (n : N) : char := (if n <? 10 then 48 + n else 87 + n)%N.

(** [ESCAPE_DCT] of [encode_basestring]: the quote, the backslash and the
    control characters below U+0020 are escaped, every other character is
    kept as it is. *)
Definition escape_char (c : char) : str :=
  (if c =? 34 then [92; 34]
   else if c =? 92 then [92; 92]
   else if c =? 10 then [92; 110]
   else if c =? 13 then [92; 114]
   else if c =? 9 then [92; 116]
   else if c =? 8 then [92; 98]
   else if c =? 12 then [92; 102]
   else if c <? 32 then [92; 117; 48; 48; hex_digit (c / 16); hex_digit (c mod 16)]
   else [c])%N.

Definition encode_basestring (s : str) : str :=
  QUOTE :: flat_map escape_char s ++ [QUOTE].

Section Encoder.

Variable F : Type.
(** [float.__repr__] on a finite float. *)
Variable float_repr : F -> str.

Definition floatstr (f : pyfloat F) : str :=
  match f with
  | NaN => lit "NaN"
  | Infinity => lit "Infinity"
  | NegInfinity => lit "-Infinity"
  | Finite x => float_repr x
  end.

(** [indent]: [None], or the number of spaces per level. *)
Variable indent : option nat.

Definition item_separator : str :=
  match indent with
  | None => lit ", "
  | Some _ => lit ","
  end.

Definition key_separator : str := lit ": ".

Definition newline_indent (level : nat) : str :=
  match indent with
  | None => []
  | Some n => LF :: repeat 32%N (n * level)
  end.

(** [_iterencode(o, _current_indent_level)], the chunks concatenated. *)
Fixpoint iterencode (level : nat) (o : json F) {struct o} : str :=
  match o with
  | JNull => lit "null"
  | JBool true => lit "true"
  | JBool false => lit "false"
  | JInt z => Dec.repr z
  | JFloat f => floatstr f
  | JStr s => encode_basestring s
  | JList [] => lit "[]"
  | JList l =>
      [91%N] ++ newline_indent (S level)
      ++ join (item_separator ++ newline_indent (S level))
           (map (iterencode (S level)) l)
      ++ newline_indent level ++ [93%N]
  | JDict [] => lit "{}"
  | JDict d =>
      [123%N] ++ newline_indent (S level)
      ++ join (item_separator ++ newline_indent (S level))
           (map (fun kv : str * json F =>
                   let (k, v) := kv in
                   encode_basestring k ++ key_separator ++ iterencode (S level) v) d)
      ++ newline_indent level ++ [125%N]
  end.

Definition json_dumps (o : json F) : str := iterencode 0 o.

End Encoder.

End Dumps.


(** ** Exceptions, the world and the effects of a run *)

(** The exception classes the handlers of the program tell apart.  Every
    class here derives from [Exception]; [Other] is any further class. *)
Inductive exn_class : Type :=
| JSONDecodeError
| FileNotFoundError
| ValueError
| Exception
| Other (name : str).

Inductive exn : Type :=
| Raised (c : exn_class) (msg : str)                (* [c(msg)] *)
| Chained (c : exn_class) (prefix : str) (e : exn)  (* [c(f"{prefix}{e}")] *)
| DecodeError (doc : str)      (* raised by [json.loads(doc)] *)
| EncodeError (text : str).    (* raised when [text] is encoded, for a file or for standard output *)

Definition class_of (e : exn) : exn_class :=
  match e with
  | Raised c _ => c
  | Chained c _ _ => c
  | DecodeError _ => JSONDecodeError
  | EncodeError _ => Other (lit "UnicodeEncodeError")
  end.

(** [isinstance(e, json.JSONDecodeError)] and
    [isinstance(e, FileNotFoundError)]. *)
Definition is_JSONDecodeError (e : exn) : bool :=
  match class_of e with JSONDecodeError => true | _ => false end.

Definition is_FileNotFoundError (e : exn) : bool :=
  match class_of e with FileNotFoundError => true | _ => false end.

(** The argument of a [print]: a text, or an f-string that ends with an
    exception. *)
Inductive text : Type :=
| Text (s : str)
| TextExn (prefix : str) (e : exn).

(** The request of [client.chat.completions.create]. *)
Record request : Type := {
  req_model : str;
  req_messages : list (str * str);    (* role, content *)
  req_temperature : str;              (* the literal of the source *)
  req_max_tokens : N
}.

Inductive event : Type :=
| Print (t : text)                       (* [print(t)] *)
| PrintErr (t : text)                    (* [print(t, file=sys.stderr)] *)
| LoadDotenv                             (* [load_dotenv()] *)
| OpenPdf (path : str)                   (* [open(path, 'rb')] *)
| ExtractPage (page_num : nat)           (* [pdf_reader.pages[page_num].extract_text()] *)
| ChatCreate (api_key : str) (r : request)   (* one call of [client.chat.completions.create] *)
| FileCreated (path : str)               (* [open(path, 'w', encoding='utf-8')] *)
| FileWritten (path : str) (content : str).  (* [f.write(content)] *)

(** What a run finds around it. *)
Record World : Type := {
  (** [os.path.isfile] *)
  isfile : str -> bool;
  (** [open(path, 'rb')] and [PyPDF2.PdfReader]: an exception, or the pages;
      [extract_text] on a page raises or returns its text. *)
  read_pdf : str -> exn + list (exn + str);
  (** [OPENAI_API_KEY] in the environment of the process, and in the [.env]
      file that [load_dotenv] finds. *)
  environ_key : option str;
  dotenv_key : option str;
  (** The remote call: an exception, or [message.content] of each choice of
      the response. *)
  chat_create : str -> request -> exn + list (option str);
  (** [open(path, 'w', encoding='utf-8')] raises, or opens the file. *)
  open_write : str -> option exn;
  (** The nesting of arrays and objects that [json.loads] follows before the
      interpreter raises [RecursionError], and
      [sys.get_int_max_str_digits()], which is 0 when there is no limit. *)
  max_nesting : nat;
  int_max_str_digits : nat;
  (** Whether the encoding of standard output has the text; [print] raises
      [UnicodeEncodeError] when it has not. *)
  stdout_encodes : str -> bool
}.

(** A computation: it extends the trace and returns or raises. *)
Definition M (A : Type) : Type := list event -> (exn + A) * list event.

Definition ret (A : Type) (a : A) : M A := fun t => (inr a, t).
Definition raise (A : Type) (e : exn) : M A := fun t => (inl e, t).
Definition emit (ev : event) : M unit := fun t => (inr tt, t ++ [ev]).
Definition bind (A B : Type) (m : M A) (k : A -> M B) : M B :=
  fun t =>
    match m t with
    | (inr a, t') => k a t'
    | (inl e, t') => (inl e, t')
    end.
(** [try: m except Exception as e: h e]. *)
Definition try_except (A : Type) (m : M A) (h : exn -> M A) : M A :=
  fun t =>
    match m t with
    | (inr a, t') => (inr a, t')
    | (inl e, t') => h e t'
    end.

Arguments raise {A} e.

Notation "x <- m ;; k" := (bind m (fun x => k))
  (at level 61, m at next level, right associativity).
Notation "m ;;; k" := (bind m (fun _ => k))
  (at level 61, right associativity).

(** Python truthiness of an optional string. *)
Definition truthy (o : option str) : bool :=
  match o with
  | Some (_ :: _) => true
  | _ => false
  end.

(** [a or b] on optional strings. *)
Definition py_or (a b : option str) : option str := if truthy a then a else b.

(** [os.getenv("OPENAI_API_KEY")] after [load_dotenv()], which sets the
    variables of the [.env] file that the environment does not have. *)
Definition getenv_key (w : World) : option str :=
  match environ_key w with
  | Some v => Some v
  | None => dotenv_key w
  end.

Record PDFInvoiceScanner : Type := { api_key : str }.

Module Msg.
Definition no_key : str :=
  lit "OpenAI API key not found. Please set OPENAI_API_KEY environment variable or provide it as argument.".
Definition pdf_not_found : str := lit "PDF file not found: ".
Definition extracting : str := lit "Error extracting text from PDF: ".
Definition parsing_json : str := lit "Error parsing JSON from OpenAI response: ".
Definition calling_api : str := lit "Error calling OpenAI API: ".
Definition no_text : str := lit "No text could be extracted from the PDF file".
Definition progress_extract : str := lit "Extracting text from PDF: ".
Definition progress_parse : str := lit "Parsing invoice with OpenAI...".
Definition cli_not_found : str := lit "Error: PDF file not found: ".
Definition cli_error : str := LF :: lit "Error: ".
Definition saved : str := LF :: lit "Success! Invoice data saved to: ".
Definition rule : str := repeat 61%N 50.
Definition banner : str := lit "INVOICE DATA (JSON)".
Definition index_error : str := lit "list index out of range".
Definition attribute_error : str := lit "'NoneType' object has no attribute 'strip'".
Definition too_deep (object : bool) : str :=
  lit "maximum recursion depth exceeded while decoding a JSON "
  ++ (if object then lit "object" else lit "array") ++ lit " from a unicode string".
Definition too_long (limit digits : nat) : str :=
  lit "Exceeds the limit (" ++ Dec.repr (Z.of_nat limit)
  ++ lit " digits) for integer string conversion: value has " ++ Dec.repr (Z.of_nat digits)
  ++ lit " digits; use sys.set_int_max_str_digits() to increase the limit".
End Msg.

(** [PDFInvoiceScanner.__init__] *)
Definition init (w : World) (key : option str) : M PDFInvoiceScanner :=
  emit LoadDotenv ;;;
  match py_or key (getenv_key w) with
  | Some (c :: k) => ret {| api_key := c :: k |}
  | _ => raise (Raised ValueError Msg.no_key)
  end.

(** The loop over the pages. *)
Fixpoint extract_pages (page_num : nat) (pages : list (exn + str)) : M (list str) :=
  match pages with
  | [] => ret []
  | p :: rest =>
      emit (ExtractPage page_num) ;;;
      match p with
      | inl e => raise e
      | inr page_text =>
          text_content <- extract_pages (S page_num) rest ;;
          ret (page_text :: text_content)
      end
  end.

(** [PDFInvoiceScanner.extract_text_from_pdf] *)
Definition extract_text_from_pdf (w : World) (pdf_path : str) : M str :=
  try_except
    (emit (OpenPdf pdf_path) ;;;
     match read_pdf w pdf_path with
     | inl e => raise e
     | inr pages =>
         text_content <- extract_pages 0 pages ;;
         ret (join [LF; LF] text_content)
     end)
    (fun e =>
       if is_FileNotFoundError e
       then raise (Raised FileNotFoundError (Msg.pdf_not_found ++ pdf_path))
       else raise (Chained Exception Msg.extracting e)).

(** The instruction sent with the text of the invoice.  The accented letters
    of the source are given by their code points. *)
Module Prompt.
Definition a' : str := [225%N].
Definition e' : str := [233%N].
Definition o' : str := [243%N].
Definition u' : str := [250%N].
Definition U' : str := [218%N].
Definition info : str := lit "informaci" ++ o' ++ lit "n".

Definition head : str :=
  join [LF]
    [ lit "Analiza la siguiente factura y extrae la " ++ info ++ lit " estructurada en formato JSON.";
      lit "Incluye los siguientes campos si est" ++ a' ++ lit "n disponibles:";
      lit "- numero_factura: n" ++ u' ++ lit "mero de la factura";
      lit "- fecha: fecha de emisi" ++ o' ++ lit "n";
      lit "- vendedor: " ++ info ++ lit " del vendedor (nombre, direcci" ++ o' ++ lit "n, CIF/NIF)";
      lit "- cliente: " ++ info ++ lit " del cliente (nombre, direcci" ++ o' ++ lit "n, CIF/NIF)";
      lit "- items: lista de productos/servicios con descripci" ++ o' ++ lit "n, cantidad, precio_unitario, y total";
      lit "- subtotal: subtotal antes de impuestos";
      lit "- impuestos: " ++ info ++ lit " de impuestos (tipo, porcentaje, monto)";
      lit "- total: monto total de la factura";
      lit "- metodo_pago: m" ++ e' ++ lit "todo de pago si est" ++ a' ++ lit " disponible";
      lit "- notas: cualquier nota o " ++ info ++ lit " adicional";
      [];
      lit "Texto de la factura:";
      [] ].

Definition tail : str :=
  join [LF]
    [ [];
      [];
      lit "Responde " ++ U' ++ lit "NICAMENTE con el JSON estructurado, sin texto adicional." ].

Definition prompt (pdf_text : str) : str := head ++ pdf_text ++ tail.

Definition system : str :=
  lit "Eres un asistente experto en procesar facturas y extraer datos estructurados. Respondes "
  ++ u' ++ lit "nicamente con JSON v" ++ a' ++ lit "lido.".

Definition request_for (pdf_text : str) : request :=
  {| req_model := lit "gpt-3.5-turbo";
     req_messages := [(lit "system", system); (lit "user", prompt pdf_text)];
     req_temperature := lit "0.1";
     req_max_tokens := 2000 |}.
End Prompt.

(** Command-line arguments, as [argparse] returns them. *)
Record Args : Type := {
  pdf_file : str;
  output : option str;
  pretty : bool;
  arg_api_key : option str
}.

Definition is_surrogate (c : char) : bool := ((55296 <=? c) && (c <=? 57343))%N.

Section Program.

Variable F : Type.
Variable float_of_literal : str -> pyfloat F.
Variable float_repr : F -> str.
Variable w : World.

(** [json.loads] without the limits of an interpreter, and [json.dumps]. *)
Definition json_loads : str -> option (json F) := Loads.json_loads float_of_literal.
Definition json_dumps : option nat -> json F -> str := Dumps.json_dumps float_repr.

(** [json.loads(s)] in the interpreter of the run: the value, or the
    exception raised. *)
Definition json_loads_in (s : str) : exn + json F :=
  match Loads.decode_in float_of_literal (int_max_str_digits w) (max_nesting w) s with
  | Loads.Value v => inr v
  | Loads.TooDeep o => inl (Raised (Other (lit "RecursionError")) (Msg.too_deep o))
  | Loads.TooLong n => inl (Raised ValueError (Msg.too_long (int_max_str_digits w) n))
  | Loads.Invalid | Loads.NoFuel => inl (DecodeError s)
  end.

(** [print(s)]: standard output has the text, or [UnicodeEncodeError] is
    raised and nothing is printed. *)
Definition print (s : str) : M unit :=
  if stdout_encodes w s then emit (Print (Text s)) else raise (EncodeError s).

(** [PDFInvoiceScanner.parse_invoice_to_json] *)
Definition parse_invoice_to_json (self : PDFInvoiceScanner) (pdf_text : str) : M (json F) :=
  try_except
    (emit (ChatCreate (api_key self) (Prompt.request_for pdf_text)) ;;;
     match chat_create w (api_key self) (Prompt.request_for pdf_text) with
     | inl e => raise e
     | inr choices =>
         match choices with
         | [] => raise (Raised (Other (lit "IndexError")) Msg.index_error)
         | None :: _ => raise (Raised (Other (lit "AttributeError")) Msg.attribute_error)
         | Some content :: _ =>
             let json_text := clean_json_text content in
             match json_loads_in json_text with
             | inr v => ret v
             | inl e => raise e
             end
         end
     end)
    (fun e =>
       if is_JSONDecodeError e
       then raise (Chained ValueError Msg.parsing_json e)
       else raise (Chained Exception Msg.calling_api e)).

(** [PDFInvoiceScanner.scan_invoice], on a standard output that has the two
    progress lines. *)
Definition scan_invoice (self : PDFInvoiceScanner) (pdf_path : str) : M (json F) :=
  emit (Print (Text (Msg.progress_extract ++ pdf_path))) ;;;
  pdf_text <- extract_text_from_pdf w pdf_path ;;
  match strip pdf_text with
  | [] => raise (Raised ValueError Msg.no_text)
  | _ :: _ =>
      emit (Print (Text Msg.progress_parse)) ;;;
      parse_invoice_to_json self pdf_text
  end.

(** [with open(path, 'w', encoding='utf-8') as f: f.write(content)]: the
    file is created or emptied when it is opened; a text with a surrogate
    code point has no UTF-8 encoding and nothing is written. *)
Definition write_text (path content : str) : M unit :=
  match open_write w path with
  | Some e => raise e
  | None =>
      emit (FileCreated path) ;;;
      if existsb is_surrogate content then raise (EncodeError content)
      else emit (FileWritten path content)
  end.

(** [main], lines 205-218: format the result and save or print it. *)
Definition save_or_print (args : Args) (invoice_data : json F) : M unit :=
  let indent := if pretty args then Some 2%nat else None in
  let json_output := json_dumps indent invoice_data in
  match output args with
  | Some (c :: p) =>
      write_text (c :: p) json_output ;;;
      print (Msg.saved ++ c :: p)
  | _ =>
      print (LF :: Msg.rule) ;;;
      print Msg.banner ;;;
      print Msg.rule ;;;
      print json_output
  end.

(** [main], once [parser.parse_args()] has returned the arguments: the exit
    status and the trace of the run. *)
Definition main (args : Args) : Z * list event :=
  if negb (isfile w (pdf_file args)) then
    (1%Z, [PrintErr (Text (Msg.cli_not_found ++ pdf_file args))])
  else
    match (scanner <- init w (arg_api_key args) ;;
           invoice_data <- scan_invoice scanner (pdf_file args) ;;
           save_or_print args invoice_data) [] with
    | (inr _, t) => (0%Z, t)
    | (inl e, t) => (1%Z, t ++ [PrintErr (TextExn Msg.cli_error e)])
    end.

End Program.

(** What the two handlers of [parse_invoice_to_json] make of an exception. *)
Definition reported (e : exn) : exn :=
  if is_JSONDecodeError e
  then Chained ValueError Msg.parsing_json e
  else Chained Exception Msg.calling_api e.

(** The remote calls, the PDF files opened and the content of a file, read
    off a trace. *)
Definition remote_calls (t : list event) : nat :=
  List.length (filter (fun ev => match ev with ChatCreate _ _ => true | _ => false end) t).

Definition extractions (t : list event) : nat :=
  List.length (filter (fun ev => match ev with OpenPdf _ | ExtractPage _ => true | _ => false end) t).

Definition stderr (t : list event) : list text :=
  flat_map (fun ev => match ev with PrintErr x => [x] | _ => [] end) t.

Fixpoint file_content (path : str) (t : list event) (before : option str) : option str :=
  match t with
  | [] => before
  | FileCreated p :: t' =>
      file_content path t' (if Str.eqb p path then Some [] else before)
  | FileWritten p c :: t' =>
      file_content path t'
        (if Str.eqb p path then Some (match before with Some b => b ++ c | None => c end)
         else before)
  | _ :: t' => file_content path t' before
  end.

(** * Properties *)

(** ** Text cleaning *)

Lemma startswith_fence_not_tag (s : str) :
  startswith s fence = true -> startswith s json_tag = false.
Proof.
  destruct s as [|c s]; [discriminate|].
  change (startswith (c :: s) fence) with ((96 =? c)%N && startswith s (lit "``")).
  change (startswith (c :: s) json_tag) with ((106 =? c)%N && startswith s (lit "son")).
  destruct (N.eqb_spec 96 c) as [<-|]; [reflexivity|discriminate].
Qed.

Lemma startswith_tag_first_line (l1 : str) (rest : list str) :
  startswith (join [LF] (l1 :: rest)) json_tag = startswith l1 json_tag.
Proof.
  destruct rest as [|l2 rest]; [reflexivity|].
  change (join [LF] (l1 :: l2 :: rest)) with (l1 ++ [LF] ++ join [LF] (l2 :: rest)).
  generalize (join [LF] (l2 :: rest)); intros x.
  destruct l1 as [|a [|b [|c [|d l1]]]]; cbn -[N.eqb];
    repeat match goal with
           | |- context [N.eqb ?p ?q] => is_var q; destruct (N.eqb p q); cbn -[N.eqb]
           end; reflexivity.
Qed.

Lemma skipn_tag_first_line (l1 : str) (rest : list str) :
  startswith l1 json_tag = true ->
  skipn 4 (join [LF] (l1 :: rest)) = join [LF] (skipn 4 l1 :: rest).
Proof.
  destruct l1 as [|a [|b [|c [|d l1]]]]; cbn -[N.eqb];
    repeat match goal with
           | |- context [N.eqb ?p ?q] => is_var q; destruct (N.eqb p q); cbn -[N.eqb]
           end; try discriminate.
  intros _. destruct rest; reflexivity.
Qed.

(** The cleaning as the specification words it: trim; if the text begins
    with a fence, drop the first and the last line and, if the remaining
    first line names a language tag, drop that line too. *)
Definition spec_clean_json_text (content : str) : str :=
  let t := strip content in
  if startswith t fence then
    match slice_1_m1 (split LF t) with
    | first :: rest =>
        if startswith first json_tag then join [LF] rest else join [LF] (first :: rest)
    | [] => []
    end
  else t.

(** The cleaning as the code does it, told line by line: with three lines or
    more the first and the last line go, and a remaining first line that
    begins with [json] loses this tag, after which the text is trimmed again;
    with one or two lines nothing changes. *)
Definition lines_clean_json_text (content : str) : str :=
  let t := strip content in
  if startswith t fence then
    match split LF t with
    | _ :: l2 :: l3 :: more =>
        match removelast (l2 :: l3 :: more) with
        | l1 :: rest =>
            if startswith l1 json_tag then strip (join [LF] (skipn 4 l1 :: rest))
            else join [LF] (l1 :: rest)
        | [] => []
        end
    | _ => t
    end
  else t.

Definition fenced_empty : str := lit "```json" ++ [LF] ++ lit "```".

(** C1, counterexample: on the two-line answer made of an opening fence
    with its tag and a closing fence, the code keeps the text as it is, where
    the claim has the first and the last line dropped. *)
Lemma C1_counterexample :
  startswith (strip fenced_empty) fence = true
  /\ clean_json_text fenced_empty = fenced_empty
  /\ spec_clean_json_text fenced_empty = []
  /\ clean_json_text fenced_empty <> spec_clean_json_text fenced_empty.
Proof.
  repeat split; try reflexivity.
  vm_compute. discriminate.
Qed.

(** A tag that shares its line with other text: the code removes the four
    characters only, where the claim has the whole line dropped. *)
Example tag_line_not_dropped :
  let content := lit "```" ++ [LF] ++ lit "json [1]" ++ [LF] ++ lit "[2]" ++ [LF] ++ lit "```" in
  clean_json_text content = lit "[1]" ++ [LF] ++ lit "[2]"
  /\ spec_clean_json_text content = lit "[2]".
Proof. split; reflexivity. Qed.

(** C1 (amended): after trimming, a text that begins with a fence and has
    more than two lines loses its first and last line; if the first remaining
    line begins with the tag [json], the tag is removed (the whole line, when
    the line is the tag alone) and the text is trimmed again; a text of one
    or two lines is left as it is, and so is a text without a fence.  The
    outcome is the text [parse_invoice_to_json] gives to [json.loads]. *)
Theorem C1_clean_json_text_by_lines (content : str) :
  clean_json_text content = lines_clean_json_text content.
Proof.
  unfold clean_json_text, lines_clean_json_text.
  destruct (startswith (strip content) fence) eqn:Hf; [|reflexivity].
  pose proof (startswith_fence_not_tag _ Hf) as Ht.
  destruct (split LF (strip content)) as [|a [|b [|c more]]];
    cbv [List.length Nat.ltb Nat.leb]; try (rewrite Ht; reflexivity).
  unfold slice_1_m1, slice_from. cbv beta iota. change (tl (a :: b :: c :: more)) with (b :: c :: more).
  destruct (removelast (b :: c :: more)) as [|l1 rest]; [reflexivity|].
  rewrite startswith_tag_first_line.
  destruct (startswith l1 json_tag) eqn:Hl; [|reflexivity].
  now rewrite skipn_tag_first_line.
Qed.

(** A remaining first line that is the tag alone is dropped whole. *)
Lemma tag_line_alone_dropped (rest : list str) :
  strip (join [LF] (skipn 4 json_tag :: rest)) = strip (join [LF] rest).
Proof.
  destruct rest as [|l2 rest]; reflexivity.
Qed.

(** C10: a text that begins with a fence and has one or two lines is handed
    to the JSON parser as it is after trimming. *)
Theorem C10_short_fenced_text_unchanged (content : str) :
  startswith (strip content) fence = true ->
  (List.length (split LF (strip content)) <= 2)%nat ->
  clean_json_text content = strip content.
Proof.
  intros Hf Hlen. unfold clean_json_text. rewrite Hf.
  assert ((2 <? List.length (split LF (strip content)))%nat = false) as ->
    by (apply Nat.ltb_ge; exact Hlen).
  now rewrite (startswith_fence_not_tag _ Hf).
Qed.

Lemma C10_witness :
  clean_json_text (lit "  ```json" ++ [LF] ++ lit "{}```  ") = lit "```json" ++ [LF] ++ lit "{}```".
Proof.
  apply (C10_short_fenced_text_unchanged (lit "  ```json" ++ [LF] ++ lit "{}```  ")).
  - reflexivity.
  - vm_compute. lia.
Defined.

(** ** Text extraction *)

Lemma extract_pages_texts (texts : list str) (n : nat) (t : list event) :
  extract_pages n (map inr texts) t
  = (inr texts, t ++ map ExtractPage (seq n (List.length texts))).
Proof.
  revert n t. induction texts as [|x texts IH]; intros n t.
  - cbn. now rewrite app_nil_r.
  - cbn [map extract_pages]. unfold bind, emit at 1.
    rewrite IH. unfold ret. cbn [List.length seq map].
    now rewrite <- app_assoc.
Qed.

Lemma extract_pages_trace (pages : list (exn + str)) (n : nat) (t : list event) :
  extract_pages n pages t
  = (fst (extract_pages n pages []), t ++ snd (extract_pages n pages [])).
Proof.
  revert n t. induction pages as [|p pages IH]; intros n t.
  - cbn. now rewrite app_nil_r.
  - cbn [extract_pages]. unfold bind, emit, raise. cbn [app].
    destruct p as [e|x]; [reflexivity|].
    rewrite (IH (S n) (t ++ [ExtractPage n])), (IH (S n) [ExtractPage n]).
    destruct (extract_pages (S n) pages []) as [[e|texts] t']; cbn;
      now rewrite <- app_assoc.
Qed.

Lemma extract_pages_no_call (pages : list (exn + str)) (n : nat) :
  remote_calls (snd (extract_pages n pages [])) = 0%nat.
Proof.
  revert n. induction pages as [|p pages IH]; intros n; [reflexivity|].
  cbn [extract_pages]. unfold bind, emit, raise. cbn [app].
  destruct p as [e|x]; [reflexivity|].
  rewrite (extract_pages_trace pages (S n) [ExtractPage n]).
  specialize (IH (S n)).
  destruct (extract_pages (S n) pages []) as [[e|texts] t']; cbn in *; exact IH.
Qed.

Lemma remote_calls_app (t1 t2 : list event) :
  remote_calls (t1 ++ t2) = (remote_calls t1 + remote_calls t2)%nat.
Proof. unfold remote_calls. now rewrite filter_app, length_app. Qed.

(** The outcome of the extraction does not depend on the trace so far, and
    the extraction calls no remote service. *)
Lemma extract_text_trace (w : World) (pdf_path : str) (t : list event) :
  extract_text_from_pdf w pdf_path t
  = (fst (extract_text_from_pdf w pdf_path []),
     t ++ snd (extract_text_from_pdf w pdf_path [])).
Proof.
  unfold extract_text_from_pdf, try_except, bind, emit, raise. cbn [app].
  destruct (read_pdf w pdf_path) as [e|pages].
  - destruct (is_FileNotFoundError e); reflexivity.
  - rewrite (extract_pages_trace pages 0 (t ++ [OpenPdf pdf_path])),
      (extract_pages_trace pages 0 [OpenPdf pdf_path]).
    destruct (extract_pages 0 pages []) as [[e|texts] t']; cbn;
      [destruct (is_FileNotFoundError e)|]; cbn; now rewrite <- app_assoc.
Qed.

Lemma extract_text_no_call (w : World) (pdf_path : str) :
  remote_calls (snd (extract_text_from_pdf w pdf_path [])) = 0%nat.
Proof.
  unfold extract_text_from_pdf, try_except, bind, emit, raise. cbn [app].
  destruct (read_pdf w pdf_path) as [e|pages].
  - destruct (is_FileNotFoundError e); reflexivity.
  - rewrite (extract_pages_trace pages 0 [OpenPdf pdf_path]).
    pose proof (extract_pages_no_call pages 0) as H.
    destruct (extract_pages 0 pages []) as [[e|texts] t']; cbn in *;
      [destruct (is_FileNotFoundError e)|]; cbn; exact H.
Qed.

(** The page texts in page order, with one blank line (two line feeds)
    between consecutive texts and nothing before the first or after the last,
    as the specification words it. *)
Fixpoint spec_blank_line_between (texts : list str) : list str :=
  match texts with
  | [] => []
  | [x] => [x]
  | x :: rest => x :: [LF; LF] :: spec_blank_line_between rest
  end.

Definition spec_pages_text (texts : list str) : str :=
  concat (spec_blank_line_between texts).

Lemma join_blank_line (texts : list str) :
  join [LF; LF] texts = spec_pages_text texts.
Proof.
  unfold spec_pages_text.
  induction texts as [|x [|y rest] IH]; [reflexivity|cbn; now rewrite app_nil_r|].
  change (join [LF; LF] (x :: y :: rest)) with (x ++ [LF; LF] ++ join [LF; LF] (y :: rest)).
  rewrite IH. reflexivity.
Qed.

(** C4: for a PDF whose N pages each yield a non-empty text, the extractor
    returns the N texts in page order with exactly one blank line between
    consecutive texts; the pages are read once each, in order. *)
Theorem C4_pages_joined_by_blank_line
    (w : World) (pdf_path : str) (texts : list str) (t : list event) :
  read_pdf w pdf_path = inr (map inr texts) ->
  Forall (fun x => x <> []) texts ->
  extract_text_from_pdf w pdf_path t
  = (inr (spec_pages_text texts),
     t ++ OpenPdf pdf_path :: map ExtractPage (seq 0 (List.length texts)))
  /\ List.length (spec_blank_line_between texts)
     = (2 * List.length texts - 1)%nat.
Proof.
  intros Hread _. split.
  - unfold extract_text_from_pdf, try_except, bind, emit. rewrite Hread.
    rewrite extract_pages_texts. unfold ret.
    now rewrite join_blank_line, <- app_assoc.
  - clear Hread. induction texts as [|x [|y rest] IH]; [reflexivity|reflexivity|].
    change (spec_blank_line_between (x :: y :: rest))
      with (x :: [LF; LF] :: spec_blank_line_between (y :: rest)).
    cbn [List.length] in *. lia.
Qed.

Definition two_pages : World :=
  {| isfile := fun _ => true;
     read_pdf := fun _ => inr [inr (lit "Invoice 42"); inr (lit "Total: 10")];
     environ_key := Some (lit "sk-test");
     dotenv_key := None;
     chat_create := fun _ _ => inr [Some (lit "[1, 2]")];
     open_write := fun _ => None;
     max_nesting := 990;
     int_max_str_digits := 4300;
     stdout_encodes := fun s => negb (existsb is_surrogate s) |}.

Lemma C4_witness :
  extract_text_from_pdf two_pages (lit "a.pdf") []
  = (inr (lit "Invoice 42" ++ [LF; LF] ++ lit "Total: 10"),
     [OpenPdf (lit "a.pdf"); ExtractPage 0; ExtractPage 1])
  /\ List.length (spec_blank_line_between [lit "Invoice 42"; lit "Total: 10"]) = 3%nat.
Proof.
  apply (@C4_pages_joined_by_blank_line two_pages (lit "a.pdf")
           [lit "Invoice 42"; lit "Total: 10"] []).
  - reflexivity.
  - repeat constructor; discriminate.
Defined.

(** ** The scanner and the command line *)

Section Runs.

Variable F : Type.
Variable float_of_literal : str -> pyfloat F.
Variable float_repr : F -> str.
Variable w : World.

Local Abbreviation parse := (parse_invoice_to_json float_of_literal w).
Local Abbreviation scan := (scan_invoice float_of_literal w).
Local Abbreviation loads := (json_loads float_of_literal).

Lemma init_key (key : option str) (c : char) (k : str) (t : list event) :
  py_or key (getenv_key w) = Some (c :: k) ->
  init w key t = (inr {| api_key := c :: k |}, t ++ [LoadDotenv]).
Proof. intros H. unfold init, bind, emit. now rewrite H. Qed.

Lemma init_no_key (key : option str) (t : list event) :
  truthy key = false -> truthy (getenv_key w) = false ->
  init w key t = (inl (Raised ValueError Msg.no_key), t ++ [LoadDotenv]).
Proof.
  intros Hk He. unfold init, bind, emit, py_or. rewrite Hk.
  destruct (getenv_key w) as [[|c k]|]; try reflexivity; discriminate.
Qed.

(** The remote call is made once, whatever comes back. *)
Lemma parse_trace (self : PDFInvoiceScanner) (pdf_text : str) (t : list event) :
  snd (parse self pdf_text t)
  = t ++ [ChatCreate (api_key self) (Prompt.request_for pdf_text)].
Proof.
  unfold parse_invoice_to_json, try_except, bind, emit, raise, ret.
  destruct (chat_create w (api_key self) (Prompt.request_for pdf_text)) as [e|[|[c|] cs]];
    cbn; try (destruct (is_JSONDecodeError e)); try reflexivity.
  destruct (json_loads_in float_of_literal w (clean_json_text c)) as [e|v];
    [destruct (is_JSONDecodeError e)|]; reflexivity.
Qed.

(** The outcome, when the first choice of the answer has a content: what
    [json.loads] returns, or what the handlers make of what it raises. *)
Lemma parse_content (self : PDFInvoiceScanner) (pdf_text content : str)
    (cs : list (option str)) (t : list event) :
  chat_create w (api_key self) (Prompt.request_for pdf_text) = inr (Some content :: cs) ->
  fst (parse self pdf_text t)
  = match json_loads_in float_of_literal w (clean_json_text content) with
    | inr v => inr v
    | inl e => inl (reported e)
    end.
Proof.
  intros H. unfold parse_invoice_to_json, try_except, bind, emit, raise, ret, reported.
  rewrite H.
  destruct (json_loads_in float_of_literal w (clean_json_text content)) as [e|v];
    [destruct (is_JSONDecodeError e)|]; reflexivity.
Qed.


(** The scan, once the extraction has returned a text that is not blank. *)
Lemma scan_text (self : PDFInvoiceScanner) (pdf_path pdf_text : str) (t : list event) :
  fst (extract_text_from_pdf w pdf_path []) = inr pdf_text ->
  strip pdf_text <> [] ->
  scan self pdf_path t
  = parse self pdf_text
      (t ++ Print (Text (Msg.progress_extract ++ pdf_path))
         :: snd (extract_text_from_pdf w pdf_path [])
         ++ [Print (Text Msg.progress_parse)]).
Proof.
  intros Hx Hs. unfold scan_invoice, bind, emit.
  rewrite extract_text_trace, Hx.
  destruct (strip pdf_text) as [|c r]; [contradiction|].
  f_equal. now rewrite <- !app_assoc.
Qed.

(** C2: when the extracted text is empty or blank, the scan fails with
    the error "No text could be extracted from the PDF file" and the trace
    of the run has no remote call more than before. *)
Theorem C2_blank_text_no_remote_call
    (self : PDFInvoiceScanner) (pdf_path pdf_text : str) (t : list event) :
  fst (extract_text_from_pdf w pdf_path []) = inr pdf_text ->
  strip pdf_text = [] ->
  fst (scan self pdf_path t) = inl (Raised ValueError Msg.no_text)
  /\ remote_calls (snd (scan self pdf_path t)) = remote_calls t.
Proof.
  intros Hx Hs. unfold scan_invoice, bind, emit, raise.
  rewrite extract_text_trace, Hx, Hs. cbn [fst snd]. split; [reflexivity|].
  rewrite !remote_calls_app, extract_text_no_call. cbn. lia.
Qed.

(** C7: when the input path is not an existing file, the program exits
    with status 1 after one message on the error stream, "Error: PDF file
    not found: " and the path; no PDF is opened and no remote call is
    made. *)
Theorem C7_missing_file_exit_1 (args : Args) :
  isfile w (pdf_file args) = false ->
  main float_of_literal float_repr w args
  = (1%Z, [PrintErr (Text (Msg.cli_not_found ++ pdf_file args))])
  /\ extractions (snd (main float_of_literal float_repr w args)) = 0%nat
  /\ remote_calls (snd (main float_of_literal float_repr w args)) = 0%nat.
Proof.
  intros H. unfold main. rewrite H. repeat split.
Qed.

(** C8: when neither the [--api-key] argument nor [OPENAI_API_KEY]
    provides a key, the construction raises the configuration error at once,
    and a run on an existing file ends with status 1 having opened no PDF,
    called no service and written nothing but the error line. *)
Theorem C8_missing_key_fails_fast (args : Args) (t : list event) :
  truthy (arg_api_key args) = false ->
  truthy (getenv_key w) = false ->
  init w (arg_api_key args) t = (inl (Raised ValueError Msg.no_key), t ++ [LoadDotenv])
  /\ (isfile w (pdf_file args) = true ->
      main float_of_literal float_repr w args
      = (1%Z, [LoadDotenv; PrintErr (TextExn Msg.cli_error (Raised ValueError Msg.no_key))])).
Proof.
  intros Hk He. split; [now apply init_no_key|].
  intros Hf. unfold main. rewrite Hf. cbn [negb]. unfold bind at 1.
  now rewrite (init_no_key _ [] Hk He).
Qed.

End Runs.

(** A float model for the examples: one finite value, written [0.0]. *)
Definition unit_float_of_literal (text : str) : pyfloat unit := Finite tt.
Definition unit_float_repr (x : unit) : str := lit "0.0".

Definition blank_pdf : World :=
  {| isfile := fun _ => true;
     read_pdf := fun _ => inr [inr [32%N; LF]; inr []];
     environ_key := Some (lit "sk-test");
     dotenv_key := None;
     chat_create := fun _ _ => inr [Some (lit "{}")];
     open_write := fun _ => None;
     max_nesting := 990;
     int_max_str_digits := 4300;
     stdout_encodes := fun s => negb (existsb is_surrogate s) |}.

Lemma C2_witness :
  fst (scan_invoice unit_float_of_literal blank_pdf {| api_key := lit "sk-test" |} (lit "a.pdf") [])
  = inl (Raised ValueError Msg.no_text)
  /\ remote_calls
       (snd (scan_invoice unit_float_of_literal blank_pdf {| api_key := lit "sk-test" |}
               (lit "a.pdf") [])) = remote_calls [].
Proof.
  apply (@C2_blank_text_no_remote_call unit unit_float_of_literal blank_pdf
           {| api_key := lit "sk-test" |} (lit "a.pdf") [32%N; LF; LF; LF] []).
  - reflexivity.
  - reflexivity.
Defined.

Definition no_such_file : World :=
  {| isfile := fun _ => false;
     read_pdf := fun p => inl (Raised FileNotFoundError (lit "[Errno 2] No such file or directory"));
     environ_key := None;
     dotenv_key := None;
     chat_create := fun _ _ => inr [Some (lit "{}")];
     open_write := fun _ => None;
     max_nesting := 990;
     int_max_str_digits := 4300;
     stdout_encodes := fun s => negb (existsb is_surrogate s) |}.

Definition args_default (path : str) : Args :=
  {| pdf_file := path; output := None; pretty := false; arg_api_key := None |}.

Lemma C7_witness :
  main unit_float_of_literal unit_float_repr no_such_file (args_default (lit "missing.pdf"))
  = (1%Z, [PrintErr (Text (lit "Error: PDF file not found: missing.pdf"))])
  /\ extractions (snd (main unit_float_of_literal unit_float_repr no_such_file
                         (args_default (lit "missing.pdf")))) = 0%nat
  /\ remote_calls (snd (main unit_float_of_literal unit_float_repr no_such_file
                          (args_default (lit "missing.pdf")))) = 0%nat.
Proof.
  apply (@C7_missing_file_exit_1 unit unit_float_of_literal unit_float_repr no_such_file
           (args_default (lit "missing.pdf"))).
  reflexivity.
Defined.

Definition no_key_world : World :=
  {| isfile := fun _ => true;
     read_pdf := fun _ => inr [inr (lit "Invoice 42")];
     environ_key := Some [];
     dotenv_key := Some (lit "sk-from-dotenv");
     chat_create := fun _ _ => inr [Some (lit "{}")];
     open_write := fun _ => None;
     max_nesting := 990;
     int_max_str_digits := 4300;
     stdout_encodes := fun s => negb (existsb is_surrogate s) |}.

Lemma C8_witness :
  init no_key_world None [] = (inl (Raised ValueError Msg.no_key), [LoadDotenv])
  /\ (isfile no_key_world (lit "a.pdf") = true ->
      main unit_float_of_literal unit_float_repr no_key_world (args_default (lit "a.pdf"))
      = (1%Z, [LoadDotenv; PrintErr (TextExn Msg.cli_error (Raised ValueError Msg.no_key))])).
Proof.
  apply (@C8_missing_key_fails_fast unit unit_float_of_literal unit_float_repr no_key_world
           (args_default (lit "a.pdf")) []).
  - reflexivity.
  - reflexivity.
Defined.

(** ** Outcomes of the structured extraction *)

Definition is_object (F : Type) (v : json F) : bool :=
  match v with
  | JDict _ => true
  | _ => false
  end.

(** Whether the serialized result can be delivered and the run can say so:
    the file opens for writing, the text has a UTF-8 encoding and standard
    output has the line that tells where it is saved; or, without a file,
    standard output has the three lines of the banner and the text. *)
Definition output_ok (w : World) (args : Args) (json_output : str) : bool :=
  match output args with
  | Some (c :: p) =>
      match open_write w (c :: p) with
      | None =>
          negb (existsb is_surrogate json_output) && stdout_encodes w (Msg.saved ++ c :: p)
      | Some _ => false
      end
  | _ => forallb (stdout_encodes w) [LF :: Msg.rule; Msg.banner; Msg.rule; json_output]
  end.

(** Where the serialized result ends up. *)
Definition delivered (args : Args) (json_output : str) : event :=
  match output args with
  | Some (c :: p) => FileWritten (c :: p) json_output
  | _ => Print (Text json_output)
  end.

Section Outcomes.

Variable F : Type.
Variable float_of_literal : str -> pyfloat F.
Variable float_repr : F -> str.
Variable w : World.

Local Abbreviation parse := (parse_invoice_to_json float_of_literal w).
Local Abbreviation loads := (json_loads float_of_literal).
Local Abbreviation dumps := (json_dumps float_repr).

Lemma save_or_print_ok (args : Args) (v : json F) (t : list event) :
  output_ok w args (dumps (if pretty args then Some 2%nat else None) v) = true ->
  exists t1 t2,
    save_or_print float_repr w args v t
    = (inr tt, t ++ t1 ++ delivered args (dumps (if pretty args then Some 2%nat else None) v) :: t2).
Proof.
  assert (forall json_output,
             forallb (stdout_encodes w) [LF :: Msg.rule; Msg.banner; Msg.rule; json_output]
             = true ->
             exists t1 t2,
               (print w (LF :: Msg.rule) ;;; print w Msg.banner ;;; print w Msg.rule ;;;
                print w json_output) t
               = (inr tt, t ++ t1 ++ Print (Text json_output) :: t2)) as Hprint.
  { intros json_output H. cbn [forallb] in H.
    apply andb_true_iff in H as [H1 H]. apply andb_true_iff in H as [H2 H].
    apply andb_true_iff in H as [H3 H]. apply andb_true_iff in H as [H4 _].
    unfold print, bind, emit. rewrite H1, H2, H3, H4.
    eexists [_; _; _], []. cbn. now rewrite <- !app_assoc. }
  unfold output_ok, save_or_print, delivered.
  destruct (output args) as [[|c p]|]; try apply Hprint.
  unfold write_text, print, bind, emit.
  destruct (open_write w (c :: p)); [discriminate|].
  intros H. apply andb_true_iff in H as [H Hp]. apply negb_true_iff in H. rewrite H.
  unfold emit. rewrite Hp. eexists [_], [_]. cbn. now rewrite <- !app_assoc.
Qed.

(** A run whose stages before the output all succeed. *)
Lemma main_scanned (args : Args) (c : char) (k pdf_text content : str)
    (cs : list (option str)) (v : json F) :
  isfile w (pdf_file args) = true ->
  py_or (arg_api_key args) (getenv_key w) = Some (c :: k) ->
  fst (extract_text_from_pdf w (pdf_file args) []) = inr pdf_text ->
  strip pdf_text <> [] ->
  chat_create w (c :: k) (Prompt.request_for pdf_text) = inr (Some content :: cs) ->
  json_loads_in float_of_literal w (clean_json_text content) = inr v ->
  exists t,
    remote_calls t = 1%nat
    /\ main float_of_literal float_repr w args
       = match save_or_print float_repr w args v t with
         | (inr _, t') => (0%Z, t')
         | (inl e, t') => (1%Z, t' ++ [PrintErr (TextExn Msg.cli_error e)])
         end.
Proof.
  intros Hf Hk Hx Hs Hc Hl.
  pose (self := {| api_key := c :: k |}).
  pose (t0 := [LoadDotenv; Print (Text (Msg.progress_extract ++ pdf_file args))]
                ++ snd (extract_text_from_pdf w (pdf_file args) [])
                ++ [Print (Text Msg.progress_parse)]).
  exists (t0 ++ [ChatCreate (c :: k) (Prompt.request_for pdf_text)]). split.
  - unfold t0. rewrite !remote_calls_app, extract_text_no_call. reflexivity.
  - unfold main. rewrite Hf. cbn [negb]. unfold bind at 1.
    rewrite (@init_key w _ c k [] Hk). unfold bind at 1.
    rewrite (@scan_text _ float_of_literal w self (pdf_file args) pdf_text _ Hx Hs).
    pose proof (@parse_content _ float_of_literal w self pdf_text content cs t0 Hc) as Hp.
    pose proof (@parse_trace _ float_of_literal w self pdf_text t0) as Ht.
    rewrite Hl in Hp. fold self. fold t0 in Hp, Ht |- *.
    change (([] ++ [LoadDotenv]) ++ Print (Text (Msg.progress_extract ++ pdf_file args))
              :: snd (extract_text_from_pdf w (pdf_file args) [])
              ++ [Print (Text Msg.progress_parse)]) with t0.
    destruct (parse_invoice_to_json float_of_literal w self pdf_text t0) as [r t'].
    cbn [fst snd] in Hp, Ht. subst r t'. reflexivity.
Qed.

End Outcomes.



Definition test_scanner : PDFInvoiceScanner := {| api_key := lit "sk-test" |}.


(** The answer of the specification's example: the object with the one key
    [total], between a tagged opening fence and a closing fence. *)
Definition total_text : str := lit "{" ++ [QUOTE] ++ lit "total" ++ [QUOTE] ++ lit ": 10}".
Definition fenced_total : str := lit "```json" ++ [LF] ++ total_text ++ [LF] ++ lit "```".

(** C6: the answer [```json], [{"total": 10}], [```] on three lines is
    cleaned to [{"total": 10}] and parsed to the object whose one key [total]
    has the integer value 10. *)
Theorem C6_fenced_total (F : Type) (float_of_literal : str -> pyfloat F) :
  clean_json_text fenced_total = total_text
  /\ json_loads float_of_literal (clean_json_text fenced_total)
     = Some (JDict [(lit "total", JInt 10)]).
Proof.
  split; vm_compute; reflexivity.
Qed.

(** ** Numbers: what [json.dumps] writes, [json.loads] reads back *)

(** What may follow a number for the match to stop there. *)
Definition number_stop (rest : str) : bool :=
  match rest with
  | [] => true
  | c :: _ =>
      negb (Dec.is_digit c || (c =? 46) || (c =? 101) || (c =? 69)
            || (c =? 43) || (c =? 45))%N
  end.

Lemma number_stop_not_digit (c : char) (rest : str) :
  number_stop (c :: rest) = true -> Dec.is_digit c = false.
Proof.
  cbn [number_stop]. intros H. apply negb_true_iff in H.
  repeat (apply orb_false_elim in H; destruct H as [H _]). exact H.
Qed.

Lemma span_digits_app (s rest : str) :
  number_stop rest = true ->
  Loads.span_digits (s ++ rest)
  = (fst (Loads.span_digits s), snd (Loads.span_digits s) ++ rest).
Proof.
  intros Hr. induction s as [|c s IH].
  - destruct rest as [|c rest]; [reflexivity|].
    cbn [app Loads.span_digits fst snd]. now rewrite (number_stop_not_digit _ _ Hr).
  - cbn [app Loads.span_digits]. destruct (Dec.is_digit c); [|reflexivity].
    rewrite IH. now destruct (Loads.span_digits s).
Qed.

Lemma span_digits_split (s : str) :
  fst (Loads.span_digits s) ++ snd (Loads.span_digits s) = s.
Proof.
  induction s as [|c s IH]; [reflexivity|].
  cbn [Loads.span_digits]. destruct (Dec.is_digit c); [|reflexivity].
  destruct (Loads.span_digits s). cbn in *. now rewrite IH.
Qed.

Lemma match_frac_app (s rest : str) :
  number_stop rest = true ->
  Loads.match_frac (s ++ rest)
  = (fst (Loads.match_frac s), snd (Loads.match_frac s) ++ rest).
Proof.
  intros Hr. destruct s as [|c s].
  - destruct rest as [|c rest]; [reflexivity|].
    cbn [app Loads.match_frac fst snd]. cbn [number_stop] in Hr.
    apply negb_true_iff in Hr.
    destruct (N.eqb_spec c 46) as [->|]; [discriminate|reflexivity].
  - cbn [app Loads.match_frac]. destruct (c =? 46)%N; [|reflexivity].
    rewrite (span_digits_app _ _ Hr).
    destruct (Loads.span_digits s) as [[|d ds] r]; reflexivity.
Qed.

Lemma match_frac_split (s : str) :
  fst (Loads.match_frac s) ++ snd (Loads.match_frac s) = s.
Proof.
  destruct s as [|c s]; [reflexivity|].
  cbn [Loads.match_frac]. destruct (c =? 46)%N; [|reflexivity].
  pose proof (span_digits_split s) as H.
  destruct (Loads.span_digits s) as [[|d ds] r]; cbn in *; [reflexivity|now rewrite H].
Qed.

Lemma match_exp_app (s rest : str) :
  number_stop rest = true ->
  Loads.match_exp (s ++ rest)
  = (fst (Loads.match_exp s), snd (Loads.match_exp s) ++ rest).
Proof.
  intros Hr. destruct s as [|c s].
  - destruct rest as [|c rest]; [reflexivity|].
    cbn [app Loads.match_exp fst snd]. cbn [number_stop] in Hr.
    apply negb_true_iff in Hr.
    destruct (N.eqb_spec c 101) as [->|]; [discriminate|].
    destruct (N.eqb_spec c 69) as [->|]; [discriminate|reflexivity].
  - cbn [app Loads.match_exp]. destruct ((c =? 101) || (c =? 69))%N; [|reflexivity].
    destruct s as [|sg s].
    + destruct rest as [|c' rest]; [reflexivity|].
      cbn [app]. pose proof (number_stop_not_digit _ _ Hr) as Hd.
      cbn [number_stop] in Hr. apply negb_true_iff in Hr.
      destruct (N.eqb_spec c' 43) as [->|]; [discriminate|].
      destruct (N.eqb_spec c' 45) as [->|]; [discriminate|].
      cbn [orb Loads.span_digits]. now rewrite Hd.
    + cbn [app]. destruct ((sg =? 43) || (sg =? 45))%N.
      * rewrite (span_digits_app _ _ Hr).
        destruct (Loads.span_digits s) as [[|d ds] r]; reflexivity.
      * change (sg :: s ++ rest) with ((sg :: s) ++ rest).
        rewrite (span_digits_app _ _ Hr).
        destruct (Loads.span_digits (sg :: s)) as [[|d ds] r]; reflexivity.
Qed.

Lemma match_exp_split (s : str) :
  fst (Loads.match_exp s) ++ snd (Loads.match_exp s) = s.
Proof.
  destruct s as [|c s]; [reflexivity|].
  cbn [Loads.match_exp]. destruct ((c =? 101) || (c =? 69))%N; [|reflexivity].
  destruct s as [|sg s]; [reflexivity|].
  destruct ((sg =? 43) || (sg =? 45))%N.
  - pose proof (span_digits_split s) as H.
    destruct (Loads.span_digits s) as [[|d ds] r]; cbn in *; [reflexivity|now rewrite H].
  - pose proof (span_digits_split (sg :: s)) as H.
    destruct (Loads.span_digits (sg :: s)) as [[|d ds] r]; cbn in *; [reflexivity|now rewrite H].
Qed.

Lemma match_integer_app (s rest : str) :
  number_stop rest = true ->
  Loads.match_integer (s ++ rest)
  = match Loads.match_integer s with
    | Some (i, r) => Some (i, r ++ rest)
    | None => None
    end.
Proof.
  intros Hr. destruct s as [|c s].
  - destruct rest as [|c rest]; [reflexivity|].
    cbn [app Loads.match_integer]. pose proof (number_stop_not_digit _ _ Hr) as Hd.
    rewrite Hd. destruct (N.eqb_spec c 48) as [->|]; [discriminate|reflexivity].
  - cbn [app Loads.match_integer]. destruct (c =? 48)%N; [reflexivity|].
    destruct (Dec.is_digit c); [|reflexivity].
    rewrite (span_digits_app _ _ Hr). now destruct (Loads.span_digits s).
Qed.

Lemma match_integer_split (s i r : str) :
  Loads.match_integer s = Some (i, r) -> i ++ r = s.
Proof.
  destruct s as [|c s]; [discriminate|].
  cbn [Loads.match_integer]. destruct (c =? 48)%N.
  - intros [= <- <-]. reflexivity.
  - destruct (Dec.is_digit c); [|discriminate].
    pose proof (span_digits_split s) as H.
    destruct (Loads.span_digits s) as [ds r']. intros [= <- <-]. cbn in *. now rewrite H.
Qed.

(** A number followed by a text that cannot continue it is matched as it is
    alone. *)
Lemma match_number_app (s rest : str) :
  number_stop rest = true ->
  Loads.match_number (s ++ rest)
  = match Loads.match_number s with
    | Some (n, r) => Some (n, r ++ rest)
    | None => None
    end.
Proof.
  intros Hr. unfold Loads.match_number.
  assert (forall neg s1,
             match Loads.match_integer (s1 ++ rest) with
             | Some (i, s2) =>
                 let (fr, s3) := Loads.match_frac s2 in
                 let (ex, s4) := Loads.match_exp s3 in
                 Some ({| Loads.num_neg := neg; Loads.num_int := i;
                          Loads.num_frac := fr; Loads.num_exp := ex |}, s4)
             | None => None
             end
             = match
                 match Loads.match_integer s1 with
                 | Some (i, s2) =>
                     let (fr, s3) := Loads.match_frac s2 in
                     let (ex, s4) := Loads.match_exp s3 in
                     Some ({| Loads.num_neg := neg; Loads.num_int := i;
                              Loads.num_frac := fr; Loads.num_exp := ex |}, s4)
                 | None => None
                 end
               with
               | Some (n, r) => Some (n, r ++ rest)
               | None => None
               end) as Hbody.
  { intros neg s1. rewrite (match_integer_app _ _ Hr).
    destruct (Loads.match_integer s1) as [[i s2]|]; [|reflexivity].
    rewrite (match_frac_app _ _ Hr). destruct (Loads.match_frac s2) as [fr s3].
    cbn [fst snd]. rewrite (match_exp_app _ _ Hr). now destruct (Loads.match_exp s3). }
  destruct s as [|c s].
  - destruct rest as [|c rest]; [reflexivity|].
    cbn [app]. pose proof (number_stop_not_digit _ _ Hr) as Hd.
    assert ((c =? 45)%N = false) as ->.
    { cbn [number_stop] in Hr. apply negb_true_iff in Hr.
      destruct (N.eqb_spec c 45) as [->|]; [discriminate|reflexivity]. }
    cbn [Loads.match_integer]. rewrite Hd.
    destruct (N.eqb_spec c 48) as [->|]; [discriminate|reflexivity].
  - cbn [app]. destruct (c =? 45)%N.
    + apply Hbody.
    + apply (Hbody false (c :: s)).
Qed.

Lemma match_number_split (s : str) (n : Loads.number) (r : str) :
  Loads.match_number s = Some (n, r) -> Loads.number_text n ++ r = s.
Proof.
  unfold Loads.match_number, Loads.number_text.
  assert (forall neg s1,
             match Loads.match_integer s1 with
             | Some (i, s2) =>
                 let (fr, s3) := Loads.match_frac s2 in
                 let (ex, s4) := Loads.match_exp s3 in
                 Some ({| Loads.num_neg := neg; Loads.num_int := i;
                          Loads.num_frac := fr; Loads.num_exp := ex |}, s4)
             | None => None
             end = Some (n, r) ->
             Loads.num_neg n = neg
             /\ Loads.num_int n ++ Loads.num_frac n ++ Loads.num_exp n ++ r = s1) as Hbody.
  { intros neg s1. destruct (Loads.match_integer s1) as [[i s2]|] eqn:Hi; [|discriminate].
    pose proof (match_frac_split s2) as Hf. pose proof (match_integer_split _ Hi) as Hs.
    destruct (Loads.match_frac s2) as [fr s3]. pose proof (match_exp_split s3) as He.
    destruct (Loads.match_exp s3) as [ex s4]. intros [= <- <-]. cbn in *.
    split; [reflexivity|]. now rewrite He, Hf. }
  destruct s as [|c s].
  - intros H. apply Hbody in H as [-> H]. cbn. now rewrite <- !app_assoc.
  - destruct (N.eqb_spec c 45) as [->|Hc]; intros H; apply Hbody in H as [-> H].
    + cbn. rewrite <- !app_assoc. now rewrite H.
    + cbn. now rewrite <- !app_assoc.
Qed.

Lemma to_uint_of_uint (u : Decimal.uint) : Dec.to_uint (Dec.of_uint u) = u.
Proof. induction u; cbn; now rewrite ?IHu. Qed.

Lemma span_digits_of_uint (u : Decimal.uint) :
  Loads.span_digits (Dec.of_uint u) = (Dec.of_uint u, []).
Proof. induction u; cbn; now rewrite ?IHu. Qed.

Lemma of_uint_nonnil (u : Decimal.uint) : u <> Decimal.Nil -> Dec.of_uint u <> [].
Proof. destruct u; cbn; congruence. Qed.

(** The decimal digits of a positive number do not begin with a zero. *)
Lemma pos_to_uint_head (p : positive) :
  match Pos.to_uint p with
  | Decimal.Nil | Decimal.D0 _ => False
  | _ => True
  end.
Proof.
  pose proof (DecimalPos.Unsigned.to_of (Pos.to_uint p)) as H.
  pose proof (DecimalPos.Unsigned.of_to p) as Hof.
  rewrite Hof in H. cbn [N.to_uint] in H.
  unfold Decimal.unorm in H.
  destruct (Decimal.nzhead (Pos.to_uint p)) eqn:Hnz;
    try (rewrite H; exact I).
  - rewrite H in Hof. discriminate.
  - exfalso. exact (DecimalFacts.nzhead_nonzero _ _ Hnz).
Qed.

Lemma match_integer_of_uint (u : Decimal.uint) :
  match u with Decimal.Nil | Decimal.D0 _ => False | _ => True end ->
  Loads.match_integer (Dec.of_uint u) = Some (Dec.of_uint u, []).
Proof.
  destruct u; try contradiction; intros _; cbn [Dec.of_uint Loads.match_integer];
    rewrite span_digits_of_uint; reflexivity.
Qed.

Section NumberValues.

Variable F : Type.
Variable float_of_literal : str -> pyfloat F.

(** An integer written by [int.__repr__] is matched whole and read back as
    the same integer. *)
Lemma match_number_repr (z : Z) :
  exists n, Loads.match_number (Dec.repr z) = Some (n, [])
            /\ Loads.number_value float_of_literal n = JInt z.
Proof.
  destruct z as [|p|p].
  - eexists. split; reflexivity.
  - pose proof (pos_to_uint_head p) as Hh.
    eexists. split.
    + unfold Dec.repr. cbn [Z.to_int].
      unfold Loads.match_number.
      assert (match Dec.of_uint (Pos.to_uint p) with
              | c :: r => if (c =? 45)%N then (true, r) else (false, Dec.of_uint (Pos.to_uint p))
              | [] => (false, Dec.of_uint (Pos.to_uint p))
              end = (false, Dec.of_uint (Pos.to_uint p))) as ->
        by (destruct (Pos.to_uint p); reflexivity).
      rewrite (match_integer_of_uint _ Hh). reflexivity.
    + unfold Loads.number_value, Dec.int. cbn [Loads.num_frac Loads.num_exp Loads.num_neg Loads.num_int].
      rewrite to_uint_of_uint. f_equal. exact (DecimalZ.of_to (Z.pos p)).
  - pose proof (pos_to_uint_head p) as Hh.
    eexists. split.
    + unfold Dec.repr. cbn [Z.to_int].
      unfold Loads.match_number. cbn [N.eqb Pos.eqb].
      rewrite (match_integer_of_uint _ Hh). reflexivity.
    + unfold Loads.number_value, Dec.int. cbn [Loads.num_frac Loads.num_exp Loads.num_neg Loads.num_int].
      rewrite to_uint_of_uint. f_equal. exact (DecimalZ.of_to (Z.neg p)).
Qed.

Lemma repr_nonempty (z : Z) : Dec.repr z <> [].
Proof.
  destruct z as [|p|p]; cbn; try discriminate.
  pose proof (pos_to_uint_head p) as H. unfold Dec.repr. cbn [Z.to_int].
  destruct (Pos.to_uint p); try contradiction; discriminate.
Qed.

End NumberValues.

(** ** Strings: what [encode_basestring] writes, [scanstring] reads back *)

Lemma lt_32_cases (c : N) :
  (c <? 32)%N = true ->
  In c (map N.of_nat (seq 0 32)).
Proof.
  intros H. apply N.ltb_lt in H.
  rewrite <- (N2Nat.id c).
  assert (N.to_nat c < 32)%nat as Hn by lia.
  apply in_map, in_seq. lia.
Qed.

Lemma scanstring_plain (c : char) (r : str) :
  (c =? QUOTE)%N = false -> (c =? BACKSLASH)%N = false -> (c <? 32)%N = false ->
  Loads.scanstring (c :: r) = Loads.push c (Loads.scanstring r).
Proof.
  intros H1 H2 H3. cbn [Loads.scanstring]. now rewrite H1, H2, H3.
Qed.

Lemma scanstring_escape_char (c : char) (r : str) :
  Loads.scanstring (Dumps.escape_char c ++ r) = Loads.push c (Loads.scanstring r).
Proof.
  destruct (c <? 32)%N eqn:Hlt.
  - apply lt_32_cases in Hlt. cbn [map seq N.of_nat Pos.of_succ_nat Pos.succ] in Hlt.
    repeat (destruct Hlt as [<-|Hlt]; [reflexivity|]). contradiction.
  - destruct (N.eqb_spec c 34) as [->|H34]; [reflexivity|].
    destruct (N.eqb_spec c 92) as [->|H92]; [reflexivity|].
    assert (Dumps.escape_char c = [c]) as ->.
    { unfold Dumps.escape_char. rewrite Hlt.
      apply N.eqb_neq in H34, H92. rewrite H34, H92.
      apply N.ltb_ge in Hlt.
      destruct (N.eqb_spec c 10); [lia|]. destruct (N.eqb_spec c 13); [lia|].
      destruct (N.eqb_spec c 9); [lia|]. destruct (N.eqb_spec c 8); [lia|].
      destruct (N.eqb_spec c 12); [lia|]. reflexivity. }
    apply scanstring_plain; [now apply N.eqb_neq|now apply N.eqb_neq|exact Hlt].
Qed.

Lemma scanstring_escaped (s rest : str) :
  Loads.scanstring (flat_map Dumps.escape_char s ++ QUOTE :: rest) = Some (s, rest).
Proof.
  induction s as [|c s IH]; [reflexivity|].
  cbn [flat_map]. rewrite <- app_assoc, scanstring_escape_char, IH. reflexivity.
Qed.

Lemma scan_basestring (s rest : str) :
  exists r, Dumps.encode_basestring s ++ rest = QUOTE :: r
            /\ Loads.scanstring r = Some (s, rest).
Proof.
  exists (flat_map Dumps.escape_char s ++ QUOTE :: rest). split.
  - unfold Dumps.encode_basestring. cbn. now rewrite <- app_assoc.
  - apply scanstring_escaped.
Qed.

(** ** Values: what [json.dumps] writes, [json.loads] reads back *)

Section JsonInduction.

Variable F : Type.
Variable P : json F -> Prop.
Hypothesis HNull : P JNull.
Hypothesis HBool : forall b, P (JBool b).
Hypothesis HInt : forall z, P (JInt z).
Hypothesis HFloat : forall f, P (JFloat f).
Hypothesis HStr : forall s, P (JStr s).
Hypothesis HList : forall l, Forall P l -> P (JList l).
Hypothesis HDict : forall d, Forall (fun kv => P (snd kv)) d -> P (JDict d).

Fixpoint json_induction (v : json F) : P v :=
  match v with
  | JNull => HNull
  | JBool b => HBool b
  | JInt z => HInt z
  | JFloat f => HFloat f
  | JStr s => HStr s
  | JList l =>
      HList ((fix all (l : list (json F)) : Forall P l :=
                match l with
                | [] => Forall_nil P
                | x :: r => Forall_cons x (json_induction x) (all r)
                end) l)
  | JDict d =>
      HDict ((fix all (d : list (str * json F)) : Forall (fun kv => P (snd kv)) d :=
                match d with
                | [] => Forall_nil _
                | kv :: r => Forall_cons kv (json_induction (snd kv)) (all r)
                end) d)
  end.

End JsonInduction.

(** The values a [dict] can hold: the keys of every dict are pairwise
    distinct. *)
Fixpoint wf (F : Type) (v : json F) : Prop :=
  match v with
  | JList l =>
      (fix all (l : list (json F)) : Prop :=
         match l with
         | [] => True
         | x :: r => wf x /\ all r
         end) l
  | JDict d =>
      NoDup (map fst d)
      /\ (fix all (d : list (str * json F)) : Prop :=
            match d with
            | [] => True
            | kv :: r => wf (snd kv) /\ all r
            end) d
  | _ => True
  end.

Lemma wf_list (F : Type) (l : list (json F)) : wf (JList l) <-> Forall (@wf F) l.
Proof.
  cbn [wf]. induction l as [|x l IH]; [split; constructor|].
  split.
  - intros [Hx Hl]. constructor; [exact Hx|now apply IH].
  - intros H. inversion H; subst. split; [assumption|now apply IH].
Qed.

Lemma wf_dict (F : Type) (d : list (str * json F)) :
  wf (JDict d) <-> NoDup (map fst d) /\ Forall (fun kv => wf (snd kv)) d.
Proof.
  cbn [wf]. apply and_iff_compat_l.
  induction d as [|kv d IH]; [split; constructor|].
  split.
  - intros [Hx Hl]. constructor; [exact Hx|now apply IH].
  - intros H. inversion H; subst. split; [assumption|now apply IH].
Qed.

(** The fuel [scan_once] needs to read a value back. *)
Fixpoint size (F : Type) (v : json F) : nat :=
  match v with
  | JList l =>
      S ((fix sum (l : list (json F)) : nat :=
            match l with
            | [] => 0
            | x :: r => S (size x + sum r)
            end) l)
  | JDict d =>
      S ((fix sum (d : list (str * json F)) : nat :=
            match d with
            | [] => 0
            | kv :: r => S (size (snd kv) + sum r)
            end) d)
  | _ => 1
  end.

Definition size_items (F : Type) (l : list (json F)) : nat :=
  fold_right (fun x acc => S (size x + acc)) 0%nat l.

Definition size_pairs (F : Type) (d : list (str * json F)) : nat :=
  fold_right (fun kv acc => S (size (snd kv) + acc)) 0%nat d.

Lemma size_list (F : Type) (l : list (json F)) : size (JList l) = S (size_items l).
Proof.
  reflexivity.
Qed.

Lemma size_dict (F : Type) (d : list (str * json F)) : size (JDict d) = S (size_pairs d).
Proof.
  reflexivity.
Qed.

Lemma size_pairs_cons (F : Type) (kv : str * json F) (d : list (str * json F)) :
  size_pairs (kv :: d) = S (size (snd kv) + size_pairs d).
Proof. reflexivity. Qed.

Lemma size_items_cons (F : Type) (x : json F) (l : list (json F)) :
  size_items (x :: l) = S (size x + size_items l).
Proof. reflexivity. Qed.

Lemma size_pos (F : Type) (v : json F) : (1 <= size v)%nat.
Proof. destruct v; cbn [size]; lia. Qed.

(** [dict(pairs)] of pairs with distinct keys is the pairs themselves. *)
Lemma str_eqb_eq (a b : str) : Str.eqb a b = true <-> a = b.
Proof.
  revert b. induction a as [|x a IH]; intros [|y b]; cbn; try (split; congruence).
  rewrite andb_true_iff, N.eqb_eq, IH. split; [intros [-> ->]; reflexivity|].
  intros [= -> ->]. split; reflexivity.
Qed.

Lemma dict_set_fresh (A : Type) (d : list (str * A)) (k : str) (v : A) :
  ~ In k (map fst d) -> dict_set d k v = d ++ [(k, v)].
Proof.
  induction d as [|[k' v'] d IH]; intros Hk; [reflexivity|].
  cbn [dict_set app]. cbn [map fst In] in Hk.
  destruct (Str.eqb k' k) eqn:E.
  - apply str_eqb_eq in E. tauto.
  - rewrite IH; [reflexivity|tauto].
Qed.

Lemma dict_of_pairs_distinct (A : Type) (pairs : list (str * A)) :
  NoDup (map fst pairs) -> dict_of_pairs pairs = pairs.
Proof.
  unfold dict_of_pairs.
  assert (forall acc : list (str * A),
             NoDup (map fst (acc ++ pairs)) ->
             fold_left (fun d kv => dict_set d (fst kv) (snd kv)) pairs acc = acc ++ pairs) as H.
  { induction pairs as [|[k v] pairs IH]; intros acc Hnd; [now rewrite app_nil_r|].
    cbn [fold_left fst snd]. rewrite dict_set_fresh.
    - rewrite IH; rewrite <- app_assoc; [reflexivity|exact Hnd].
    - rewrite map_app in Hnd. apply NoDup_remove_2 in Hnd.
      intros Hin. apply Hnd. apply in_or_app. now left. }
  intros Hnd. exact (H [] Hnd).
Qed.

(** A text is a number with a fraction or an exponent, and nothing else. *)
Definition is_float_literal (s : str) : bool :=
  match Loads.match_number s with
  | Some (n, []) =>
      match Loads.num_frac n, Loads.num_exp n with
      | [], [] => false
      | _, _ => true
      end
  | _ => false
  end.

(** What follows a value inside the text [json.dumps] writes. *)
Definition delim_start (rest : str) : bool :=
  match rest with
  | [] => true
  | c :: _ => ((c =? 44) || (c =? 10) || (c =? 93) || (c =? 125))%N
  end.

(** The first character of a number. *)
Definition number_start (c : char) : bool := ((c =? 45) || Dec.is_digit c)%N.

Lemma delim_number_stop (rest : str) : delim_start rest = true -> number_stop rest = true.
Proof.
  destruct rest as [|c rest]; [reflexivity|]. cbn [delim_start number_stop].
  intros H. repeat (apply orb_true_iff in H; destruct H as [H|H]);
    apply N.eqb_eq in H; subst; reflexivity.
Qed.

Lemma digit_cases (c : char) :
  Dec.is_digit c = true -> In c [48; 49; 50; 51; 52; 53; 54; 55; 56; 57]%N.
Proof.
  unfold Dec.is_digit. intros H. apply andb_true_iff in H as [H1 H2].
  apply N.leb_le in H1, H2.
  replace c with (48 + N.of_nat (N.to_nat (c - 48)))%N by lia.
  assert (N.to_nat (c - 48) < 10)%nat as Hn by lia.
  revert Hn. generalize (N.to_nat (c - 48)). intros n Hn.
  do 10 (destruct n as [|n]; [cbn; tauto|]). lia.
Qed.

Lemma number_start_cases (c : char) :
  number_start c = true -> In c [45; 48; 49; 50; 51; 52; 53; 54; 55; 56; 57]%N.
Proof.
  unfold number_start. intros H. apply orb_true_iff in H as [H|H].
  - apply N.eqb_eq in H. now left.
  - right. now apply digit_cases.
Qed.

Lemma match_number_start (s : str) (n : Loads.number) (r : str) :
  Loads.match_number s = Some (n, r) ->
  exists c s', s = c :: s' /\ number_start c = true.
Proof.
  destruct s as [|c s]; [discriminate|]. intros H. exists c, s. split; [reflexivity|].
  unfold number_start. destruct (N.eqb_spec c 45) as [->|Hc]; [reflexivity|].
  unfold Loads.match_number in H. apply N.eqb_neq in Hc. rewrite Hc in H.
  cbn [Loads.match_integer] in H.
  destruct (N.eqb_spec c 48) as [->|]; [reflexivity|].
  destruct (Dec.is_digit c); [reflexivity|discriminate].
Qed.

Lemma repr_start (z : Z) : exists c s, Dec.repr z = c :: s /\ number_start c = true.
Proof.
  destruct (match_number_repr (fun _ => @NaN unit) z) as (n & Hn & _).
  exact (match_number_start _ Hn).
Qed.

Section RoundTrip.

Variable F : Type.
Variable float_of_literal : str -> pyfloat F.
Variable float_repr : F -> str.
Variable indent : option nat.

(** [float.__repr__] writes a number with a fraction or an exponent, and
    [float] reads it back as the same float. *)
Hypothesis repr_literal : forall x, is_float_literal (float_repr x) = true.
Hypothesis repr_float : forall x, float_of_literal (float_repr x) = Finite x.

Local Abbreviation scan_once := (Loads.scan_once float_of_literal).
Local Abbreviation array_items := (Loads.array_items float_of_literal).
Local Abbreviation object_items := (Loads.object_items float_of_literal).
Local Abbreviation enc := (Dumps.iterencode float_repr indent).

Lemma scan_once_number (f : nat) (c : char) (r : str) (n : Loads.number) (rest : str) :
  number_start c = true ->
  Loads.match_number (c :: r) = Some (n, rest) ->
  scan_once (S f) (c :: r) = Loads.Ok (Loads.number_value float_of_literal n, rest).
Proof.
  intros Hc Hm. apply number_start_cases in Hc.
  cbn [In] in Hc.
  repeat (destruct Hc as [<-|Hc];
          [cbn -[Loads.match_number Loads.number_value]; rewrite Hm; reflexivity|]).
  contradiction.
Qed.

Lemma scan_once_repr (f : nat) (z : Z) (rest : str) :
  delim_start rest = true ->
  scan_once (S f) (Dec.repr z ++ rest) = Loads.Ok (JInt z, rest).
Proof.
  intros Hr. destruct (match_number_repr float_of_literal z) as (n & Hn & Hv).
  destruct (repr_start z) as (c & s & Hs & Hc).
  pose proof (match_number_app (Dec.repr z) rest (delim_number_stop _ Hr)) as Ha.
  rewrite Hn in Ha. rewrite Hs in *. cbn [app] in *.
  rewrite (@scan_once_number f c (s ++ rest) n rest Hc Ha). now rewrite Hv.
Qed.

Lemma scan_once_float_repr (f : nat) (x : F) (rest : str) :
  delim_start rest = true ->
  scan_once (S f) (float_repr x ++ rest) = Loads.Ok (JFloat (Finite x), rest).
Proof.
  intros Hr. pose proof (repr_literal x) as Hl. unfold is_float_literal in Hl.
  destruct (Loads.match_number (float_repr x)) as [[n [|c' r']]|] eqn:Hn; try discriminate.
  pose proof (match_number_split _ Hn) as Ht. rewrite app_nil_r in Ht.
  destruct (match_number_start _ Hn) as (c & s & Hs & Hc).
  pose proof (match_number_app (float_repr x) rest (delim_number_stop _ Hr)) as Ha.
  rewrite Hn in Ha. rewrite Hs in Ha. cbn [app] in Ha.
  rewrite Hs. cbn [app]. rewrite (@scan_once_number f c (s ++ rest) n rest Hc Ha).
  unfold Loads.number_value.
  rewrite Ht, repr_float.
  destruct (Loads.num_frac n), (Loads.num_exp n); try reflexivity; discriminate.
Qed.

Lemma scan_once_floatstr (f : nat) (x : pyfloat F) (rest : str) :
  delim_start rest = true ->
  scan_once (S f) (Dumps.floatstr float_repr x ++ rest) = Loads.Ok (JFloat x, rest).
Proof.
  intros Hr. destruct x; try reflexivity. now apply scan_once_float_repr.
Qed.

Lemma scan_once_string (f : nat) (s rest : str) :
  scan_once (S f) (Dumps.encode_basestring s ++ rest) = Loads.Ok (JStr s, rest).
Proof.
  destruct (scan_basestring s rest) as (r & -> & Hr).
  cbn [Loads.scan_once]. change (QUOTE =? QUOTE)%N with true. cbv iota. now rewrite Hr.
Qed.

(** Unfolding the scanner by one step. *)
Lemma scan_once_array_eq (f : nat) (r : str) :
  scan_once (S f) (91%N :: r)
  = match Loads.skip_ws r with
    | c1 :: r1 =>
        if (c1 =? 93)%N then Loads.Ok (JList [], r1)
        else
          match array_items f (c1 :: r1) with
          | Loads.Ok (vs, rest) => Loads.Ok (JList vs, rest)
          | Loads.Fail => Loads.Fail
          | Loads.OutOfFuel => Loads.OutOfFuel
          end
    | [] => Loads.Fail
    end.
Proof. reflexivity. Qed.

Lemma array_items_eq (f : nat) (s : str) :
  array_items (S f) s
  = match scan_once f s with
    | Loads.Ok (v, r) =>
        match Loads.skip_ws r with
        | c :: r1 =>
            if (c =? 93)%N then Loads.Ok ([v], r1)
            else if (c =? 44)%N then
              match array_items f (Loads.skip_ws r1) with
              | Loads.Ok (vs, rest) => Loads.Ok (v :: vs, rest)
              | Loads.Fail => Loads.Fail
              | Loads.OutOfFuel => Loads.OutOfFuel
              end
            else Loads.Fail
        | [] => Loads.Fail
        end
    | Loads.Fail => Loads.Fail
    | Loads.OutOfFuel => Loads.OutOfFuel
    end.
Proof. reflexivity. Qed.

Lemma object_items_eq (f : nat) (s : str) :
  object_items (S f) s
  = match Loads.scanstring s with
    | None => Loads.Fail
    | Some (key, r) =>
        match Loads.skip_ws r with
        | c :: r1 =>
            if (c =? 58)%N then
              match scan_once f (Loads.skip_ws r1) with
              | Loads.Ok (v, r2) =>
                  match Loads.skip_ws r2 with
                  | c2 :: r3 =>
                      if (c2 =? 125)%N then Loads.Ok ([(key, v)], r3)
                      else if (c2 =? 44)%N then
                        match Loads.skip_ws r3 with
                        | c3 :: r4 =>
                            if (c3 =? QUOTE)%N then
                              match object_items f r4 with
                              | Loads.Ok (pairs, rest) => Loads.Ok ((key, v) :: pairs, rest)
                              | Loads.Fail => Loads.Fail
                              | Loads.OutOfFuel => Loads.OutOfFuel
                              end
                            else Loads.Fail
                        | [] => Loads.Fail
                        end
                      else Loads.Fail
                  | [] => Loads.Fail
                  end
              | Loads.Fail => Loads.Fail
              | Loads.OutOfFuel => Loads.OutOfFuel
              end
            else Loads.Fail
        | [] => Loads.Fail
        end
    end.
Proof. reflexivity. Qed.

Lemma is_ws_not_quote (c : char) : Loads.is_ws c = true -> (c =? QUOTE)%N = false.
Proof.
  unfold Loads.is_ws. intros H.
  repeat (apply orb_true_iff in H; destruct H as [H|H]);
    apply N.eqb_eq in H; subst; reflexivity.
Qed.

Lemma skip_ws_app (a s : str) :
  forallb Loads.is_ws a = true -> Loads.skip_ws (a ++ s) = Loads.skip_ws s.
Proof.
  induction a as [|c a IH]; [reflexivity|]. cbn [forallb app Loads.skip_ws].
  intros H. apply andb_true_iff in H as [-> H]. now apply IH.
Qed.

Lemma skip_ws_stop (c : char) (s : str) :
  Loads.is_ws c = false -> Loads.skip_ws (c :: s) = c :: s.
Proof. intros H. cbn [Loads.skip_ws]. now rewrite H. Qed.

(** An object whose first key follows the brace after white space only. *)
Lemma scan_once_object (f : nat) (a body : str) :
  forallb Loads.is_ws a = true ->
  scan_once (S f) (123%N :: a ++ QUOTE :: body)
  = match object_items f body with
    | Loads.Ok (pairs, rest) => Loads.Ok (JDict (dict_of_pairs pairs), rest)
    | Loads.Fail => Loads.Fail
    | Loads.OutOfFuel => Loads.OutOfFuel
    end.
Proof.
  intros Ha. destruct a as [|c a]; [reflexivity|].
  cbn [forallb] in Ha. apply andb_true_iff in Ha as [Hc Ha].
  cbn [Loads.scan_once app]. change (123 =? QUOTE)%N with false.
  change (123 =? 123)%N with true. cbv iota.
  rewrite (is_ws_not_quote _ Hc).
  cbn [Loads.skip_ws]. rewrite Hc, (skip_ws_app _ _ Ha).
  rewrite skip_ws_stop by reflexivity.
  change (QUOTE =? 125)%N with false. change (QUOTE =? QUOTE)%N with true.
  reflexivity.
Qed.

(** The white space [json.dumps] writes. *)
Lemma newline_indent_ws (level : nat) :
  forallb Loads.is_ws (Dumps.newline_indent indent level) = true.
Proof.
  unfold Dumps.newline_indent. destruct indent as [n|]; [|reflexivity].
  cbn [forallb]. change (Loads.is_ws LF) with true. cbn [andb].
  induction (n * level)%nat as [|m IH]; [reflexivity|]. cbn. exact IH.
Qed.

Lemma separator_shape (level : nat) :
  exists a,
    Dumps.item_separator indent ++ Dumps.newline_indent indent level = 44%N :: a
    /\ forallb Loads.is_ws a = true.
Proof.
  pose proof (newline_indent_ws level) as H.
  unfold Dumps.item_separator, Dumps.newline_indent in *. destruct indent as [n|].
  - eexists. split; [reflexivity|exact H].
  - eexists. split; reflexivity.
Qed.

Lemma newline_indent_delim (level : nat) (c : char) (rest : str) :
  (c =? 93)%N || (c =? 125)%N = true ->
  delim_start (Dumps.newline_indent indent level ++ c :: rest) = true.
Proof.
  intros Hc. unfold Dumps.newline_indent. destruct indent as [n|]; [reflexivity|].
  cbn [app delim_start]. destruct (c =? 44)%N, (c =? 10)%N; try reflexivity.
  exact Hc.
Qed.

(** The first character of a value. *)
Definition value_start (c : char) : bool :=
  (number_start c || (c =? 34) || (c =? 91) || (c =? 123) || (c =? 110)
   || (c =? 116) || (c =? 102) || (c =? 78) || (c =? 73))%N.

Lemma value_start_cases (c : char) :
  value_start c = true ->
  In c [45; 48; 49; 50; 51; 52; 53; 54; 55; 56; 57; 34; 91; 123; 110; 116; 102; 78; 73]%N.
Proof.
  unfold value_start. intros H.
  repeat (apply orb_true_iff in H; destruct H as [H|H]);
    try (apply N.eqb_eq in H; subst; cbn; tauto).
  apply digit_cases in H. cbn [In] in *. intuition.
Qed.

Lemma value_start_facts (c : char) :
  value_start c = true ->
  Loads.is_ws c = false /\ (c =? 93)%N = false /\ (c =? 125)%N = false
  /\ (65279 =? c)%N = false.
Proof.
  intros H. apply value_start_cases in H. cbn [In] in H.
  repeat (destruct H as [<-|H]; [repeat split|]). contradiction.
Qed.

Lemma enc_start (level : nat) (v : json F) :
  exists c r, enc level v = c :: r /\ value_start c = true.
Proof.
  destruct v as [|[|]|z|[| | |x]|s|[|y l]|[|kv d]];
    try (eexists _, _; split; reflexivity).
  - destruct (repr_start z) as (c & r & Hr & Hc). exists c, r. split; [exact Hr|].
    unfold value_start. now rewrite Hc.
  - pose proof (repr_literal x) as Hl. unfold is_float_literal in Hl.
    destruct (Loads.match_number (float_repr x)) as [[n r']|] eqn:Hn; [|discriminate].
    destruct (match_number_start _ Hn) as (c & r & Hr & Hc). exists c, r.
    split; [exact Hr|]. unfold value_start. now rewrite Hc.
Qed.

Lemma skip_ws_enc (a : str) (level : nat) (v : json F) (rest : str) :
  forallb Loads.is_ws a = true ->
  Loads.skip_ws (a ++ enc level v ++ rest) = enc level v ++ rest.
Proof.
  intros Ha. rewrite (skip_ws_app _ _ Ha).
  destruct (enc_start level v) as (c & r & -> & Hc).
  apply value_start_facts in Hc as (Hw & _). cbn [app]. now apply skip_ws_stop.
Qed.

Lemma join_cons2 (sep x y : str) (l : list str) :
  join sep (x :: y :: l) = x ++ sep ++ join sep (y :: l).
Proof. reflexivity. Qed.

(** What the round trip of one value says. *)
Definition reads_back (v : json F) : Prop :=
  forall (level fuel : nat) (rest : str),
    delim_start rest = true -> (size v <= fuel)%nat ->
    scan_once fuel (enc level v ++ rest) = Loads.Ok (v, rest).

Lemma array_items_reads_back (level : nat) (rest : str) (l : list (json F)) :
  l <> [] -> Forall reads_back l ->
  forall f, (size_items l <= f)%nat ->
    array_items f
      (join (Dumps.item_separator indent ++ Dumps.newline_indent indent (S level))
         (map (enc (S level)) l)
       ++ Dumps.newline_indent indent level ++ 93%N :: rest)
    = Loads.Ok (l, rest).
Proof.
  destruct (separator_shape (S level)) as (a & -> & Ha).
  induction l as [|x l IH]; [congruence|]. intros _ Hall f Hf.
  inversion Hall as [|? ? Hx Hl]; subst.
  cbn [size_items fold_right] in Hf. fold (size_items l) in Hf.
  destruct f as [|f]; [lia|]. rewrite array_items_eq.
  destruct l as [|y l].
  - cbn [map join].
    pose proof (Hx (S level) f _ (newline_indent_delim level 93%N rest eq_refl)) as Hx'. rewrite Hx' by lia.
    rewrite (skip_ws_app _ _ (newline_indent_ws level)).
    rewrite skip_ws_stop by reflexivity. reflexivity.
  - change (map (enc (S level)) (x :: y :: l))
      with (enc (S level) x :: map (enc (S level)) (y :: l)).
    cbn [map]. rewrite join_cons2.
    rewrite <- !app_assoc. cbn [app].
    unfold reads_back in Hx. rewrite (Hx (S level) f) by (reflexivity || lia).
    rewrite skip_ws_stop by reflexivity.
    change (44 =? 93)%N with false. change (44 =? 44)%N with true. cbv iota.
    assert (Loads.skip_ws
              (a ++ join (44%N :: a) (enc (S level) y :: map (enc (S level)) l)
                 ++ Dumps.newline_indent indent level ++ 93%N :: rest)
            = join (44%N :: a) (enc (S level) y :: map (enc (S level)) l)
                ++ Dumps.newline_indent indent level ++ 93%N :: rest) as ->.
    { destruct l as [|y' l].
      - cbn [map join]. now apply skip_ws_enc.
      - cbn [map]. rewrite join_cons2, <- !app_assoc. now apply skip_ws_enc. }
    specialize (IH ltac:(discriminate) Hl f).
    cbn [map] in IH. rewrite IH; [reflexivity|].
    cbn [size_items fold_right] in *. lia.
Qed.

Lemma skip_space_enc (level : nat) (v : json F) (rest : str) :
  Loads.skip_ws (32%N :: enc level v ++ rest) = enc level v ++ rest.
Proof. exact (skip_ws_enc [32%N] level v rest eq_refl). Qed.

(** One [key: value] item of an object. *)
Definition item_text (level : nat) (kv : str * json F) : str :=
  let (k, v) := kv in
  Dumps.encode_basestring k ++ Dumps.key_separator ++ enc (S level) v.

Lemma object_items_reads_back (level : nat) (rest : str) (d : list (str * json F)) :
  d <> [] -> Forall (fun kv => reads_back (snd kv)) d ->
  exists body,
    join (Dumps.item_separator indent ++ Dumps.newline_indent indent (S level))
      (map (item_text level) d)
    ++ Dumps.newline_indent indent level ++ 125%N :: rest
    = QUOTE :: body
    /\ forall f, (size_pairs d <= f)%nat -> object_items f body = Loads.Ok (d, rest).
Proof.
  destruct (separator_shape (S level)) as (a & -> & Ha).
  induction d as [|[k v] d IH]; [congruence|]. intros _ Hall.
  inversion Hall as [|? ? Hv Hd]; subst. cbn [snd] in Hv. unfold reads_back in Hv.
  destruct d as [|kv d].
  - eexists. split.
    + cbn [map join item_text]. unfold Dumps.encode_basestring.
      change Dumps.key_separator with [58%N; 32%N].
      cbn [app]. rewrite <- !app_assoc. cbn [app]. reflexivity.
    + intros f Hf. cbn [size_pairs fold_right snd] in Hf.
      destruct f as [|f]; [lia|]. rewrite object_items_eq.
      cbn [app]. rewrite scanstring_escaped.
      rewrite skip_ws_stop by reflexivity. change (58 =? 58)%N with true. cbv iota.
      rewrite skip_space_enc.
      rewrite (Hv (S level) f _ (newline_indent_delim level 125%N rest eq_refl)) by lia.
      rewrite (skip_ws_app _ _ (newline_indent_ws level)).
      rewrite skip_ws_stop by reflexivity. reflexivity.
  - destruct (IH ltac:(discriminate) Hd) as (body & Hbody & Hread).
    eexists. split.
    + cbn [map] in Hbody |- *. rewrite join_cons2.
      unfold item_text at 1. unfold Dumps.encode_basestring.
      change Dumps.key_separator with [58%N; 32%N].
      cbn [app]. rewrite <- !app_assoc. cbn [app]. rewrite <- !app_assoc.
      rewrite Hbody. reflexivity.
    + intros f Hf. rewrite (size_pairs_cons (k, v)) in Hf. cbn [snd] in Hf.
      destruct f as [|f]; [lia|]. rewrite object_items_eq.
      rewrite scanstring_escaped.
      rewrite skip_ws_stop by reflexivity. change (58 =? 58)%N with true. cbv iota.
      rewrite skip_space_enc.
      rewrite (Hv (S level) f) by (reflexivity || lia).
      rewrite skip_ws_stop by reflexivity.
      change (44 =? 125)%N with false. change (44 =? 44)%N with true. cbv iota.
      rewrite (skip_ws_app _ _ Ha), skip_ws_stop by reflexivity.
      change (QUOTE =? QUOTE)%N with true. cbv iota.
      rewrite Hread by lia. reflexivity.
Qed.

Lemma enc_list_eq (level : nat) (x : json F) (l : list (json F)) :
  enc level (JList (x :: l))
  = 91%N :: Dumps.newline_indent indent (S level)
    ++ join (Dumps.item_separator indent ++ Dumps.newline_indent indent (S level))
         (map (enc (S level)) (x :: l))
    ++ Dumps.newline_indent indent level ++ [93%N].
Proof. reflexivity. Qed.

Lemma enc_dict_eq (level : nat) (kv : str * json F) (d : list (str * json F)) :
  enc level (JDict (kv :: d))
  = 123%N :: Dumps.newline_indent indent (S level)
    ++ join (Dumps.item_separator indent ++ Dumps.newline_indent indent (S level))
         (map (item_text level) (kv :: d))
    ++ Dumps.newline_indent indent level ++ [125%N].
Proof. reflexivity. Qed.

Lemma items_start (level : nat) (sep tail : str) (x : json F) (l : list (json F)) :
  exists c r, join sep (map (enc level) (x :: l)) ++ tail = c :: r /\ value_start c = true.
Proof.
  destruct (enc_start level x) as (c & r & Hx & Hc).
  destruct l as [|y l].
  - cbn [map join]. rewrite Hx. now eexists _, _.
  - cbn [map]. rewrite join_cons2, Hx. now eexists _, _.
Qed.

(** Every value with distinct keys is read back from the text written for
    it, whatever follows it in a written text. *)
Lemma reads_back_all (v : json F) : wf v -> reads_back v.
Proof.
  induction v as [| b | z | x | s | l IH | d IH] using json_induction;
    intros Hwf level fuel rest Hr Hf; (destruct fuel as [|f];
     [exfalso; revert Hf; first [rewrite size_list | rewrite size_dict | cbn [size]]; lia|]).
  - reflexivity.
  - destruct b; reflexivity.
  - now apply scan_once_repr.
  - now apply scan_once_floatstr.
  - apply scan_once_string.
  - apply wf_list in Hwf.
    assert (Forall reads_back l) as Hall.
    { clear Hf. induction l as [|x l IHl]; constructor; inversion IH; inversion Hwf; subst; auto. }
    destruct l as [|x l]; [reflexivity|].
    rewrite size_list in Hf.
    rewrite enc_list_eq. cbn [app]. rewrite <- !app_assoc. cbn [app].
    rewrite scan_once_array_eq, (skip_ws_app _ _ (newline_indent_ws (S level))).
    destruct (items_start (S level)
                (Dumps.item_separator indent ++ Dumps.newline_indent indent (S level))
                (Dumps.newline_indent indent level ++ 93%N :: rest) x l)
      as (c & r & Hcr & Hc).
    pose proof (@array_items_reads_back level rest (x :: l) ltac:(discriminate) Hall f
                  ltac:(lia)) as Harr.
    rewrite Hcr in *. apply value_start_facts in Hc as (Hw & H93 & _).
    rewrite (skip_ws_stop _ _ Hw), H93, Harr. reflexivity.
  - apply wf_dict in Hwf as [Hnd Hwf].
    assert (Forall (fun kv => reads_back (snd kv)) d) as Hall.
    { clear Hf Hnd. induction d as [|x d IHd]; constructor; inversion IH; inversion Hwf; subst; auto. }
    destruct d as [|kv d]; [reflexivity|].
    rewrite size_dict in Hf.
    rewrite enc_dict_eq. cbn [app]. rewrite <- !app_assoc. cbn [app].
    destruct (@object_items_reads_back level rest (kv :: d) ltac:(discriminate) Hall)
      as (body & -> & Hread).
    rewrite (scan_once_object _ _ _ (newline_indent_ws (S level))).
    rewrite Hread by lia. now rewrite (dict_of_pairs_distinct _ Hnd).
Qed.

(** The text written for a value is at least as long as the fuel the value
    needs. *)
Lemma enc_nonempty (level : nat) (v : json F) : (1 <= List.length (enc level v))%nat.
Proof.
  destruct (enc_start level v) as (c & r & -> & _). cbn [List.length]. lia.
Qed.

Lemma join_length (sep : str) (l : list str) :
  (fold_right (fun x acc => List.length x + acc) 0 l <= List.length (join sep l))%nat.
Proof.
  induction l as [|x [|y l] IH]; [cbn; lia|cbn; lia|].
  rewrite join_cons2, !length_app.
  change (fold_right (fun x acc => List.length x + acc) 0 (x :: y :: l))%nat
    with (List.length x + fold_right (fun x acc => List.length x + acc) 0 (y :: l))%nat.
  lia.
Qed.

Lemma join_length_sep (sep : str) (l : list str) :
  (1 <= List.length sep)%nat ->
  (fold_right (fun x acc => S (List.length x + acc)) 0 l <= S (List.length (join sep l)))%nat.
Proof.
  intros Hsep. induction l as [|x [|y l] IH]; [cbn; lia|cbn; lia|].
  rewrite join_cons2, !length_app.
  change (fold_right (fun x acc => S (List.length x + acc)) 0 (x :: y :: l))%nat
    with (S (List.length x + fold_right (fun x acc => S (List.length x + acc)) 0 (y :: l)))%nat.
  lia.
Qed.

Lemma separator_length (level : nat) :
  (1 <= List.length (Dumps.item_separator indent ++ Dumps.newline_indent indent level))%nat.
Proof.
  destruct (separator_shape level) as (a & -> & _). cbn [List.length]. lia.
Qed.

Lemma size_le_length (v : json F) :
  forall level, (size v <= List.length (enc level v))%nat.
Proof.
  induction v as [| b | z | x | s | l IH | d IH] using json_induction; intros level;
    try (cbn [size]; apply enc_nonempty).
  - destruct l as [|x l]; [cbn; lia|].
    rewrite size_list, enc_list_eq. cbn [List.length]. rewrite !length_app.
    pose proof (join_length_sep
                  (Dumps.item_separator indent ++ Dumps.newline_indent indent (S level))
                  (map (enc (S level)) (x :: l)) (separator_length (S level))) as Hj.
    assert (size_items (x :: l)
            <= fold_right (fun x acc => S (List.length x + acc)) 0
                 (map (enc (S level)) (x :: l)))%nat as Hs.
    { clear Hj. induction IH as [|y l' Hy _ IHl]; [cbn; lia|].
      rewrite size_items_cons. cbn [map fold_right]. specialize (Hy (S level)). lia. }
    cbn [List.length]. lia.
  - destruct d as [|kv d]; [cbn; lia|].
    rewrite size_dict, enc_dict_eq. cbn [List.length]. rewrite !length_app.
    pose proof (join_length_sep
                  (Dumps.item_separator indent ++ Dumps.newline_indent indent (S level))
                  (map (item_text level) (kv :: d)) (separator_length (S level))) as Hj.
    assert (size_pairs (kv :: d)
            <= fold_right (fun x acc => S (List.length x + acc)) 0
                 (map (item_text level) (kv :: d)))%nat as Hs.
    { clear Hj. induction IH as [|[k y] l' Hy _ IHl]; [cbn; lia|].
      rewrite size_pairs_cons. cbn [map fold_right snd]. specialize (Hy (S level)).
      cbn [snd] in Hy. unfold item_text at 1. rewrite !length_app. lia. }
    cbn [List.length]. lia.
Qed.

(** [json.loads(json.dumps(v, indent=indent, ensure_ascii=False))] is [v]. *)
Lemma loads_dumps (v : json F) :
  wf v ->
  Loads.json_loads float_of_literal (Dumps.json_dumps float_repr indent v) = Some v.
Proof.
  intros Hwf. unfold Loads.json_loads, Loads.decode, Dumps.json_dumps.
  pose proof (size_le_length v 0) as Hsize.
  pose proof (@reads_back_all v Hwf) as Hread.
  specialize (Hread 0%nat (2 * List.length (enc 0 v) + 2)%nat [] eq_refl ltac:(lia)).
  rewrite app_nil_r in Hread.
  destruct (enc_start 0 v) as (c & r & Hcr & Hc).
  apply value_start_facts in Hc as (Hw & _ & _ & Hbom).
  rewrite Hcr in *.
  cbn [startswith]. rewrite Hbom. cbn [andb].
  rewrite (skip_ws_stop _ _ Hw), Hread. reflexivity.
Qed.

End RoundTrip.

(** ** Deep equality: Python's [==] on the values of [json.loads] *)

Fixpoint all2 (A B : Type) (p : A -> B -> bool) (l : list A) (m : list B) : bool :=
  match l, m with
  | [], [] => true
  | x :: l', y :: m' => p x y && all2 p l' m'
  | _, _ => false
  end.

Fixpoint lookup (A : Type) (d : list (str * A)) (k : str) : option A :=
  match d with
  | [] => None
  | (k', v) :: d' => if Str.eqb k' k then Some v else lookup d' k
  end.

Definition Z_of_bool (b : bool) : Z := if b then 1%Z else 0%Z.

Section DeepEqual.

Variable F : Type.
(** [x == y] on finite floats, and [x == z] for a finite float and an
    integer. *)
Variable F_eqb : F -> F -> bool.
Variable F_eqb_Z : F -> Z -> bool.

(** [a == b] on floats: a NaN is equal to nothing, itself included. *)
Definition float_eq (a b : pyfloat F) : bool :=
  match a, b with
  | Infinity, Infinity => true
  | NegInfinity, NegInfinity => true
  | Finite x, Finite y => F_eqb x y
  | _, _ => false
  end.

Definition float_eq_int (a : pyfloat F) (z : Z) : bool :=
  match a with
  | Finite x => F_eqb_Z x z
  | _ => false
  end.

(** [a is b] for the values of [json.loads] where it matters: the NaN of
    [json.loads] is the one object [json.decoder.NaN], which the decoder
    returns for every literal [NaN] ([float] gives no NaN for a number of
    JSON); two other values that are one object are equal anyway. *)
Definition is_nan (v : json F) : bool :=
  match v with
  | JFloat NaN => true
  | _ => false
  end.

(** [a == b]: numbers compare by value across [bool], [int] and [float];
    lists compare item by item; dicts have the same number of keys and equal
    values under each key.  The items of lists and the values of dicts are
    compared by [PyObject_RichCompareBool], for which an object is equal to
    itself: inside a list or a dict the NaN of [json.loads] is equal to
    itself, on its own it is not. *)
Fixpoint py_eq (a b : json F) {struct a} : bool :=
  match a with
  | JNull => match b with JNull => true | _ => false end
  | JBool x =>
      match b with
      | JBool y => Bool.eqb x y
      | JInt z => Z.eqb (Z_of_bool x) z
      | JFloat f => float_eq_int f (Z_of_bool x)
      | _ => false
      end
  | JInt x =>
      match b with
      | JBool y => Z.eqb x (Z_of_bool y)
      | JInt y => Z.eqb x y
      | JFloat f => float_eq_int f x
      | _ => false
      end
  | JFloat f =>
      match b with
      | JBool y => float_eq_int f (Z_of_bool y)
      | JInt y => float_eq_int f y
      | JFloat g => float_eq f g
      | _ => false
      end
  | JStr s => match b with JStr t => Str.eqb s t | _ => false end
  | JList l =>
      match b with
      | JList m => all2 (fun x y => (is_nan x && is_nan y) || py_eq x y) l m
      | _ => false
      end
  | JDict d =>
      match b with
      | JDict e =>
          Nat.eqb (List.length d) (List.length e)
          && forallb (fun kv : str * json F =>
                        match lookup e (fst kv) with
                        | Some v' => (is_nan (snd kv) && is_nan v') || py_eq (snd kv) v'
                        | None => false
                        end) d
      | _ => false
      end
  end.

(** [a is b or a == b], as for an item of a list. *)
Definition py_eq_item (a b : json F) : bool := (is_nan a && is_nan b) || py_eq a b.

Hypothesis F_eqb_refl : forall x, F_eqb x x = true.

Lemma str_eqb_refl (s : str) : Str.eqb s s = true.
Proof. now apply str_eqb_eq. Qed.

Lemma lookup_in (A : Type) (d : list (str * A)) (k : str) (v : A) :
  NoDup (map fst d) -> In (k, v) d -> lookup d k = Some v.
Proof.
  induction d as [|[k' v'] d IH]; [contradiction|].
  cbn [map fst lookup In]. intros Hnd [H|H].
  - injection H as -> ->. now rewrite str_eqb_refl.
  - inversion Hnd as [|? ? Hk Hd]; subst.
    destruct (Str.eqb k' k) eqn:E.
    + apply str_eqb_eq in E. subst. exfalso. apply Hk.
      change k with (fst (k, v)). now apply in_map.
    + now apply IH.
Qed.

(** Every value is equal to itself as an item, and on its own unless it is
    the NaN. *)
Lemma py_eq_item_refl (v : json F) : wf v -> py_eq_item v v = true.
Proof.
  unfold py_eq_item.
  induction v as [| b | z | x | s | l IH | d IH] using json_induction; intros Hwf.
  - reflexivity.
  - destruct b; reflexivity.
  - apply Z.eqb_refl.
  - destruct x; try reflexivity. cbn. apply F_eqb_refl.
  - apply str_eqb_refl.
  - apply wf_list in Hwf. cbn [is_nan andb orb py_eq].
    induction l as [|x l IHl]; [reflexivity|].
    cbn [all2]. inversion IH; inversion Hwf; subst.
    rewrite H1 by assumption. cbn [andb]. now apply IHl.
  - apply wf_dict in Hwf as [Hnd Hwf]. cbn [is_nan andb orb py_eq].
    rewrite Nat.eqb_refl. cbn [andb].
    apply forallb_forall. intros [k v] Hin. cbn [fst snd].
    rewrite (lookup_in _ _ _ Hnd Hin).
    rewrite Forall_forall in IH, Hwf.
    apply (IH _ Hin). exact (Hwf _ Hin).
Qed.

Lemma py_eq_refl (v : json F) : wf v -> v <> JFloat NaN -> py_eq v v = true.
Proof.
  intros Hwf Hn. pose proof (@py_eq_item_refl v Hwf) as H. unfold py_eq_item in H.
  destruct v as [| | |[| | |x]| | |]; try exact H. contradiction.
Qed.

End DeepEqual.

(** ** Examples: a float model, arguments and answers *)

Definition unit_eqb (x y : unit) : bool := true.
Definition unit_eqb_Z (x : unit) (z : Z) : bool := Z.eqb z 0.

Definition args_pretty_to (path out : str) : Args :=
  {| pdf_file := path; output := Some out; pretty := true; arg_api_key := None |}.

Definition sample_result : json unit :=
  JDict [(lit "total", JInt 10);
         (lit "items", JList [JFloat (Finite tt); JStr (lit "caf" ++ [233%N]); JNull])].

(** The service answers with an object whose total is NaN, which
    [json.loads] accepts. *)
Definition nan_response : str := lit "{" ++ [QUOTE] ++ lit "total" ++ [QUOTE] ++ lit ": NaN}".

Definition nan_world : World :=
  {| isfile := fun _ => true;
     read_pdf := fun _ => inr [inr (lit "Invoice 42")];
     environ_key := Some (lit "sk-test");
     dotenv_key := None;
     chat_create := fun _ _ => inr [Some nan_response];
     open_write := fun _ => None;
     max_nesting := 990;
     int_max_str_digits := 4300;
     stdout_encodes := fun s => negb (existsb is_surrogate s) |}.

Definition nan_result : json unit := JDict [(lit "total", JFloat NaN)].

(** The service answers with a string that holds a lone surrogate, written
    as an escape; [json.loads] accepts it, the text [json.dumps] makes of it
    has no UTF-8 encoding, the run exits with status 1 and leaves an empty
    file, which is not JSON. *)
Definition surrogate_response : str :=
  lit "{" ++ [QUOTE] ++ lit "a" ++ [QUOTE] ++ lit ": " ++ [QUOTE; BACKSLASH]
  ++ lit "ud800" ++ [QUOTE] ++ lit "}".

Definition surrogate_world : World :=
  {| isfile := fun _ => true;
     read_pdf := fun _ => inr [inr (lit "Invoice 42")];
     environ_key := Some (lit "sk-test");
     dotenv_key := None;
     chat_create := fun _ _ => inr [Some surrogate_response];
     open_write := fun _ => None;
     max_nesting := 990;
     int_max_str_digits := 4300;
     stdout_encodes := fun s => negb (existsb is_surrogate s) |}.

Example lone_surrogate_not_saved :
  fst (parse_invoice_to_json unit_float_of_literal surrogate_world test_scanner
         (lit "Invoice 42") [])
  = inr (JDict [(lit "a", JStr [55296%N])])
  /\ fst (main unit_float_of_literal unit_float_repr surrogate_world
            (args_pretty_to (lit "a.pdf") (lit "out.json"))) = 1%Z
  /\ file_content (lit "out.json")
       (snd (main unit_float_of_literal unit_float_repr surrogate_world
               (args_pretty_to (lit "a.pdf") (lit "out.json")))) None = Some []
  /\ json_loads unit_float_of_literal [] = None.
Proof.
  repeat split; vm_compute; reflexivity.
Qed.

(** ** The fuel of [decode] is enough *)





(** * Further properties of the program *)

(** ** Trimming, splitting and joining *)

Lemma lstrip_blank (s : str) : forallb isspace s = true -> lstrip s = [].
Proof.
  induction s as [|c s IH]; [reflexivity|]. cbn [forallb lstrip].
  intros H. apply andb_true_iff in H as [-> H]. now apply IH.
Qed.

Lemma lstrip_app_blank (a s : str) : forallb isspace a = true -> lstrip (a ++ s) = lstrip s.
Proof.
  induction a as [|c a IH]; [reflexivity|]. cbn [forallb app lstrip].
  intros H. apply andb_true_iff in H as [-> H]. now apply IH.
Qed.

Lemma lstrip_blank_inv (s : str) : lstrip s = [] -> forallb isspace s = true.
Proof.
  induction s as [|c s IH]; [reflexivity|]. cbn [forallb lstrip].
  destruct (isspace c); [exact IH|discriminate].
Qed.

Lemma lstrip_app (s x : str) : lstrip s <> [] -> lstrip (s ++ x) = lstrip s ++ x.
Proof.
  induction s as [|c s IH]; [intros H; now contradiction H|]. cbn [app lstrip].
  destruct (isspace c); [exact IH|reflexivity].
Qed.

Lemma forallb_rev (A : Type) (p : A -> bool) (l : list A) :
  forallb p (List.rev l) = forallb p l.
Proof.
  induction l as [|x l IH]; [reflexivity|].
  cbn [List.rev forallb]. rewrite forallb_app, IH. cbn [forallb].
  now rewrite andb_true_r, andb_comm.
Qed.

Lemma rstrip_app_blank (s b : str) : forallb isspace b = true -> rstrip (s ++ b) = rstrip s.
Proof.
  intros H. unfold rstrip. rewrite rev_app_distr, lstrip_app_blank; [reflexivity|].
  now rewrite forallb_rev.
Qed.

Lemma strip_blank (s : str) : forallb isspace s = true -> strip s = [].
Proof. intros H. unfold strip. now rewrite (lstrip_blank _ H). Qed.

(** White space around a text does not change what trimming leaves. *)
Lemma strip_surrounded (a s b : str) :
  forallb isspace a = true -> forallb isspace b = true ->
  strip (a ++ s ++ b) = strip s.
Proof.
  intros Ha Hb. unfold strip. rewrite (lstrip_app_blank _ _ Ha).
  destruct (lstrip s) as [|c r] eqn:Hs.
  - apply lstrip_blank_inv in Hs.
    rewrite lstrip_blank; [reflexivity|]. rewrite forallb_app. now rewrite Hs, Hb.
  - rewrite lstrip_app by (rewrite Hs; discriminate). rewrite Hs.
    now apply rstrip_app_blank.
Qed.

(** A text that begins and ends with characters that are not white space is
    left as it is. *)
Lemma strip_tight (c d : char) (m : str) :
  isspace c = false -> isspace d = false ->
  strip (c :: m ++ [d]) = c :: m ++ [d].
Proof.
  intros Hc Hd. unfold strip. cbn [lstrip]. rewrite Hc.
  unfold rstrip. change (c :: m ++ [d]) with ((c :: m) ++ [d]).
  rewrite rev_app_distr. cbn [List.rev app lstrip]. rewrite Hd.
  change (d :: List.rev m ++ [c]) with ([d] ++ List.rev (c :: m)).
  now rewrite rev_app_distr, rev_involutive.
Qed.

Lemma split_nonempty (sep : char) (s : str) : split sep s <> [].
Proof.
  induction s as [|c s IH]; [discriminate|]. cbn [split].
  destruct (c =? sep)%N; [discriminate|]. destruct (split sep s); [contradiction|discriminate].
Qed.

(** Splitting at a separator and joining with it gives the text back. *)
Lemma join_split (sep : char) (s : str) : join [sep] (split sep s) = s.
Proof.
  induction s as [|c s IH]; [reflexivity|]. cbn [split].
  pose proof (split_nonempty sep s) as Hn.
  destruct (N.eqb_spec c sep) as [->|Hc].
  - destruct (split sep s) as [|p ps]; [contradiction|].
    rewrite join_cons2. cbn [app]. now rewrite IH.
  - destruct (split sep s) as [|p ps]; [contradiction|].
    destruct ps as [|q ps].
    + cbn [join] in *. now rewrite IH.
    + rewrite join_cons2 in *. cbn [app] in *. now rewrite IH.
Qed.

Lemma split_no_sep (sep : char) (s : str) :
  forallb (fun c => negb (c =? sep)%N) s = true -> split sep s = [s].
Proof.
  induction s as [|c s IH]; [reflexivity|]. cbn [forallb split].
  intros H. apply andb_true_iff in H as [Hc H]. apply negb_true_iff in Hc.
  rewrite Hc, (IH H). reflexivity.
Qed.

Lemma split_app_sep (sep : char) (x y : str) :
  split sep (x ++ sep :: y) = split sep x ++ split sep y.
Proof.
  induction x as [|c x IH].
  - cbn [app split]. now rewrite N.eqb_refl.
  - cbn [app split]. destruct (c =? sep)%N.
    + now rewrite IH.
    + rewrite IH. pose proof (split_nonempty sep x) as Hn.
      destruct (split sep x) as [|p ps]; [contradiction|reflexivity].
Qed.

(** ** The cleaning of fenced and unfenced answers *)

Lemma removelast_snoc (A : Type) (l : list A) (x : A) : removelast (l ++ [x]) = l.
Proof. apply removelast_last. Qed.

(** X1: a fenced block: an opening fence with any tag on its line, a body of any
    number of lines and a closing fence on its own line.  The cleaning gives
    the body back, unless the body itself begins with [json], which is then
    removed and the rest trimmed. *)
Theorem fenced_block_gives_body (tag body : str) :
  forallb (fun c => negb (c =? LF)%N) tag = true ->
  clean_json_text (fence ++ tag ++ [LF] ++ body ++ [LF] ++ fence)
  = if startswith body json_tag then strip (skipn 4 body) else body.
Proof.
  intros Htag. unfold clean_json_text.
  assert (strip (fence ++ tag ++ [LF] ++ body ++ [LF] ++ fence)
          = fence ++ tag ++ [LF] ++ body ++ [LF] ++ fence) as ->.
  { change (fence ++ tag ++ [LF] ++ body ++ [LF] ++ fence)
      with (96%N :: ([96%N; 96%N] ++ tag ++ [LF] ++ body ++ [LF] ++ [96%N; 96%N; 96%N])).
    replace ([96%N; 96%N] ++ tag ++ [LF] ++ body ++ [LF] ++ [96%N; 96%N; 96%N])
      with (([96%N; 96%N] ++ tag ++ [LF] ++ body ++ [LF] ++ [96%N; 96%N]) ++ [96%N])
      by (now rewrite <- !app_assoc).
    now apply strip_tight. }
  change (startswith (fence ++ tag ++ [LF] ++ body ++ [LF] ++ fence) fence) with true.
  cbv iota.
  assert (split LF (fence ++ tag ++ [LF] ++ body ++ [LF] ++ fence)
          = (fence ++ tag) :: split LF body ++ [fence]) as Hsplit.
  { replace (fence ++ tag ++ [LF] ++ body ++ [LF] ++ fence)
      with ((fence ++ tag) ++ LF :: (body ++ LF :: fence))
      by (now rewrite <- !app_assoc).
    rewrite !split_app_sep.
    rewrite (split_no_sep LF (fence ++ tag)); [reflexivity|].
    rewrite forallb_app, Htag. reflexivity. }
  rewrite Hsplit.
  assert ((2 <? List.length ((fence ++ tag) :: split LF body ++ [fence]))%nat = true) as ->.
  { apply Nat.ltb_lt. cbn [List.length]. rewrite length_app. cbn [List.length].
    pose proof (split_nonempty LF body) as Hn.
    destruct (split LF body); [contradiction|cbn [List.length]; lia]. }
  unfold slice_1_m1, slice_from. cbn [tl]. rewrite removelast_snoc, join_split.
  reflexivity.
Qed.

Lemma fenced_block_witness :
  clean_json_text (fence ++ lit "javascript" ++ [LF] ++ (lit "[1," ++ [LF] ++ lit " 2]")
                   ++ [LF] ++ fence)
  = lit "[1," ++ [LF] ++ lit " 2]".
Proof.
  apply (fenced_block_gives_body (lit "javascript") (lit "[1," ++ [LF] ++ lit " 2]")).
  reflexivity.
Defined.

(** X2: white space before and after the answer does not change the cleaned
    text. *)
Theorem clean_ignores_surrounding_space (a content b : str) :
  forallb isspace a = true -> forallb isspace b = true ->
  clean_json_text (a ++ content ++ b) = clean_json_text content.
Proof.
  intros Ha Hb. unfold clean_json_text. now rewrite (strip_surrounded _ content _ Ha Hb).
Qed.

Lemma clean_space_witness :
  clean_json_text ([LF; 32%N] ++ fenced_total ++ [32%N; 9%N; LF]) = clean_json_text fenced_total.
Proof.
  apply (clean_ignores_surrounding_space [LF; 32%N] fenced_total [32%N; 9%N; LF]); reflexivity.
Defined.

(** ** Failures of the text extraction *)

Definition extraction_error (pdf_path : str) (e : exn) : exn :=
  if is_FileNotFoundError e
  then Raised FileNotFoundError (Msg.pdf_not_found ++ pdf_path)
  else Chained Exception Msg.extracting e.

(** X3: a file that cannot be opened or read as a PDF: a [FileNotFoundError] is
    raised again with the path in its message, any other exception is wrapped
    in "Error extracting text from PDF"; no page is extracted. *)
Theorem extract_unreadable_file (w : World) (pdf_path : str) (e : exn) (t : list event) :
  read_pdf w pdf_path = inl e ->
  extract_text_from_pdf w pdf_path t
  = (inl (extraction_error pdf_path e), t ++ [OpenPdf pdf_path]).
Proof.
  intros H. unfold extract_text_from_pdf, try_except, bind, emit, raise, extraction_error.
  rewrite H. destruct (is_FileNotFoundError e); reflexivity.
Qed.

Lemma extract_unreadable_witness :
  extract_text_from_pdf no_such_file (lit "missing.pdf") []
  = (inl (Raised FileNotFoundError (lit "PDF file not found: missing.pdf")),
     [OpenPdf (lit "missing.pdf")]).
Proof.
  apply (@extract_unreadable_file no_such_file (lit "missing.pdf")
           (Raised FileNotFoundError (lit "[Errno 2] No such file or directory")) []).
  reflexivity.
Defined.

Lemma extract_pages_failing (texts : list str) (e : exn) (rest : list (exn + str))
    (n : nat) (t : list event) :
  extract_pages n (map inr texts ++ inl e :: rest) t
  = (inl e, t ++ map ExtractPage (seq n (S (List.length texts)))).
Proof.
  revert n t. induction texts as [|x texts IH]; intros n t.
  - reflexivity.
  - cbn [map app extract_pages]. unfold bind, emit at 1.
    rewrite IH. cbn [List.length]. change (seq n (S (S (List.length texts))))
      with (n :: seq (S n) (S (List.length texts))).
    cbn [map]. now rewrite <- app_assoc.
Qed.

(** X4: the first page whose extraction fails ends the loop: the pages before it
    have been extracted in order, the pages after it are not touched, and the
    failure is wrapped like a failure to read the file. *)
Theorem extract_stops_at_failing_page
    (w : World) (pdf_path : str) (texts : list str) (e : exn)
    (rest : list (exn + str)) (t : list event) :
  read_pdf w pdf_path = inr (map inr texts ++ inl e :: rest) ->
  extract_text_from_pdf w pdf_path t
  = (inl (extraction_error pdf_path e),
     t ++ OpenPdf pdf_path :: map ExtractPage (seq 0 (S (List.length texts)))).
Proof.
  intros H. unfold extract_text_from_pdf, try_except, bind, emit, raise, extraction_error.
  rewrite H, extract_pages_failing.
  destruct (is_FileNotFoundError e); now rewrite <- app_assoc.
Qed.

Definition damaged_page : exn := Raised (Other (lit "PdfReadError")) (lit "Invalid page").

Definition second_page_damaged : World :=
  {| isfile := fun _ => true;
     read_pdf := fun _ => inr [inr (lit "Invoice 42"); inl damaged_page; inr (lit "Total: 10")];
     environ_key := Some (lit "sk-test");
     dotenv_key := None;
     chat_create := fun _ _ => inr [Some (lit "{}")];
     open_write := fun _ => None;
     max_nesting := 990;
     int_max_str_digits := 4300;
     stdout_encodes := fun s => negb (existsb is_surrogate s) |}.

Lemma extract_stops_witness :
  extract_text_from_pdf second_page_damaged (lit "a.pdf") []
  = (inl (Chained Exception Msg.extracting damaged_page),
     [OpenPdf (lit "a.pdf"); ExtractPage 0; ExtractPage 1]).
Proof.
  apply (@extract_stops_at_failing_page second_page_damaged (lit "a.pdf")
           [lit "Invoice 42"] damaged_page [inr (lit "Total: 10")] []).
  reflexivity.
Defined.

Lemma join_blank (sep : str) (texts : list str) :
  forallb isspace sep = true ->
  Forall (fun x => forallb isspace x = true) texts ->
  forallb isspace (join sep texts) = true.
Proof.
  intros Hsep Hall. induction Hall as [|x l Hx Hl IH]; [reflexivity|].
  destruct l as [|y l]; [exact Hx|].
  rewrite join_cons2, !forallb_app, Hx, Hsep, IH. reflexivity.
Qed.

(** X5: a PDF without pages, or whose pages all yield blank text (scanned
    images, for instance), is read to its last page, and the text extracted
    from it is blank: nothing is left of it once it is trimmed, which is the
    test the scan makes before it calls the service. *)
Theorem extract_of_blank_pages
    (w : World) (pdf_path : str) (texts : list str) (t : list event) :
  read_pdf w pdf_path = inr (map inr texts) ->
  Forall (fun x => forallb isspace x = true) texts ->
  extract_text_from_pdf w pdf_path t
  = (inr (join [LF; LF] texts),
     t ++ OpenPdf pdf_path :: map ExtractPage (seq 0 (List.length texts)))
  /\ strip (join [LF; LF] texts) = [].
Proof.
  intros Hread Hblank. split.
  - unfold extract_text_from_pdf, try_except, bind, emit. rewrite Hread.
    rewrite extract_pages_texts. unfold ret. now rewrite <- !app_assoc.
  - exact (strip_blank _ (join_blank [LF; LF] eq_refl Hblank)).
Qed.

Lemma extract_blank_witness :
  extract_text_from_pdf blank_pdf (lit "a.pdf") []
  = (inr (join [LF; LF] [[32%N; LF]; []]),
     [OpenPdf (lit "a.pdf"); ExtractPage 0; ExtractPage 1])
  /\ strip (join [LF; LF] [[32%N; LF]; []]) = [].
Proof.
  apply (@extract_of_blank_pages blank_pdf (lit "a.pdf") [[32%N; LF]; []] []).
  - reflexivity.
  - repeat constructor.
Defined.

(** ** Every run of the command line *)

(** The remote calls of a trace, with the key and the request of each, and
    the events that deliver a result. *)
Definition calls (t : list event) : list (str * request) :=
  flat_map (fun ev => match ev with ChatCreate k r => [(k, r)] | _ => [] end) t.

Definition deliveries (t : list event) : list event :=
  filter (fun ev => match ev with FileWritten _ _ => true | _ => false end) t.

Lemma calls_app (t1 t2 : list event) : calls (t1 ++ t2) = calls t1 ++ calls t2.
Proof. apply flat_map_app. Qed.

Lemma stderr_app (t1 t2 : list event) : stderr (t1 ++ t2) = stderr t1 ++ stderr t2.
Proof. apply flat_map_app. Qed.

Lemma remote_calls_calls (t : list event) : remote_calls t = List.length (calls t).
Proof.
  unfold remote_calls, calls. induction t as [|ev t IH]; [reflexivity|].
  cbn [filter flat_map]. destruct ev; cbn [List.length app]; now rewrite <- ?IH.
Qed.

Lemma extract_pages_quiet (pages : list (exn + str)) (n : nat) :
  calls (snd (extract_pages n pages [])) = []
  /\ stderr (snd (extract_pages n pages [])) = [].
Proof.
  revert n. induction pages as [|p pages IH]; intros n; [split; reflexivity|].
  cbn [extract_pages]. unfold bind, emit, raise. cbn [app].
  destruct p as [e|x]; [split; reflexivity|].
  rewrite (extract_pages_trace pages (S n) [ExtractPage n]).
  destruct (IH (S n)) as [Hc Hs].
  destruct (extract_pages (S n) pages []) as [[e|texts] t']; cbn in *; now split.
Qed.

(** The extraction calls no service and writes nothing on the error
    stream. *)
Lemma extract_text_quiet (w : World) (pdf_path : str) :
  calls (snd (extract_text_from_pdf w pdf_path [])) = []
  /\ stderr (snd (extract_text_from_pdf w pdf_path [])) = [].
Proof.
  unfold extract_text_from_pdf, try_except, bind, emit, raise. cbn [app].
  destruct (read_pdf w pdf_path) as [e|pages].
  - destruct (is_FileNotFoundError e); split; reflexivity.
  - rewrite (extract_pages_trace pages 0 [OpenPdf pdf_path]).
    destruct (extract_pages_quiet pages 0) as [Hc Hs].
    destruct (extract_pages 0 pages []) as [[e|texts] t']; cbn in *;
      [destruct (is_FileNotFoundError e)|]; cbn; now split.
Qed.

Section EveryRun.

Variable F : Type.
Variable float_of_literal : str -> pyfloat F.
Variable float_repr : F -> str.
Variable w : World.

Local Abbreviation parse := (parse_invoice_to_json float_of_literal w).
Local Abbreviation run := (main float_of_literal float_repr w).

Lemma parse_fst_trace (self : PDFInvoiceScanner) (pdf_text : str) (t : list event) :
  fst (parse self pdf_text t) = fst (parse self pdf_text []).
Proof.
  unfold parse_invoice_to_json, try_except, bind, emit, raise, ret.
  destruct (chat_create w (api_key self) (Prompt.request_for pdf_text)) as [e|[|[c|] cs]];
    cbn; try (destruct (is_JSONDecodeError e)); try reflexivity.
  destruct (json_loads_in float_of_literal w (clean_json_text c)) as [e|v];
    [destruct (is_JSONDecodeError e)|]; reflexivity.
Qed.

(** Saving or printing either delivers the serialized result, or raises;
    it calls no service and writes nothing on the error stream.  When it
    raises, nothing has been written to a file, unless the result is saved
    and standard output has not the line that says so. *)
Lemma save_or_print_cases (args : Args) (v : json F) (t : list event) :
  (exists t1,
      save_or_print float_repr w args v t = (inr tt, t ++ t1)
      /\ calls t1 = [] /\ stderr t1 = []
      /\ In (delivered args (json_dumps float_repr (if pretty args then Some 2%nat else None) v))
            t1)
  \/ (exists e t1,
         save_or_print float_repr w args v t = (inl e, t ++ t1)
         /\ calls t1 = [] /\ stderr t1 = []
         /\ (deliveries t1 = []
             \/ exists path, output args = Some path /\ e = EncodeError (Msg.saved ++ path))).
Proof.
  assert (forall json_output,
             (exists t1,
                 (print w (LF :: Msg.rule) ;;; print w Msg.banner ;;; print w Msg.rule ;;;
                  print w json_output) t = (inr tt, t ++ t1)
                 /\ calls t1 = [] /\ stderr t1 = [] /\ In (Print (Text json_output)) t1)
             \/ (exists e t1,
                    (print w (LF :: Msg.rule) ;;; print w Msg.banner ;;; print w Msg.rule ;;;
                     print w json_output) t = (inl e, t ++ t1)
                    /\ calls t1 = [] /\ stderr t1 = [] /\ deliveries t1 = [])) as Hprint.
  { intros json_output. unfold print, bind, emit, raise.
    destruct (stdout_encodes w (LF :: Msg.rule));
      [|right; eexists _, []; rewrite app_nil_r; repeat split].
    destruct (stdout_encodes w Msg.banner);
      [|right; eexists _, [_]; repeat split].
    destruct (stdout_encodes w Msg.rule);
      [|right; eexists _, [_; _]; cbn; rewrite <- !app_assoc; repeat split].
    destruct (stdout_encodes w json_output);
      [|right; eexists _, [_; _; _]; cbn; rewrite <- !app_assoc; repeat split].
    left. eexists [_; _; _; _]. cbn. rewrite <- !app_assoc. repeat split. tauto. }
  unfold save_or_print, delivered.
  destruct (output args) as [[|c p]|].
  - destruct (Hprint (json_dumps float_repr (if pretty args then Some 2%nat else None) v))
      as [H|(e & t1 & H1 & H2 & H3 & H4)]; [now left|right].
    exists e, t1. repeat split; try assumption. now left.
  - unfold write_text, print, bind, emit, raise.
    destruct (open_write w (c :: p)) as [e|].
    + right. exists e, []. rewrite app_nil_r. repeat split. now left.
    + destruct (existsb is_surrogate _).
      * right. eexists _, [_]. repeat split. now left.
      * unfold emit. destruct (stdout_encodes w (Msg.saved ++ c :: p)).
        -- left. eexists [_; _; _]. cbn. rewrite <- !app_assoc. repeat split. tauto.
        -- right. eexists _, [_; _]. cbn. rewrite <- !app_assoc. repeat split.
           right. now exists (c :: p).
  - destruct (Hprint (json_dumps float_repr (if pretty args then Some 2%nat else None) v))
      as [H|(e & t1 & H1 & H2 & H3 & H4)]; [now left|right].
    exists e, t1. repeat split; try assumption. now left.
Qed.

(** The trace of a run up to the remote call. *)
Definition before_call (args : Args) : list event :=
  [LoadDotenv; Print (Text (Msg.progress_extract ++ pdf_file args))]
  ++ snd (extract_text_from_pdf w (pdf_file args) [])
  ++ [Print (Text Msg.progress_parse)].

(** The ways a run can go. *)
Inductive run_shape (args : Args) : Z * list event -> Prop :=
| NoFile :
    isfile w (pdf_file args) = false ->
    run_shape args (1%Z, [PrintErr (Text (Msg.cli_not_found ++ pdf_file args))])
| NoKey :
    isfile w (pdf_file args) = true ->
    truthy (py_or (arg_api_key args) (getenv_key w)) = false ->
    run_shape args
      (1%Z, [LoadDotenv; PrintErr (TextExn Msg.cli_error (Raised ValueError Msg.no_key))])
| NoExtraction (e : exn) :
    isfile w (pdf_file args) = true ->
    truthy (py_or (arg_api_key args) (getenv_key w)) = true ->
    fst (extract_text_from_pdf w (pdf_file args) []) = inl e ->
    run_shape args
      (1%Z, [LoadDotenv; Print (Text (Msg.progress_extract ++ pdf_file args))]
            ++ snd (extract_text_from_pdf w (pdf_file args) [])
            ++ [PrintErr (TextExn Msg.cli_error e)])
| NoText (pdf_text : str) :
    isfile w (pdf_file args) = true ->
    truthy (py_or (arg_api_key args) (getenv_key w)) = true ->
    fst (extract_text_from_pdf w (pdf_file args) []) = inr pdf_text ->
    strip pdf_text = [] ->
    run_shape args
      (1%Z, [LoadDotenv; Print (Text (Msg.progress_extract ++ pdf_file args))]
            ++ snd (extract_text_from_pdf w (pdf_file args) [])
            ++ [PrintErr (TextExn Msg.cli_error (Raised ValueError Msg.no_text))])
| NoResult (k pdf_text : str) (e : exn) :
    isfile w (pdf_file args) = true ->
    py_or (arg_api_key args) (getenv_key w) = Some k -> k <> [] ->
    fst (extract_text_from_pdf w (pdf_file args) []) = inr pdf_text ->
    strip pdf_text <> [] ->
    fst (parse {| api_key := k |} pdf_text []) = inl e ->
    run_shape args
      (1%Z, before_call args
            ++ [ChatCreate k (Prompt.request_for pdf_text);
                PrintErr (TextExn Msg.cli_error e)])
| NoOutput (k pdf_text : str) (v : json F) (e : exn) (t1 : list event) :
    isfile w (pdf_file args) = true ->
    py_or (arg_api_key args) (getenv_key w) = Some k -> k <> [] ->
    fst (extract_text_from_pdf w (pdf_file args) []) = inr pdf_text ->
    strip pdf_text <> [] ->
    fst (parse {| api_key := k |} pdf_text []) = inr v ->
    calls t1 = [] -> stderr t1 = [] ->
    (deliveries t1 = []
     \/ exists path, output args = Some path /\ e = EncodeError (Msg.saved ++ path)) ->
    run_shape args
      (1%Z, before_call args
            ++ [ChatCreate k (Prompt.request_for pdf_text)]
            ++ t1 ++ [PrintErr (TextExn Msg.cli_error e)])
| Done (k pdf_text : str) (v : json F) (t1 : list event) :
    isfile w (pdf_file args) = true ->
    py_or (arg_api_key args) (getenv_key w) = Some k -> k <> [] ->
    fst (extract_text_from_pdf w (pdf_file args) []) = inr pdf_text ->
    strip pdf_text <> [] ->
    fst (parse {| api_key := k |} pdf_text []) = inr v ->
    calls t1 = [] -> stderr t1 = [] ->
    In (delivered args (json_dumps float_repr (if pretty args then Some 2%nat else None) v)) t1 ->
    run_shape args
      (0%Z, before_call args ++ [ChatCreate k (Prompt.request_for pdf_text)] ++ t1).

(** Every run has one of the seven shapes. *)
Lemma main_run_shape (args : Args) : run_shape args (run args).
Proof.
  unfold main. destruct (isfile w (pdf_file args)) eqn:Hfile; cbn [negb];
    [|now apply NoFile].
  unfold bind at 1.
  destruct (py_or (arg_api_key args) (getenv_key w)) as [[|c k]|] eqn:Hkey;
    try (unfold init, bind, emit, raise; rewrite Hkey; cbn [app];
         apply NoKey; [assumption|now rewrite Hkey]).
  rewrite (@init_key w (arg_api_key args) c k [] Hkey). cbn [app].
  assert (c :: k <> []) as Hk by discriminate.
  assert (truthy (py_or (arg_api_key args) (getenv_key w)) = true) as Hkt
    by now rewrite Hkey.
  unfold bind at 1.
  destruct (fst (extract_text_from_pdf w (pdf_file args) [])) as [e|pdf_text] eqn:Hx.
  - unfold scan_invoice, bind, emit. rewrite extract_text_trace, Hx. cbn [app].
    now apply NoExtraction.
  - destruct (strip pdf_text) as [|c' r'] eqn:Hs.
    + unfold scan_invoice, bind, emit, raise. rewrite extract_text_trace, Hx, Hs. cbn [app].
      now apply NoText with (pdf_text := pdf_text).
    + assert (strip pdf_text <> []) as Hs' by (rewrite Hs; discriminate).
      rewrite (@scan_text F float_of_literal w {| api_key := c :: k |} (pdf_file args)
                 pdf_text [LoadDotenv] Hx Hs').
      cbn [app].
      change (LoadDotenv :: Print (Text (Msg.progress_extract ++ pdf_file args))
                :: snd (extract_text_from_pdf w (pdf_file args) [])
                ++ [Print (Text Msg.progress_parse)])
        with (before_call args).
      pose proof (@parse_trace F float_of_literal w {| api_key := c :: k |} pdf_text
                    (before_call args)) as Ht.
      pose proof (parse_fst_trace {| api_key := c :: k |} pdf_text (before_call args)) as Hp.
      cbn [api_key] in Ht.
      destruct (parse_invoice_to_json float_of_literal w {| api_key := c :: k |} pdf_text
                  (before_call args)) as [r t'].
      cbn [fst snd] in Ht, Hp. subst t'.
      destruct r as [e|v].
      * rewrite <- app_assoc. cbn [app].
        now apply NoResult with (k := c :: k) (pdf_text := pdf_text) (e := e).
      * destruct (save_or_print_cases args v
                    (before_call args ++ [ChatCreate (c :: k) (Prompt.request_for pdf_text)]))
          as [(t1 & -> & Hc & He & Hd)|(e & t1 & -> & Hc & He & Hd)].
        -- rewrite <- app_assoc.
           now apply Done with (k := c :: k) (pdf_text := pdf_text) (v := v).
        -- rewrite <- !app_assoc.
           now apply NoOutput with (k := c :: k) (pdf_text := pdf_text) (v := v).
Qed.

End EveryRun.

Lemma deliveries_app (t1 t2 : list event) :
  deliveries (t1 ++ t2) = deliveries t1 ++ deliveries t2.
Proof. apply filter_app. Qed.

Lemma extract_pages_deliveries (pages : list (exn + str)) (n : nat) :
  deliveries (snd (extract_pages n pages [])) = [].
Proof.
  revert n. induction pages as [|p pages IH]; intros n; [reflexivity|].
  cbn [extract_pages]. unfold bind, emit, raise. cbn [app].
  destruct p as [e|x]; [reflexivity|].
  rewrite (extract_pages_trace pages (S n) [ExtractPage n]).
  specialize (IH (S n)).
  destruct (extract_pages (S n) pages []) as [[e|texts] t']; cbn in *; exact IH.
Qed.

Lemma extract_text_deliveries (w : World) (pdf_path : str) :
  deliveries (snd (extract_text_from_pdf w pdf_path [])) = [].
Proof.
  unfold extract_text_from_pdf, try_except, bind, emit, raise. cbn [app].
  destruct (read_pdf w pdf_path) as [e|pages].
  - destruct (is_FileNotFoundError e); reflexivity.
  - rewrite (extract_pages_trace pages 0 [OpenPdf pdf_path]).
    pose proof (extract_pages_deliveries pages 0) as Hd.
    destruct (extract_pages 0 pages []) as [[e|texts] t']; cbn in *;
      [destruct (is_FileNotFoundError e)|]; cbn; exact Hd.
Qed.

Section RunFacts.

Variable F : Type.
Variable float_of_literal : str -> pyfloat F.
Variable float_repr : F -> str.
Variable w : World.

Local Abbreviation parse := (parse_invoice_to_json float_of_literal w).
Local Abbreviation run := (main float_of_literal float_repr w).
Local Abbreviation shape := (run_shape float_of_literal float_repr w).

Lemma before_call_quiet (args : Args) :
  calls (before_call w args) = []
  /\ stderr (before_call w args) = []
  /\ deliveries (before_call w args) = [].
Proof.
  unfold before_call. destruct (extract_text_quiet w (pdf_file args)) as [Hc Hs].
  rewrite !calls_app, !stderr_app, !deliveries_app, Hc, Hs, extract_text_deliveries.
  repeat split.
Qed.

(** X6: once the arguments are parsed, a run in which nothing is raised
    that is not an [Exception] ends with status 0 and nothing on the error
    stream, or with status 1, in which case its last event is the one line
    it writes on the error stream; with status 1 no result has been written
    to a file, unless the result has been saved and standard output has not
    the line that says so, the line written on the error stream being then
    the [UnicodeEncodeError] of that line. *)
Theorem run_status_and_error_line (args : Args) :
  (fst (run args) = 0%Z /\ stderr (snd (run args)) = [])
  \/ (fst (run args) = 1%Z
      /\ exists t x,
           snd (run args) = t ++ [PrintErr x] /\ stderr t = []
           /\ (deliveries t = []
               \/ exists path,
                    output args = Some path
                    /\ x = TextExn Msg.cli_error (EncodeError (Msg.saved ++ path)))).
Proof.
  destruct (extract_text_quiet w (pdf_file args)) as [Hxc Hxs].
  pose proof (extract_text_deliveries w (pdf_file args)) as Hxd.
  destruct (before_call_quiet args) as (Hbc & Hbs & Hbd).
  destruct (main_run_shape float_of_literal float_repr w args)
    as [Hf|Hf Hk|e Hf Hk Hx|pdf_text Hf Hk Hx Hs|k pdf_text e Hf Hk Hne Hx Hs Hp
       |k pdf_text v e t1 Hf Hk Hne Hx Hs Hp Hc He Hd|k pdf_text v t1 Hf Hk Hne Hx Hs Hp Hc He Hd];
    cbn [fst snd].
  - right. split; [reflexivity|].
    exists [], (Text (Msg.cli_not_found ++ pdf_file args)). repeat split. now left.
  - right. split; [reflexivity|].
    exists [LoadDotenv], (TextExn Msg.cli_error (Raised ValueError Msg.no_key)).
    repeat split. now left.
  - right. split; [reflexivity|].
    eexists (_ ++ _), _. rewrite <- app_assoc. split; [reflexivity|]. split.
    + rewrite stderr_app, Hxs. reflexivity.
    + left. rewrite deliveries_app, Hxd. reflexivity.
  - right. split; [reflexivity|].
    eexists (_ ++ _), _. rewrite <- app_assoc. split; [reflexivity|]. split.
    + rewrite stderr_app, Hxs. reflexivity.
    + left. rewrite deliveries_app, Hxd. reflexivity.
  - right. split; [reflexivity|].
    exists (before_call w args ++ [ChatCreate k (Prompt.request_for pdf_text)]),
      (TextExn Msg.cli_error e).
    rewrite <- app_assoc. split; [reflexivity|]. split.
    + rewrite stderr_app, Hbs. reflexivity.
    + left. rewrite deliveries_app, Hbd. reflexivity.
  - right. split; [reflexivity|].
    exists (before_call w args ++ [ChatCreate k (Prompt.request_for pdf_text)] ++ t1),
      (TextExn Msg.cli_error e).
    rewrite <- !app_assoc. split; [reflexivity|]. split.
    + rewrite !stderr_app, Hbs, He. reflexivity.
    + destruct Hd as [Hd|(path & Ho & ->)].
      * left. rewrite !deliveries_app, Hbd, Hd. reflexivity.
      * right. now exists path.
  - left. split; [reflexivity|].
    rewrite !stderr_app, Hbs, He. reflexivity.
Qed.

(** X7: once the arguments are parsed, a run calls
    [client.chat.completions.create] at most once, and when it does, it is
    with the key it has resolved, which is not empty, and with the request
    made of the text extracted from the file, which is not blank.  (What the
    client does inside that call, the requests it sends again among it, is
    not the program's.) *)
Theorem run_calls_service_at_most_once (args : Args) :
  calls (snd (run args)) = []
  \/ exists k pdf_text,
       py_or (arg_api_key args) (getenv_key w) = Some k /\ k <> []
       /\ fst (extract_text_from_pdf w (pdf_file args) []) = inr pdf_text
       /\ strip pdf_text <> []
       /\ calls (snd (run args)) = [(k, Prompt.request_for pdf_text)].
Proof.
  destruct (extract_text_quiet w (pdf_file args)) as [Hxc Hxs].
  destruct (before_call_quiet args) as (Hbc & Hbs & Hbd).
  destruct (main_run_shape float_of_literal float_repr w args)
    as [Hf|Hf Hk|e Hf Hk Hx|pdf_text Hf Hk Hx Hs|k pdf_text e Hf Hk Hne Hx Hs Hp
       |k pdf_text v e t1 Hf Hk Hne Hx Hs Hp Hc He Hd|k pdf_text v t1 Hf Hk Hne Hx Hs Hp Hc He Hd];
    cbn [fst snd].
  - now left.
  - now left.
  - left. rewrite !calls_app, Hxc. reflexivity.
  - left. rewrite !calls_app, Hxc. reflexivity.
  - right. exists k, pdf_text. repeat split; try assumption.
    rewrite !calls_app, Hbc. reflexivity.
  - right. exists k, pdf_text. repeat split; try assumption.
    rewrite !calls_app, Hbc, Hc. reflexivity.
  - right. exists k, pdf_text. repeat split; try assumption.
    rewrite !calls_app, Hbc, Hc. reflexivity.
Qed.

(** X8: once the arguments are parsed, a run that ends with status 0 has
    found the file and a key, extracted a text that is not blank, called
    [client.chat.completions.create] once, read a JSON value in its answer,
    and printed or written to the output file the serialized text of that
    value. *)
Theorem run_success_delivers (args : Args) :
  fst (run args) = 0%Z ->
  exists k pdf_text v,
    isfile w (pdf_file args) = true
    /\ py_or (arg_api_key args) (getenv_key w) = Some k /\ k <> []
    /\ fst (extract_text_from_pdf w (pdf_file args) []) = inr pdf_text
    /\ strip pdf_text <> []
    /\ fst (parse {| api_key := k |} pdf_text []) = inr v
    /\ calls (snd (run args)) = [(k, Prompt.request_for pdf_text)]
    /\ In (delivered args
             (json_dumps float_repr (if pretty args then Some 2%nat else None) v))
          (snd (run args)).
Proof.
  destruct (before_call_quiet args) as (Hbc & Hbs & Hbd).
  destruct (main_run_shape float_of_literal float_repr w args)
    as [Hf|Hf Hk|e Hf Hk Hx|pdf_text Hf Hk Hx Hs|k pdf_text e Hf Hk Hne Hx Hs Hp
       |k pdf_text v e t1 Hf Hk Hne Hx Hs Hp Hc He Hd|k pdf_text v t1 Hf Hk Hne Hx Hs Hp Hc He Hd];
    cbn [fst snd]; try discriminate.
  intros _. exists k, pdf_text, v. repeat split; try assumption.
  - rewrite !calls_app, Hbc, Hc. reflexivity.
  - apply in_or_app. right. apply in_or_app. now right.
Qed.

(** X9: the key given to the service is the [--api-key] argument when it is
    given and not empty, and otherwise the value of [OPENAI_API_KEY]. *)
Theorem run_key_precedence (args : Args) (k : str) (r : request) :
  In (k, r) (calls (snd (run args))) ->
  k <> []
  /\ (if truthy (arg_api_key args)
      then arg_api_key args = Some k
      else getenv_key w = Some k).
Proof.
  destruct (extract_text_quiet w (pdf_file args)) as [Hxc Hxs].
  destruct (before_call_quiet args) as (Hbc & Hbs & Hbd).
  assert (forall k' x, py_or (arg_api_key args) (getenv_key w) = Some k' -> k' <> [] ->
                       In (k, r) [(k', x)] ->
                       k <> [] /\ (if truthy (arg_api_key args)
                                   then arg_api_key args = Some k
                                   else getenv_key w = Some k)) as Hone.
  { intros k' x Hk Hne [[= <- _]|[]]. split; [assumption|].
    unfold py_or in Hk. now destruct (truthy (arg_api_key args)). }
  destruct (main_run_shape float_of_literal float_repr w args)
    as [Hf|Hf Hk|e Hf Hk Hx|pdf_text Hf Hk Hx Hs|k' pdf_text e Hf Hk Hne Hx Hs Hp
       |k' pdf_text v e t1 Hf Hk Hne Hx Hs Hp Hc He Hd
       |k' pdf_text v t1 Hf Hk Hne Hx Hs Hp Hc He Hd];
    cbn [fst snd]; rewrite ?calls_app, ?Hxc, ?Hbc, ?Hc; cbn [calls flat_map app];
    try (intros []; fail); try (intros [[=]|[]]; fail); now apply Hone.
Qed.

(** X10: an empty output path is no output path: the result is printed. *)
Theorem empty_output_path_prints (args : Args) :
  output args = Some [] ->
  run args
  = run {| pdf_file := pdf_file args; output := None;
           pretty := pretty args; arg_api_key := arg_api_key args |}.
Proof.
  intros H. unfold main, save_or_print. cbn [pdf_file output pretty arg_api_key].
  rewrite H. reflexivity.
Qed.

End RunFacts.

Lemma run_success_witness :
  exists k pdf_text v,
    isfile two_pages (lit "a.pdf") = true
    /\ py_or None (getenv_key two_pages) = Some k /\ k <> []
    /\ fst (extract_text_from_pdf two_pages (lit "a.pdf") []) = inr pdf_text
    /\ strip pdf_text <> []
    /\ fst (parse_invoice_to_json unit_float_of_literal two_pages {| api_key := k |}
              pdf_text []) = inr v
    /\ calls (snd (main unit_float_of_literal unit_float_repr two_pages
                     (args_default (lit "a.pdf"))))
       = [(k, Prompt.request_for pdf_text)]
    /\ In (delivered (args_default (lit "a.pdf")) (json_dumps unit_float_repr None v))
          (snd (main unit_float_of_literal unit_float_repr two_pages
                  (args_default (lit "a.pdf")))).
Proof.
  apply (@run_success_delivers unit unit_float_of_literal unit_float_repr two_pages
           (args_default (lit "a.pdf"))).
  reflexivity.
Defined.

Definition args_with_key (path key : str) : Args :=
  {| pdf_file := path; output := None; pretty := false; arg_api_key := Some key |}.

Lemma run_key_witness :
  lit "sk-cli" <> []
  /\ arg_api_key (args_with_key (lit "a.pdf") (lit "sk-cli")) = Some (lit "sk-cli").
Proof.
  apply (@run_key_precedence unit unit_float_of_literal unit_float_repr two_pages
           (args_with_key (lit "a.pdf") (lit "sk-cli")) (lit "sk-cli")
           (Prompt.request_for (lit "Invoice 42" ++ [LF; LF] ++ lit "Total: 10"))).
  left. reflexivity.
Defined.

Lemma empty_output_witness :
  main unit_float_of_literal unit_float_repr two_pages
    {| pdf_file := lit "a.pdf"; output := Some []; pretty := true; arg_api_key := None |}
  = main unit_float_of_literal unit_float_repr two_pages
      {| pdf_file := lit "a.pdf"; output := None; pretty := true; arg_api_key := None |}.
Proof.
  apply (@empty_output_path_prints unit unit_float_of_literal unit_float_repr two_pages
           {| pdf_file := lit "a.pdf"; output := Some []; pretty := true;
              arg_api_key := None |}).
  reflexivity.
Defined.

(** ** The values read in an answer *)

Lemma dict_set_keys (A : Type) (d : list (str * A)) (k : str) (v : A) (x : str) :
  In x (map fst (dict_set d k v)) <-> In x (map fst d) \/ x = k.
Proof.
  induction d as [|[k' v'] d IH]; cbn [dict_set map fst In].
  - intuition.
  - destruct (Str.eqb k' k) eqn:E; cbn [map fst In].
    + apply str_eqb_eq in E. subst k'. intuition.
    + rewrite IH. intuition.
Qed.

Lemma dict_set_NoDup (A : Type) (d : list (str * A)) (k : str) (v : A) :
  NoDup (map fst d) -> NoDup (map fst (dict_set d k v)).
Proof.
  induction d as [|[k' v'] d IH]; cbn [dict_set map fst]; intros H.
  - constructor; [intros []|constructor].
  - inversion H as [|? ? Hn Hd]; subst.
    destruct (Str.eqb k' k) eqn:E; cbn [map fst].
    + now constructor.
    + constructor; [|now apply IH].
      rewrite dict_set_keys. intros [Hin | ->]; [contradiction|].
      assert (Str.eqb k k = true) as Hkk by now apply str_eqb_eq.
      congruence.
Qed.

Lemma dict_set_Forall (A : Type) (P : A -> Prop) (d : list (str * A)) (k : str) (v : A) :
  Forall (fun kv => P (snd kv)) d -> P v -> Forall (fun kv => P (snd kv)) (dict_set d k v).
Proof.
  intros Hd Hv. induction Hd as [|[k' v'] d Hx Hd IH]; cbn [dict_set].
  - now repeat constructor.
  - destruct (Str.eqb k' k); now constructor.
Qed.

(** [dict(pairs)] has each key once, and no value that is not in [pairs]. *)
Lemma dict_of_pairs_wf (A : Type) (P : A -> Prop) (pairs : list (str * A)) :
  Forall (fun kv => P (snd kv)) pairs ->
  NoDup (map fst (dict_of_pairs pairs))
  /\ Forall (fun kv => P (snd kv)) (dict_of_pairs pairs).
Proof.
  unfold dict_of_pairs. intros H.
  assert (NoDup (map fst (@nil (str * A))) /\ Forall (fun kv => P (snd kv)) (@nil (str * A)))
    as Hacc by (split; constructor).
  revert Hacc. generalize (@nil (str * A)) as acc.
  induction H as [|[k v] pairs Hv _ IH]; intros acc [Hn Hf]; cbn [fold_left fst snd].
  - now split.
  - apply IH. split; [now apply dict_set_NoDup|now apply dict_set_Forall].
Qed.

Section ParsedValues.

Variable F : Type.
Variable float_of_literal : str -> pyfloat F.

Local Abbreviation scan_once := (Loads.scan_once float_of_literal).
Local Abbreviation array_items := (Loads.array_items float_of_literal).
Local Abbreviation object_items := (Loads.object_items float_of_literal).

Lemma number_value_wf (n : Loads.number) : wf (Loads.number_value float_of_literal n).
Proof. unfold Loads.number_value. destruct (Loads.num_frac n), (Loads.num_exp n); exact I. Qed.

Ltac split_match H :=
  repeat match type of H with
         | context [match ?x with _ => _ end] => destruct x eqn:?; try discriminate H
         end.

(** The scanner builds dicts whose keys are pairwise distinct. *)
Lemma scan_wf (f : nat) :
  (forall s v r, scan_once f s = Loads.Ok (v, r) -> wf v)
  /\ (forall s vs r, array_items f s = Loads.Ok (vs, r) -> Forall (@wf F) vs)
  /\ (forall s ps r, object_items f s = Loads.Ok (ps, r) ->
        Forall (fun kv : str * json F => wf (snd kv)) ps).
Proof.
  induction f as [|f (IHs & IHa & IHo)]; [repeat split; discriminate|].
  assert (forall ps, Forall (fun kv : str * json F => wf (snd kv)) ps ->
                     wf (JDict (dict_of_pairs ps))) as Hdict.
  { intros ps Hps. apply wf_dict. now apply dict_of_pairs_wf. }
  repeat split.
  - intros s v r H. destruct s as [|c s]; [discriminate|].
    cbn [Loads.scan_once] in H. split_match H;
      injection H as <- <-; try exact I; try apply number_value_wf;
      try (apply Hdict; eapply IHo; eassumption).
    + apply wf_dict. split; constructor.
    + apply wf_list. eapply IHa; eassumption.
  - intros s vs r H. rewrite array_items_eq in H. split_match H; injection H as <- <-.
    + constructor; [eapply IHs; eassumption|constructor].
    + constructor; [eapply IHs; eassumption|eapply IHa; eassumption].
  - intros s ps r H. rewrite object_items_eq in H. split_match H; injection H as <- <-.
    + constructor; [cbn [snd]; eapply IHs; eassumption|constructor].
    + constructor; [cbn [snd]; eapply IHs; eassumption|eapply IHo; eassumption].
Qed.

Lemma json_loads_wf (s : str) (v : json F) :
  Loads.json_loads float_of_literal s = Some v -> wf v.
Proof.
  unfold Loads.json_loads. intros H.
  destruct (Loads.decode float_of_literal s) as [a| |] eqn:E; try discriminate H.
  injection H as <-. unfold Loads.decode in E. split_match E. injection E as <-.
  eapply (proj1 (scan_wf _)). eassumption.
Qed.

End ParsedValues.

(** ** Reading an answer always ends *)

Section Fuel.

Variable F : Type.
Variable float_of_literal : str -> pyfloat F.

Local Abbreviation scan_once := (Loads.scan_once float_of_literal).
Local Abbreviation array_items := (Loads.array_items float_of_literal).
Local Abbreviation object_items := (Loads.object_items float_of_literal).

(** One step of [scan_once]. *)
Lemma scan_once_eq (f : nat) (s : str) :
  scan_once (S f) s
  = match s with
    | [] => Loads.Fail
    | c :: r =>
        if (c =? QUOTE)%N then
          match Loads.scanstring r with
          | Some (k, rest) => Loads.Ok (JStr k, rest)
          | None => Loads.Fail
          end
        else if (c =? 123)%N then
          match r with
          | c1 :: r1 =>
              if (c1 =? QUOTE)%N then
                match object_items f r1 with
                | Loads.Ok (pairs, rest) => Loads.Ok (JDict (dict_of_pairs pairs), rest)
                | Loads.Fail => Loads.Fail
                | Loads.OutOfFuel => Loads.OutOfFuel
                end
              else
                match Loads.skip_ws r with
                | c2 :: r2 =>
                    if (c2 =? 125)%N then Loads.Ok (JDict [], r2)
                    else if (c2 =? QUOTE)%N then
                      match object_items f r2 with
                      | Loads.Ok (pairs, rest) => Loads.Ok (JDict (dict_of_pairs pairs), rest)
                      | Loads.Fail => Loads.Fail
                      | Loads.OutOfFuel => Loads.OutOfFuel
                      end
                    else Loads.Fail
                | [] => Loads.Fail
                end
          | [] => Loads.Fail
          end
        else if (c =? 91)%N then
          match Loads.skip_ws r with
          | c1 :: r1 =>
              if (c1 =? 93)%N then Loads.Ok (JList [], r1)
              else
                match array_items f (c1 :: r1) with
                | Loads.Ok (vs, rest) => Loads.Ok (JList vs, rest)
                | Loads.Fail => Loads.Fail
                | Loads.OutOfFuel => Loads.OutOfFuel
                end
          | [] => Loads.Fail
          end
        else if startswith s (lit "null") then Loads.Ok (JNull, skipn 4 s)
        else if startswith s (lit "true") then Loads.Ok (JBool true, skipn 4 s)
        else if startswith s (lit "false") then Loads.Ok (JBool false, skipn 5 s)
        else
          match Loads.match_number s with
          | Some (n, rest) => Loads.Ok (Loads.number_value float_of_literal n, rest)
          | None =>
              if startswith s (lit "NaN") then Loads.Ok (JFloat NaN, skipn 3 s)
              else if startswith s (lit "Infinity") then Loads.Ok (JFloat Infinity, skipn 8 s)
              else if startswith s (lit "-Infinity")
                   then Loads.Ok (JFloat NegInfinity, skipn 9 s)
                   else Loads.Fail
          end
    end.
Proof. destruct s; reflexivity. Qed.

Ltac split_match H :=
  repeat match type of H with
         | context [match ?x with _ => _ end] => destruct x eqn:?; try discriminate H
         end.





End Fuel.

(** ** The scanner within the limits of the interpreter *)

(** A value that an interpreter reads which allows [depth] nested arrays
    and objects and integers of [max_digits] digits. *)
Fixpoint within (F : Type) (max_digits depth : nat) (v : json F) {struct v} : bool :=
  match v with
  | JInt z => negb (Loads.too_long max_digits z)
  | JList l =>
      match depth with
      | O => false
      | S d => forallb (within max_digits d) l
      end
  | JDict ps =>
      match depth with
      | O => false
      | S d => forallb (fun kv : str * json F => within max_digits d (snd kv)) ps
      end
  | _ => true
  end.

(** The outcome of the scanner without limits, as an outcome of the scanner
    with limits. *)
Definition lift (A : Type) (x : Loads.res A) : Loads.outcome A :=
  match x with
  | Loads.Ok a => Loads.Value a
  | Loads.Fail => Loads.Invalid
  | Loads.OutOfFuel => Loads.NoFuel
  end.

(** The two outcomes that come from a limit. *)
Definition limit (A : Type) (x : Loads.outcome A) : Prop :=
  (exists o, x = Loads.TooDeep o) \/ (exists n, x = Loads.TooLong n).

Section LimitedScanner.

Variable F : Type.
Variable float_of_literal : str -> pyfloat F.
Variable max_digits : nat.

Local Abbreviation scan_once := (Loads.scan_once float_of_literal).
Local Abbreviation array_items := (Loads.array_items float_of_literal).
Local Abbreviation object_items := (Loads.object_items float_of_literal).
Local Abbreviation scan_once_in := (Loads.scan_once_in float_of_literal max_digits).
Local Abbreviation array_items_in := (Loads.array_items_in float_of_literal max_digits).
Local Abbreviation object_items_in := (Loads.object_items_in float_of_literal max_digits).
Local Abbreviation decode_in := (Loads.decode_in float_of_literal max_digits).

(** One step of each function. *)
Lemma scan_once_in_eq (f depth : nat) (s : str) :
  scan_once_in (S f) depth s
  = match s with
    | [] => Loads.Invalid
    | c :: r =>
        if (c =? QUOTE)%N then
          match Loads.scanstring r with
          | Some (k, rest) => Loads.Value (JStr k, rest)
          | None => Loads.Invalid
          end
        else if (c =? 123)%N then
          match depth with
          | O => Loads.TooDeep true
          | S d =>
              match r with
              | c1 :: r1 =>
                  if (c1 =? QUOTE)%N then
                    Loads.and_then (object_items_in f d r1)
                      (fun pr => Loads.Value (JDict (dict_of_pairs (fst pr)), snd pr))
                  else
                    match Loads.skip_ws r with
                    | c2 :: r2 =>
                        if (c2 =? 125)%N then Loads.Value (JDict [], r2)
                        else if (c2 =? QUOTE)%N then
                          Loads.and_then (object_items_in f d r2)
                            (fun pr => Loads.Value (JDict (dict_of_pairs (fst pr)), snd pr))
                        else Loads.Invalid
                    | [] => Loads.Invalid
                    end
              | [] => Loads.Invalid
              end
          end
        else if (c =? 91)%N then
          match depth with
          | O => Loads.TooDeep false
          | S d =>
              match Loads.skip_ws r with
              | c1 :: r1 =>
                  if (c1 =? 93)%N then Loads.Value (JList [], r1)
                  else
                    Loads.and_then (array_items_in f d (c1 :: r1))
                      (fun vr => Loads.Value (JList (fst vr), snd vr))
              | [] => Loads.Invalid
              end
          end
        else if startswith s (lit "null") then Loads.Value (JNull, skipn 4 s)
        else if startswith s (lit "true") then Loads.Value (JBool true, skipn 4 s)
        else if startswith s (lit "false") then Loads.Value (JBool false, skipn 5 s)
        else
          match Loads.match_number s with
          | Some (n, rest) => Loads.checked_number float_of_literal max_digits n rest
          | None =>
              if startswith s (lit "NaN") then Loads.Value (JFloat NaN, skipn 3 s)
              else if startswith s (lit "Infinity") then Loads.Value (JFloat Infinity, skipn 8 s)
              else if startswith s (lit "-Infinity")
                   then Loads.Value (JFloat NegInfinity, skipn 9 s)
                   else Loads.Invalid
          end
    end.
Proof. destruct s; reflexivity. Qed.

Lemma array_items_in_eq (f depth : nat) (s : str) :
  array_items_in (S f) depth s
  = Loads.and_then (scan_once_in f depth s)
      (fun vr =>
         match Loads.skip_ws (snd vr) with
         | c :: r1 =>
             if (c =? 93)%N then Loads.Value ([fst vr], r1)
             else if (c =? 44)%N then
               Loads.and_then (array_items_in f depth (Loads.skip_ws r1))
                 (fun more => Loads.Value (fst vr :: fst more, snd more))
             else Loads.Invalid
         | [] => Loads.Invalid
         end).
Proof. reflexivity. Qed.

Lemma object_items_in_eq (f depth : nat) (s : str) :
  object_items_in (S f) depth s
  = match Loads.scanstring s with
    | None => Loads.Invalid
    | Some (key, r) =>
        match Loads.skip_ws r with
        | c :: r1 =>
            if (c =? 58)%N then
              Loads.and_then (scan_once_in f depth (Loads.skip_ws r1))
                (fun vr =>
                   match Loads.skip_ws (snd vr) with
                   | c2 :: r3 =>
                       if (c2 =? 125)%N then Loads.Value ([(key, fst vr)], r3)
                       else if (c2 =? 44)%N then
                         match Loads.skip_ws r3 with
                         | c3 :: r4 =>
                             if (c3 =? QUOTE)%N then
                               Loads.and_then (object_items_in f depth r4)
                                 (fun more =>
                                    Loads.Value ((key, fst vr) :: fst more, snd more))
                             else Loads.Invalid
                         | [] => Loads.Invalid
                         end
                       else Loads.Invalid
                   | [] => Loads.Invalid
                   end)
            else Loads.Invalid
        | [] => Loads.Invalid
        end
    end.
Proof. reflexivity. Qed.

Ltac outcome_found :=
  first [ left; reflexivity
        | right; left; eexists; reflexivity
        | right; right; eexists; reflexivity ].

Ltac refine_step IHs IHa IHo :=
  match goal with
  | |- context [Loads.scan_once_in _ _ ?f ?d ?s] =>
      destruct (IHs d s) as [-> | [[? ->] | [? ->]]]; cbn [Loads.and_then lift]
  | |- context [Loads.array_items_in _ _ ?f ?d ?s] =>
      destruct (IHa d s) as [-> | [[? ->] | [? ->]]]; cbn [Loads.and_then lift]
  | |- context [Loads.object_items_in _ _ ?f ?d ?s] =>
      destruct (IHo d s) as [-> | [[? ->] | [? ->]]]; cbn [Loads.and_then lift]
  | |- context [snd ?p] => is_var p; destruct p; cbn [Loads.and_then lift fst snd]
  | |- context [fst ?p] => is_var p; destruct p; cbn [Loads.and_then lift fst snd]
  | |- context [match ?x with _ => _ end] =>
      destruct x eqn:?; cbn [Loads.and_then lift fst snd]
  end.

(** The scanner with limits gives the outcome of the scanner without
    limits, unless it stops at a limit. *)
Lemma refines (f : nat) :
  (forall d s, scan_once_in f d s = lift (scan_once f s) \/ limit (scan_once_in f d s))
  /\ (forall d s, array_items_in f d s = lift (array_items f s) \/ limit (array_items_in f d s))
  /\ (forall d s,
        object_items_in f d s = lift (object_items f s) \/ limit (object_items_in f d s)).
Proof.
  unfold limit.
  induction f as [|f (IHs & IHa & IHo)]; [repeat split; intros; left; reflexivity|].
  repeat split; intros d s.
  - rewrite scan_once_in_eq, scan_once_eq. unfold Loads.checked_number.
    repeat (try outcome_found; refine_step IHs IHa IHo).
  - rewrite array_items_in_eq, array_items_eq.
    repeat (try outcome_found; refine_step IHs IHa IHo).
  - rewrite object_items_in_eq, object_items_eq.
    repeat (try outcome_found; refine_step IHs IHa IHo).
Qed.

Lemma decode_in_refines (d : nat) (s : str) :
  decode_in d s = lift (Loads.decode float_of_literal s) \/ limit (decode_in d s).
Proof.
  unfold limit, Loads.decode_in, Loads.decode.
  destruct (startswith s [65279%N]); [left; reflexivity|].
  destruct (proj1 (refines (2 * List.length s + 2)) d (Loads.skip_ws s))
    as [-> | [[o ->] | [n ->]]];
    cbn [Loads.and_then]; try outcome_found.
  destruct (scan_once (2 * List.length s + 2) (Loads.skip_ws s)) as [[v r]| |];
    cbn [lift Loads.and_then snd fst]; try outcome_found.
  destruct (Loads.skip_ws r); outcome_found.
Qed.

(** What the interpreter reads within its limits is what [json.loads] reads
    without them. *)
Lemma decode_in_value (d : nat) (s : str) (v : json F) :
  decode_in d s = Loads.Value v -> Loads.json_loads float_of_literal s = Some v.
Proof.
  unfold Loads.json_loads.
  destruct (decode_in_refines d s) as [-> | [[o ->] | [n ->]]]; try discriminate.
  destruct (Loads.decode float_of_literal s); cbn [lift]; congruence.
Qed.

(** The text that the interpreter finds invalid is not JSON. *)
Lemma decode_in_invalid (d : nat) (s : str) :
  decode_in d s = Loads.Invalid -> Loads.json_loads float_of_literal s = None.
Proof.
  unfold Loads.json_loads.
  destruct (decode_in_refines d s) as [-> | [[o ->] | [n ->]]]; try discriminate.
  destruct (Loads.decode float_of_literal s); cbn [lift]; congruence.
Qed.


Ltac split_match H :=
  repeat match type of H with
         | context [match ?x with _ => _ end] => destruct x eqn:?; try discriminate H
         end.

Lemma within_dict (d : nat) (ps : list (str * json F)) :
  forallb (fun kv : str * json F => within max_digits d (snd kv)) ps = true ->
  within max_digits (S d) (JDict (dict_of_pairs ps)) = true.
Proof.
  intros H. cbn [within]. apply forallb_forall. intros kv Hin.
  assert (Forall (fun kv : str * json F => within max_digits d (snd kv) = true) ps) as Hall.
  { apply Forall_forall. intros x Hx. rewrite forallb_forall in H. now apply H. }
  apply (dict_of_pairs_wf (fun v => within max_digits d v = true)) in Hall as [_ Hall].
  rewrite Forall_forall in Hall. now apply Hall.
Qed.

(** What the scanner reads is within the limits. *)
Lemma scan_in_within (f : nat) :
  (forall d s v r, scan_once_in f d s = Loads.Value (v, r) -> within max_digits d v = true)
  /\ (forall d s vs r, array_items_in f d s = Loads.Value (vs, r) ->
        forallb (within max_digits d) vs = true)
  /\ (forall d s ps r, object_items_in f d s = Loads.Value (ps, r) ->
        forallb (fun kv : str * json F => within max_digits d (snd kv)) ps = true).
Proof.
  induction f as [|f (IHs & IHa & IHo)]; [repeat split; discriminate|].
  repeat split.
  - intros d s v r H. rewrite scan_once_in_eq in H.
    unfold Loads.and_then, Loads.checked_number in H.
    split_match H; injection H as <- <-; try reflexivity;
      try match goal with
          | E : @Loads.number_value _ _ ?n = _ |- _ =>
              unfold Loads.number_value in E;
              destruct (Loads.num_frac n), (Loads.num_exp n); discriminate E
          end;
      try match goal with a : (_ * _)%type |- _ => destruct a end; cbn [fst snd].
    + apply within_dict. eapply IHo; eassumption.
    + apply within_dict. eapply IHo; eassumption.
    + cbn [within]. eapply IHa; eassumption.
    + cbn [within]. now apply negb_true_iff.
  - intros d s vs r H. rewrite array_items_in_eq in H. unfold Loads.and_then in H.
    split_match H; injection H as <- <-;
      repeat match goal with a : (_ * _)%type |- _ => destruct a end;
      cbn [forallb fst snd] in *;
      repeat match goal with
             | E : @Loads.scan_once_in _ _ _ _ _ _ = Loads.Value _ |- _ =>
                 apply IHs in E; rewrite E
             | E : @Loads.array_items_in _ _ _ _ _ _ = Loads.Value _ |- _ =>
                 apply IHa in E; rewrite E
             end; reflexivity.
  - intros d s ps r H. rewrite object_items_in_eq in H. unfold Loads.and_then in H.
    split_match H; injection H as <- <-;
      repeat match goal with a : (_ * _)%type |- _ => destruct a end;
      cbn [forallb fst snd] in *;
      repeat match goal with
             | E : @Loads.scan_once_in _ _ _ _ _ _ = Loads.Value _ |- _ =>
                 apply IHs in E; rewrite E
             | E : @Loads.object_items_in _ _ _ _ _ _ = Loads.Value _ |- _ =>
                 apply IHo in E; rewrite E
             end; reflexivity.
Qed.

Lemma decode_in_within (d : nat) (s : str) (v : json F) :
  decode_in d s = Loads.Value v -> within max_digits d v = true.
Proof.
  unfold Loads.decode_in, Loads.and_then. intros H. split_match H. injection H as <-.
  destruct a as [v r]. cbn [fst].
  exact (proj1 (scan_in_within _) _ _ _ _ Heqo).
Qed.

End LimitedScanner.

(** ** Within the limits, what [json.dumps] writes, [json.loads] reads back *)

Section LimitedRoundTrip.

Variable F : Type.
Variable float_of_literal : str -> pyfloat F.
Variable float_repr : F -> str.
Variable indent : option nat.
Variable max_digits : nat.

Hypothesis repr_literal : forall x, is_float_literal (float_repr x) = true.
Hypothesis repr_float : forall x, float_of_literal (float_repr x) = Finite x.

Local Abbreviation scan_once_in := (Loads.scan_once_in float_of_literal max_digits).
Local Abbreviation array_items_in := (Loads.array_items_in float_of_literal max_digits).
Local Abbreviation object_items_in := (Loads.object_items_in float_of_literal max_digits).
Local Abbreviation enc := (Dumps.iterencode float_repr indent).
Local Abbreviation inside := (within max_digits).

Lemma scan_in_number (f d : nat) (c : char) (r : str) (n : Loads.number) (rest : str) :
  number_start c = true ->
  Loads.match_number (c :: r) = Some (n, rest) ->
  scan_once_in (S f) d (c :: r) = Loads.checked_number float_of_literal max_digits n rest.
Proof.
  intros Hc Hm. apply number_start_cases in Hc.
  cbn [In] in Hc.
  repeat (destruct Hc as [<-|Hc];
          [cbn -[Loads.match_number Loads.checked_number]; rewrite Hm; reflexivity|]).
  contradiction.
Qed.

Lemma scan_in_repr (f d : nat) (z : Z) (rest : str) :
  delim_start rest = true ->
  Loads.too_long max_digits z = false ->
  scan_once_in (S f) d (Dec.repr z ++ rest) = Loads.Value (JInt z, rest).
Proof.
  intros Hr Hz. destruct (match_number_repr float_of_literal z) as (n & Hn & Hv).
  destruct (repr_start z) as (c & s & Hs & Hc).
  pose proof (match_number_app (Dec.repr z) rest (delim_number_stop _ Hr)) as Ha.
  rewrite Hn in Ha. rewrite Hs in *. cbn [app] in *.
  rewrite (@scan_in_number f d c (s ++ rest) n rest Hc Ha).
  unfold Loads.checked_number. now rewrite Hv, Hz.
Qed.

Lemma scan_in_float_repr (f d : nat) (x : F) (rest : str) :
  delim_start rest = true ->
  scan_once_in (S f) d (float_repr x ++ rest) = Loads.Value (JFloat (Finite x), rest).
Proof.
  intros Hr. pose proof (repr_literal x) as Hl. unfold is_float_literal in Hl.
  destruct (Loads.match_number (float_repr x)) as [[n [|c' r']]|] eqn:Hn; try discriminate.
  pose proof (match_number_split _ Hn) as Ht. rewrite app_nil_r in Ht.
  destruct (match_number_start _ Hn) as (c & s & Hs & Hc).
  pose proof (match_number_app (float_repr x) rest (delim_number_stop _ Hr)) as Ha.
  rewrite Hn in Ha. rewrite Hs in Ha. cbn [app] in Ha.
  rewrite Hs. cbn [app]. rewrite (@scan_in_number f d c (s ++ rest) n rest Hc Ha).
  unfold Loads.checked_number, Loads.number_value.
  rewrite Ht, repr_float.
  destruct (Loads.num_frac n), (Loads.num_exp n); try reflexivity; discriminate.
Qed.

Lemma scan_in_string (f d : nat) (s rest : str) :
  scan_once_in (S f) d (Dumps.encode_basestring s ++ rest) = Loads.Value (JStr s, rest).
Proof.
  destruct (scan_basestring s rest) as (r & -> & Hr).
  cbn [Loads.scan_once_in]. change (QUOTE =? QUOTE)%N with true. cbv iota. now rewrite Hr.
Qed.

Lemma scan_in_array_eq (f d : nat) (r : str) :
  scan_once_in (S f) (S d) (91%N :: r)
  = match Loads.skip_ws r with
    | c1 :: r1 =>
        if (c1 =? 93)%N then Loads.Value (JList [], r1)
        else
          Loads.and_then (array_items_in f d (c1 :: r1))
            (fun vr => Loads.Value (JList (fst vr), snd vr))
    | [] => Loads.Invalid
    end.
Proof. reflexivity. Qed.

Lemma scan_in_object (f d : nat) (a body : str) :
  forallb Loads.is_ws a = true ->
  scan_once_in (S f) (S d) (123%N :: a ++ QUOTE :: body)
  = Loads.and_then (object_items_in f d body)
      (fun pr => Loads.Value (JDict (dict_of_pairs (fst pr)), snd pr)).
Proof.
  intros Ha. destruct a as [|c a]; [reflexivity|].
  cbn [forallb] in Ha. apply andb_true_iff in Ha as [Hc Ha].
  rewrite scan_once_in_eq. cbn [app]. change (123 =? QUOTE)%N with false.
  change (123 =? 123)%N with true. cbv iota.
  rewrite (is_ws_not_quote _ Hc).
  cbn [Loads.skip_ws]. rewrite Hc, (skip_ws_app _ _ Ha).
  rewrite skip_ws_stop by reflexivity.
  change (QUOTE =? 125)%N with false. change (QUOTE =? QUOTE)%N with true.
  reflexivity.
Qed.

(** What the round trip of one value says. *)
Definition reads_back_in (v : json F) : Prop :=
  forall (level fuel d : nat) (rest : str),
    delim_start rest = true -> (size v <= fuel)%nat -> inside d v = true ->
    scan_once_in fuel d (enc level v ++ rest) = Loads.Value (v, rest).

Lemma array_items_in_reads_back (level d : nat) (rest : str) (l : list (json F)) :
  l <> [] -> Forall reads_back_in l -> forallb (inside d) l = true ->
  forall f, (size_items l <= f)%nat ->
    array_items_in f d
      (join (Dumps.item_separator indent ++ Dumps.newline_indent indent (S level))
         (map (enc (S level)) l)
       ++ Dumps.newline_indent indent level ++ 93%N :: rest)
    = Loads.Value (l, rest).
Proof.
  destruct (separator_shape indent (S level)) as (a & -> & Ha).
  induction l as [|x l IH]; [congruence|]. intros _ Hall Hin f Hf.
  inversion Hall as [|? ? Hx Hl]; subst.
  cbn [forallb] in Hin. apply andb_true_iff in Hin as [Hinx Hinl].
  cbn [size_items fold_right] in Hf. fold (size_items l) in Hf.
  destruct f as [|f]; [lia|]. rewrite array_items_in_eq.
  destruct l as [|y l].
  - cbn [map join].
    rewrite (Hx (S level) f d _ (newline_indent_delim indent level 93%N rest eq_refl))
      by (lia || assumption).
    cbn [Loads.and_then fst snd].
    rewrite (skip_ws_app _ _ (newline_indent_ws indent level)).
    rewrite skip_ws_stop by reflexivity. reflexivity.
  - change (map (enc (S level)) (x :: y :: l))
      with (enc (S level) x :: map (enc (S level)) (y :: l)).
    cbn [map]. rewrite join_cons2.
    rewrite <- !app_assoc. cbn [app].
    unfold reads_back_in in Hx. rewrite (Hx (S level) f d) by (reflexivity || lia || assumption).
    cbn [Loads.and_then fst snd].
    rewrite skip_ws_stop by reflexivity.
    change (44 =? 93)%N with false. change (44 =? 44)%N with true. cbv iota.
    assert (Loads.skip_ws
              (a ++ join (44%N :: a) (enc (S level) y :: map (enc (S level)) l)
                 ++ Dumps.newline_indent indent level ++ 93%N :: rest)
            = join (44%N :: a) (enc (S level) y :: map (enc (S level)) l)
                ++ Dumps.newline_indent indent level ++ 93%N :: rest) as ->.
    { destruct l as [|y' l].
      - cbn [map join]. now apply skip_ws_enc.
      - cbn [map]. rewrite join_cons2, <- !app_assoc. now apply skip_ws_enc. }
    specialize (IH ltac:(discriminate) Hl Hinl f).
    cbn [map] in IH. rewrite IH; [reflexivity|].
    cbn [size_items fold_right] in *. lia.
Qed.

Lemma object_items_in_reads_back (level dp : nat) (rest : str) (d : list (str * json F)) :
  d <> [] -> Forall (fun kv => reads_back_in (snd kv)) d ->
  forallb (fun kv : str * json F => inside dp (snd kv)) d = true ->
  exists body,
    join (Dumps.item_separator indent ++ Dumps.newline_indent indent (S level))
      (map (item_text float_repr indent level) d)
    ++ Dumps.newline_indent indent level ++ 125%N :: rest
    = QUOTE :: body
    /\ forall f, (size_pairs d <= f)%nat -> object_items_in f dp body = Loads.Value (d, rest).
Proof.
  destruct (separator_shape indent (S level)) as (a & -> & Ha).
  induction d as [|[k v] d IH]; [congruence|]. intros _ Hall Hin.
  inversion Hall as [|? ? Hv Hd]; subst. cbn [snd] in Hv. unfold reads_back_in in Hv.
  cbn [forallb snd] in Hin. apply andb_true_iff in Hin as [Hinv Hind].
  destruct d as [|kv d].
  - eexists. split.
    + cbn [map join item_text]. unfold Dumps.encode_basestring.
      change Dumps.key_separator with [58%N; 32%N].
      cbn [app]. rewrite <- !app_assoc. cbn [app]. reflexivity.
    + intros f Hf. cbn [size_pairs fold_right snd] in Hf.
      destruct f as [|f]; [lia|]. rewrite object_items_in_eq.
      cbn [app]. rewrite scanstring_escaped.
      rewrite skip_ws_stop by reflexivity. change (58 =? 58)%N with true. cbv iota.
      rewrite (@skip_space_enc F float_repr indent repr_literal).
      rewrite (Hv (S level) f dp _ (newline_indent_delim indent level 125%N rest eq_refl))
        by (lia || assumption).
      cbn [Loads.and_then fst snd].
      rewrite (skip_ws_app _ _ (newline_indent_ws indent level)).
      rewrite skip_ws_stop by reflexivity. reflexivity.
  - destruct (IH ltac:(discriminate) Hd Hind) as (body & Hbody & Hread).
    eexists. split.
    + cbn [map] in Hbody |- *. rewrite join_cons2.
      unfold item_text at 1. unfold Dumps.encode_basestring.
      change Dumps.key_separator with [58%N; 32%N].
      cbn [app]. rewrite <- !app_assoc. cbn [app]. rewrite <- !app_assoc.
      rewrite Hbody. reflexivity.
    + intros f Hf. rewrite (size_pairs_cons (k, v)) in Hf. cbn [snd] in Hf.
      destruct f as [|f]; [lia|]. rewrite object_items_in_eq.
      rewrite scanstring_escaped.
      rewrite skip_ws_stop by reflexivity. change (58 =? 58)%N with true. cbv iota.
      rewrite (@skip_space_enc F float_repr indent repr_literal).
      rewrite (Hv (S level) f dp) by (reflexivity || lia || assumption).
      cbn [Loads.and_then fst snd].
      rewrite skip_ws_stop by reflexivity.
      change (44 =? 125)%N with false. change (44 =? 44)%N with true. cbv iota.
      rewrite (skip_ws_app _ _ Ha), skip_ws_stop by reflexivity.
      change (QUOTE =? QUOTE)%N with true. cbv iota.
      rewrite Hread by lia. reflexivity.
Qed.

(** Every value with distinct keys that is within the limits is read back
    from the text written for it, whatever follows it in a written text. *)
Lemma reads_back_in_all (v : json F) : wf v -> reads_back_in v.
Proof.
  induction v as [| b | z | x | s | l IH | d IH] using json_induction;
    intros Hwf level fuel dp rest Hr Hf Hin; (destruct fuel as [|f];
     [exfalso; revert Hf; first [rewrite size_list | rewrite size_dict | cbn [size]]; lia|]).
  - reflexivity.
  - destruct b; reflexivity.
  - apply scan_in_repr; [assumption|]. cbn [within] in Hin. now apply negb_true_iff.
  - destruct x; try reflexivity. now apply scan_in_float_repr.
  - apply scan_in_string.
  - apply wf_list in Hwf.
    assert (Forall reads_back_in l) as Hall.
    { clear Hf Hin. induction l as [|x l IHl]; constructor; inversion IH; inversion Hwf; subst; auto. }
    destruct dp as [|dp]; [discriminate|]. cbn [within] in Hin.
    destruct l as [|x l]; [reflexivity|].
    rewrite size_list in Hf.
    rewrite enc_list_eq. cbn [app]. rewrite <- !app_assoc. cbn [app].
    rewrite scan_in_array_eq, (skip_ws_app _ _ (newline_indent_ws indent (S level))).
    destruct (@items_start F float_repr indent repr_literal (S level)
                (Dumps.item_separator indent ++ Dumps.newline_indent indent (S level))
                (Dumps.newline_indent indent level ++ 93%N :: rest) x l)
      as (c & r & Hcr & Hc).
    pose proof (@array_items_in_reads_back level dp rest (x :: l) ltac:(discriminate) Hall Hin
                  f ltac:(lia)) as Harr.
    rewrite Hcr in *. apply value_start_facts in Hc as (Hw & H93 & _).
    rewrite (skip_ws_stop _ _ Hw), H93, Harr. reflexivity.
  - apply wf_dict in Hwf as [Hnd Hwf].
    assert (Forall (fun kv => reads_back_in (snd kv)) d) as Hall.
    { clear Hf Hnd Hin. induction d as [|x d IHd]; constructor; inversion IH; inversion Hwf; subst; auto. }
    destruct dp as [|dp]; [discriminate|]. cbn [within] in Hin.
    destruct d as [|kv d]; [reflexivity|].
    rewrite size_dict in Hf.
    rewrite enc_dict_eq. cbn [app]. rewrite <- !app_assoc. cbn [app].
    destruct (@object_items_in_reads_back level dp rest (kv :: d) ltac:(discriminate) Hall Hin)
      as (body & -> & Hread).
    rewrite (scan_in_object _ _ _ _ (newline_indent_ws indent (S level))).
    rewrite Hread by lia. cbn [Loads.and_then fst snd].
    now rewrite (dict_of_pairs_distinct _ Hnd).
Qed.

(** [json.loads(json.dumps(v, indent=indent, ensure_ascii=False))] is [v]
    in an interpreter whose limits [v] is within. *)
Lemma loads_dumps_in (depth : nat) (v : json F) :
  wf v -> inside depth v = true ->
  Loads.decode_in float_of_literal max_digits depth (Dumps.json_dumps float_repr indent v)
  = Loads.Value v.
Proof.
  intros Hwf Hin. unfold Loads.decode_in, Dumps.json_dumps.
  pose proof (@size_le_length F float_repr indent repr_literal v 0) as Hsize.
  pose proof (@reads_back_in_all v Hwf) as Hread.
  specialize (Hread 0%nat (2 * List.length (enc 0 v) + 2)%nat depth [] eq_refl ltac:(lia) Hin).
  rewrite app_nil_r in Hread.
  destruct (@enc_start F float_repr indent repr_literal 0 v) as (c & r & Hcr & Hc).
  apply value_start_facts in Hc as (Hw & _ & _ & Hbom).
  rewrite Hcr in *.
  cbn [startswith]. rewrite Hbom. cbn [andb].
  rewrite (skip_ws_stop _ _ Hw), Hread. reflexivity.
Qed.

End LimitedRoundTrip.


(** ** The answers of the service *)

(** A value of [json.loads] in the interpreter of the run is a value of the
    decoder within the limits of that interpreter, hence a value of the
    decoder without limits. *)
Lemma json_loads_in_value (F : Type) (float_of_literal : str -> pyfloat F) (w : World)
    (s : str) (v : json F) :
  json_loads_in float_of_literal w s = inr v ->
  Loads.decode_in float_of_literal (int_max_str_digits w) (max_nesting w) s = Loads.Value v.
Proof.
  unfold json_loads_in.
  destruct (Loads.decode_in float_of_literal (int_max_str_digits w) (max_nesting w) s);
    intros H; try discriminate H. now injection H as <-.
Qed.

Lemma json_loads_in_loads (F : Type) (float_of_literal : str -> pyfloat F) (w : World)
    (s : str) (v : json F) :
  json_loads_in float_of_literal w s = inr v -> json_loads float_of_literal s = Some v.
Proof.
  intros H. apply json_loads_in_value in H. exact (decode_in_value _ _ _ _ H).
Qed.

Section Answers.

Variable F : Type.
Variable float_of_literal : str -> pyfloat F.
Variable float_repr : F -> str.
Variable w : World.

Local Abbreviation parse := (parse_invoice_to_json float_of_literal w).
Local Abbreviation run := (main float_of_literal float_repr w).

(** X11: an answer with no choice, or whose first choice has no content, is
    reported as a failure of the call, after the one call. *)
Theorem answer_without_content
    (self : PDFInvoiceScanner) (pdf_text : str) (choices : list (option str))
    (t : list event) :
  chat_create w (api_key self) (Prompt.request_for pdf_text) = inr choices ->
  hd None choices = None ->
  parse self pdf_text t
  = (inl (Chained Exception Msg.calling_api
            (match choices with
             | [] => Raised (Other (lit "IndexError")) Msg.index_error
             | _ :: _ => Raised (Other (lit "AttributeError")) Msg.attribute_error
             end)),
     t ++ [ChatCreate (api_key self) (Prompt.request_for pdf_text)]).
Proof.
  intros Hc Hd. unfold parse_invoice_to_json, try_except, bind, emit, raise.
  rewrite Hc. destruct choices as [|[c|] cs]; [reflexivity|discriminate|reflexivity].
Qed.

Lemma clean_blank (content : str) :
  forallb isspace content = true -> clean_json_text content = [].
Proof. intros H. unfold clean_json_text. now rewrite (strip_blank _ H). Qed.

(** X12: an empty or blank answer is reported as malformed JSON. *)
Theorem blank_answer_is_malformed
    (self : PDFInvoiceScanner) (pdf_text content : str) (cs : list (option str))
    (t : list event) :
  chat_create w (api_key self) (Prompt.request_for pdf_text) = inr (Some content :: cs) ->
  forallb isspace content = true ->
  parse self pdf_text t
  = (inl (Chained ValueError Msg.parsing_json (DecodeError [])),
     t ++ [ChatCreate (api_key self) (Prompt.request_for pdf_text)]).
Proof.
  intros Hc Hb. unfold parse_invoice_to_json, try_except, bind, emit, raise.
  rewrite Hc, (clean_blank _ Hb). reflexivity.
Qed.

(** A result is what [json.loads] reads in the cleaned text of the first
    choice. *)
Lemma parse_result (self : PDFInvoiceScanner) (pdf_text : str) (t : list event)
    (v : json F) :
  fst (parse self pdf_text t) = inr v ->
  exists content cs,
    chat_create w (api_key self) (Prompt.request_for pdf_text) = inr (Some content :: cs)
    /\ json_loads_in float_of_literal w (clean_json_text content) = inr v.
Proof.
  unfold parse_invoice_to_json, try_except, bind, emit, raise, ret.
  destruct (chat_create w (api_key self) (Prompt.request_for pdf_text)) as [e|[|[c|] cs]];
    cbn; try (destruct (is_JSONDecodeError e)); try discriminate.
  destruct (json_loads_in float_of_literal w (clean_json_text c)) as [e|v'] eqn:E;
    cbn; [destruct (is_JSONDecodeError e); discriminate|].
  intros [= <-]. now exists c, cs.
Qed.

(** X13: what a run with status 0 has printed or written to the output file,
    compact or indented, reads back as JSON to the value read in the
    answer.  The finite floats are assumed to be written by
    [float.__repr__] as numbers with a fraction or an exponent that [float]
    reads back as the same float. *)
Theorem run_output_reads_back (args : Args) :
  (forall x, is_float_literal (float_repr x) = true) ->
  (forall x, float_of_literal (float_repr x) = Finite x) ->
  fst (run args) = 0%Z ->
  exists k request content cs json_output v,
    calls (snd (run args)) = [(k, request)]
    /\ chat_create w k request = inr (Some content :: cs)
    /\ json_loads float_of_literal (clean_json_text content) = Some v
    /\ In (delivered args json_output) (snd (run args))
    /\ json_loads float_of_literal json_output = Some v.
Proof.
  intros Hlit Hfloat.
  destruct (extract_text_quiet w (pdf_file args)) as [Hxc Hxs].
  destruct (main_run_shape float_of_literal float_repr w args)
    as [Hf|Hf Hk|e Hf Hk Hx|pdf_text Hf Hk Hx Hs|k pdf_text e Hf Hk Hne Hx Hs Hp
       |k pdf_text v e t1 Hf Hk Hne Hx Hs Hp Hc He Hd|k pdf_text v t1 Hf Hk Hne Hx Hs Hp Hc He Hd];
    cbn [fst snd]; try discriminate.
  intros _. destruct (parse_result _ _ _ Hp) as (content & cs & Hcall & Hv).
  cbn [api_key] in Hcall. apply json_loads_in_loads in Hv.
  exists k, (Prompt.request_for pdf_text), content, cs,
    (json_dumps float_repr (if pretty args then Some 2%nat else None) v), v.
  repeat split.
  - unfold before_call. rewrite !calls_app, Hxc, Hc. reflexivity.
  - exact Hcall.
  - exact Hv.
  - apply in_or_app. right. apply in_or_app. now right.
  - apply loads_dumps; try assumption. exact (json_loads_wf _ _ Hv).
Qed.

End Answers.

Definition no_choice : World :=
  {| isfile := fun _ => true;
     read_pdf := fun _ => inr [inr (lit "Invoice 42")];
     environ_key := Some (lit "sk-test");
     dotenv_key := None;
     chat_create := fun _ _ => inr [];
     open_write := fun _ => None;
     max_nesting := 990;
     int_max_str_digits := 4300;
     stdout_encodes := fun s => negb (existsb is_surrogate s) |}.

Lemma answer_without_content_witness :
  parse_invoice_to_json unit_float_of_literal no_choice test_scanner (lit "Invoice 42") []
  = (inl (Chained Exception Msg.calling_api
            (Raised (Other (lit "IndexError")) Msg.index_error)),
     [ChatCreate (lit "sk-test") (Prompt.request_for (lit "Invoice 42"))]).
Proof.
  apply (@answer_without_content unit unit_float_of_literal no_choice test_scanner
           (lit "Invoice 42") [] []); reflexivity.
Defined.

Definition blank_answer : World :=
  {| isfile := fun _ => true;
     read_pdf := fun _ => inr [inr (lit "Invoice 42")];
     environ_key := Some (lit "sk-test");
     dotenv_key := None;
     chat_create := fun _ _ => inr [Some [32%N; LF]];
     open_write := fun _ => None;
     max_nesting := 990;
     int_max_str_digits := 4300;
     stdout_encodes := fun s => negb (existsb is_surrogate s) |}.

Lemma blank_answer_witness :
  parse_invoice_to_json unit_float_of_literal blank_answer test_scanner (lit "Invoice 42") []
  = (inl (Chained ValueError Msg.parsing_json (DecodeError [])),
     [ChatCreate (lit "sk-test") (Prompt.request_for (lit "Invoice 42"))]).
Proof.
  apply (@blank_answer_is_malformed unit unit_float_of_literal blank_answer test_scanner
           (lit "Invoice 42") [32%N; LF] [] []); reflexivity.
Defined.

Lemma run_output_witness :
  exists k request content cs json_output v,
    calls (snd (main unit_float_of_literal unit_float_repr two_pages
                  (args_pretty_to (lit "a.pdf") (lit "out.json"))))
    = [(k, request)]
    /\ chat_create two_pages k request = inr (Some content :: cs)
    /\ json_loads unit_float_of_literal (clean_json_text content) = Some v
    /\ In (delivered (args_pretty_to (lit "a.pdf") (lit "out.json")) json_output)
          (snd (main unit_float_of_literal unit_float_repr two_pages
                  (args_pretty_to (lit "a.pdf") (lit "out.json"))))
    /\ json_loads unit_float_of_literal json_output = Some v.
Proof.
  apply (@run_output_reads_back unit unit_float_of_literal unit_float_repr two_pages
           (args_pretty_to (lit "a.pdf") (lit "out.json"))).
  - intros []. reflexivity.
  - intros []. reflexivity.
  - reflexivity.
Defined.

(** ** The compact output *)

Lemma join_in (sep : str) (l : list str) (c : char) :
  In c (join sep l) -> In c sep \/ exists x, In x l /\ In c x.
Proof.
  induction l as [|x l IH]; [intros []|].
  destruct l as [|y l].
  - cbn [join]. intros H. right. exists x. split; [now left|exact H].
  - change (join sep (x :: y :: l)) with (x ++ sep ++ join sep (y :: l)).
    rewrite !in_app_iff. intros [H|[H|H]].
    + right. exists x. split; [now left|exact H].
    + now left.
    + destruct (IH H) as [Hs|(z & Hz & Hc)]; [now left|].
      right. exists z. split; [now right|exact Hc].
Qed.

Lemma of_uint_digits (u : Decimal.uint) (c : char) :
  In c (Dec.of_uint u) -> Dec.is_digit c = true.
Proof.
  induction u; cbn [Dec.of_uint In]; intros H; try contradiction;
    (destruct H as [<-|H']; [reflexivity|now apply IHu]).
Qed.

Lemma repr_no_line_feed (z : Z) : ~ In LF (Dec.repr z).
Proof.
  unfold Dec.repr. destruct (Z.to_int z) as [u|u]; cbn [In]; intros H.
  - now apply of_uint_digits in H.
  - destruct H as [H'|H']; [discriminate|now apply of_uint_digits in H'].
Qed.

Lemma hex_digit_ge (n : N) : (48 <= Dumps.hex_digit n)%N.
Proof. unfold Dumps.hex_digit. destruct (N.ltb_spec n 10); lia. Qed.

Lemma escape_char_no_line_feed (c : char) : ~ In LF (Dumps.escape_char c).
Proof.
  unfold Dumps.escape_char, LF.
  destruct (N.eqb_spec c 34); [cbn; intuition discriminate|].
  destruct (N.eqb_spec c 92); [cbn; intuition discriminate|].
  destruct (N.eqb_spec c 10); [cbn; intuition discriminate|].
  destruct (N.eqb_spec c 13); [cbn; intuition discriminate|].
  destruct (N.eqb_spec c 9); [cbn; intuition discriminate|].
  destruct (N.eqb_spec c 8); [cbn; intuition discriminate|].
  destruct (N.eqb_spec c 12); [cbn; intuition discriminate|].
  destruct (N.ltb_spec c 32).
  - cbn [In]. pose proof (hex_digit_ge (c / 16)) as H1.
    pose proof (hex_digit_ge (c mod 16)) as H2.
    intros [E|[E|[E|[E|[E|[E|[]]]]]]]; try discriminate; lia.
  - cbn [In]. intros [E|[]]. congruence.
Qed.

Lemma encode_basestring_no_line_feed (s : str) : ~ In LF (Dumps.encode_basestring s).
Proof.
  unfold Dumps.encode_basestring. cbn [In]. rewrite in_app_iff, in_flat_map.
  intros [H|[(c & _ & H)|[H|[]]]]; try discriminate.
  exact (@escape_char_no_line_feed c H).
Qed.

Section OneLine.

Variable F : Type.
Variable float_repr : F -> str.

(** [float.__repr__] writes no line feed. *)
Hypothesis repr_line : forall x, ~ In LF (float_repr x).

Lemma iterencode_no_line_feed (v : json F) :
  forall level, ~ In LF (Dumps.iterencode float_repr None level v).
Proof.
  induction v as [|b|z|f|s|l IH|d IH] using json_induction; intros level.
  - cbn. unfold LF. intuition discriminate.
  - destruct b; cbn; unfold LF; intuition discriminate.
  - apply repr_no_line_feed.
  - destruct f as [| | |x]; [cbn; unfold LF; intuition discriminate..|apply repr_line].
  - apply encode_basestring_no_line_feed.
  - destruct l as [|x l]; [cbn; unfold LF; intuition discriminate|].
    rewrite (@enc_list_eq F float_repr None level x l). cbn [Dumps.newline_indent app In].
    rewrite in_app_iff. intros [H|[H|[H|[]]]]; try discriminate.
    apply join_in in H as [H|(y & Hy & H)].
    + rewrite app_nil_r in H. cbn in H. unfold LF in H. intuition discriminate.
    + apply in_map_iff in Hy as (x' & <- & Hx').
      rewrite Forall_forall in IH. exact (IH x' Hx' (S level) H).
  - destruct d as [|kv d]; [cbn; unfold LF; intuition discriminate|].
    rewrite (@enc_dict_eq F float_repr None level kv d). cbn [Dumps.newline_indent app In].
    rewrite in_app_iff. intros [H|[H|[H|[]]]]; try discriminate.
    apply join_in in H as [H|(y & Hy & H)].
    + rewrite app_nil_r in H. cbn in H. unfold LF in H. intuition discriminate.
    + apply in_map_iff in Hy as ([k x'] & <- & Hx').
      unfold item_text in H. rewrite !in_app_iff in H. destruct H as [H|[H|H]].
      * exact (@encode_basestring_no_line_feed k H).
      * cbn in H. unfold LF in H. intuition discriminate.
      * rewrite Forall_forall in IH. exact (IH (k, x') Hx' (S level) H).
Qed.

(** X14: without [--pretty] the serialized result is one line. *)
Theorem compact_output_one_line (v : json F) : ~ In LF (json_dumps float_repr None v).
Proof. apply iterencode_no_line_feed. Qed.

End OneLine.

Lemma compact_output_witness : ~ In LF (json_dumps unit_float_repr None sample_result).
Proof.
  apply (@compact_output_one_line unit unit_float_repr).
  intros [] H. vm_compute in H. intuition discriminate.
Defined.

(** ** A result that cannot be saved *)

Definition file_event (ev : event) : bool :=
  match ev with
  | FileCreated _ | FileWritten _ _ => true
  | _ => false
  end.

Lemma file_content_others (path : str) (t t' : list event) (before : option str) :
  forallb (fun ev => negb (file_event ev)) t = true ->
  file_content path (t ++ t') before = file_content path t' before.
Proof.
  induction t as [|ev t IH]; [reflexivity|]. cbn [forallb app]. intros H.
  apply andb_true_iff in H as [Hev Ht]. destruct ev; try discriminate; now apply IH.
Qed.

Lemma extract_pages_no_file_event (pages : list (exn + str)) (n : nat) :
  forallb (fun ev => negb (file_event ev)) (snd (extract_pages n pages [])) = true.
Proof.
  revert n. induction pages as [|p pages IH]; intros n; [reflexivity|].
  cbn [extract_pages]. unfold bind, emit, raise. cbn [app].
  destruct p as [e|x]; [reflexivity|].
  rewrite (extract_pages_trace pages (S n) [ExtractPage n]).
  specialize (IH (S n)).
  destruct (extract_pages (S n) pages []) as [[e|texts] t']; cbn in *; exact IH.
Qed.

Lemma extract_text_no_file_event (w : World) (pdf_path : str) :
  forallb (fun ev => negb (file_event ev)) (snd (extract_text_from_pdf w pdf_path [])) = true.
Proof.
  unfold extract_text_from_pdf, try_except, bind, emit, raise. cbn [app].
  destruct (read_pdf w pdf_path) as [e|pages].
  - destruct (is_FileNotFoundError e); reflexivity.
  - rewrite (extract_pages_trace pages 0 [OpenPdf pdf_path]).
    pose proof (extract_pages_no_file_event pages 0) as Hd.
    destruct (extract_pages 0 pages []) as [[e|texts] t']; cbn in *;
      [destruct (is_FileNotFoundError e)|]; cbn; exact Hd.
Qed.

Section FailedOutput.

Variable F : Type.
Variable float_of_literal : str -> pyfloat F.
Variable float_repr : F -> str.
Variable w : World.

Local Abbreviation parse := (parse_invoice_to_json float_of_literal w).
Local Abbreviation run := (main float_of_literal float_repr w).

(** A run that has read a value in the answer goes on to save or print
    it. *)
Lemma main_after_scan (args : Args) (k pdf_text : str) (v : json F) :
  isfile w (pdf_file args) = true ->
  py_or (arg_api_key args) (getenv_key w) = Some k -> k <> [] ->
  fst (extract_text_from_pdf w (pdf_file args) []) = inr pdf_text ->
  strip pdf_text <> [] ->
  fst (parse {| api_key := k |} pdf_text []) = inr v ->
  run args
  = match save_or_print float_repr w args v
            (before_call w args ++ [ChatCreate k (Prompt.request_for pdf_text)]) with
    | (inr _, t) => (0%Z, t)
    | (inl e, t) => (1%Z, t ++ [PrintErr (TextExn Msg.cli_error e)])
    end.
Proof.
  intros Hf Hk Hne Hx Hs Hp. destruct k as [|c k]; [contradiction|].
  unfold main. rewrite Hf. cbn [negb]. unfold bind at 1.
  rewrite (@init_key w (arg_api_key args) c k [] Hk). cbn [app]. unfold bind at 1.
  rewrite (@scan_text F float_of_literal w {| api_key := c :: k |} (pdf_file args)
             pdf_text [LoadDotenv] Hx Hs).
  cbn [app].
  change (LoadDotenv :: Print (Text (Msg.progress_extract ++ pdf_file args))
            :: snd (extract_text_from_pdf w (pdf_file args) [])
            ++ [Print (Text Msg.progress_parse)])
    with (before_call w args).
  rewrite (surjective_pairing (parse {| api_key := c :: k |} pdf_text (before_call w args))).
  rewrite (@parse_trace F float_of_literal w), (parse_fst_trace float_of_literal w), Hp.
  reflexivity.
Qed.

Lemma before_call_no_file_event (args : Args) :
  forallb (fun ev => negb (file_event ev)) (before_call w args) = true.
Proof.
  unfold before_call. rewrite !forallb_app, extract_text_no_file_event. reflexivity.
Qed.

(** X16: when the output file cannot be opened, the run ends with status 1 after
    the call of the service: the result is neither written nor printed, and
    the error of [open] is the line on the error stream. *)
Theorem unwritable_output_loses_result
    (args : Args) (k pdf_text : str) (v : json F) (c : char) (p : str) (e : exn) :
  isfile w (pdf_file args) = true ->
  py_or (arg_api_key args) (getenv_key w) = Some k -> k <> [] ->
  fst (extract_text_from_pdf w (pdf_file args) []) = inr pdf_text ->
  strip pdf_text <> [] ->
  fst (parse {| api_key := k |} pdf_text []) = inr v ->
  output args = Some (c :: p) ->
  open_write w (c :: p) = Some e ->
  run args
  = (1%Z, before_call w args
          ++ [ChatCreate k (Prompt.request_for pdf_text);
              PrintErr (TextExn Msg.cli_error e)]).
Proof.
  intros Hf Hk Hne Hx Hs Hp Ho Hw.
  rewrite (main_after_scan args Hf Hk Hne Hx Hs Hp).
  unfold save_or_print, write_text, bind, raise. rewrite Ho, Hw.
  now rewrite <- app_assoc.
Qed.

(** X17: when the serialized result has a surrogate code point, which UTF-8
    does not encode, the output file has been opened and emptied when the
    write fails: the run ends with status 1 and the file is left empty,
    whatever it held before. *)
Theorem unencodable_output_empties_file
    (args : Args) (k pdf_text : str) (v : json F) (c : char) (p : str)
    (before : option str) :
  isfile w (pdf_file args) = true ->
  py_or (arg_api_key args) (getenv_key w) = Some k -> k <> [] ->
  fst (extract_text_from_pdf w (pdf_file args) []) = inr pdf_text ->
  strip pdf_text <> [] ->
  fst (parse {| api_key := k |} pdf_text []) = inr v ->
  output args = Some (c :: p) ->
  open_write w (c :: p) = None ->
  existsb is_surrogate (json_dumps float_repr (if pretty args then Some 2%nat else None) v)
  = true ->
  fst (run args) = 1%Z
  /\ stderr (snd (run args))
     = [TextExn Msg.cli_error
          (EncodeError (json_dumps float_repr (if pretty args then Some 2%nat else None) v))]
  /\ file_content (c :: p) (snd (run args)) before = Some [].
Proof.
  intros Hf Hk Hne Hx Hs Hp Ho Hw Hsur.
  rewrite (main_after_scan args Hf Hk Hne Hx Hs Hp).
  unfold save_or_print, write_text, bind, raise, emit. rewrite Ho, Hw, Hsur. cbn [fst snd].
  destruct (before_call_quiet w args) as (Hbc & Hbs & Hbd).
  repeat split.
  - rewrite <- !app_assoc, !stderr_app, Hbs. reflexivity.
  - rewrite <- !app_assoc.
    rewrite (@file_content_others (c :: p) _ _ before (before_call_no_file_event args)).
    cbn [app file_content]. now rewrite str_eqb_refl.
Qed.

End FailedOutput.

Definition read_only : World :=
  {| isfile := fun _ => true;
     read_pdf := fun _ => inr [inr (lit "Invoice 42")];
     environ_key := Some (lit "sk-test");
     dotenv_key := None;
     chat_create := fun _ _ => inr [Some (lit "[1, 2]")];
     open_write := fun _ => Some (Raised (Other (lit "PermissionError"))
                                    (lit "[Errno 13] Permission denied: 'out.json'"));
     max_nesting := 990;
     int_max_str_digits := 4300;
     stdout_encodes := fun s => negb (existsb is_surrogate s) |}.

Lemma unwritable_output_witness :
  main unit_float_of_literal unit_float_repr read_only
    (args_pretty_to (lit "a.pdf") (lit "out.json"))
  = (1%Z, before_call read_only (args_pretty_to (lit "a.pdf") (lit "out.json"))
          ++ [ChatCreate (lit "sk-test") (Prompt.request_for (lit "Invoice 42"));
              PrintErr (TextExn Msg.cli_error
                          (Raised (Other (lit "PermissionError"))
                             (lit "[Errno 13] Permission denied: 'out.json'")))]).
Proof.
  apply (@unwritable_output_loses_result unit unit_float_of_literal unit_float_repr read_only
           (args_pretty_to (lit "a.pdf") (lit "out.json")) (lit "sk-test") (lit "Invoice 42")
           (JList [JInt 1; JInt 2]) 111%N (lit "ut.json")
           (Raised (Other (lit "PermissionError"))
              (lit "[Errno 13] Permission denied: 'out.json'")));
    try reflexivity; discriminate.
Defined.

Lemma unencodable_output_witness :
  fst (main unit_float_of_literal unit_float_repr surrogate_world
         (args_pretty_to (lit "a.pdf") (lit "out.json"))) = 1%Z
  /\ stderr (snd (main unit_float_of_literal unit_float_repr surrogate_world
                    (args_pretty_to (lit "a.pdf") (lit "out.json"))))
     = [TextExn Msg.cli_error
          (EncodeError (json_dumps unit_float_repr (Some 2%nat)
                          (JDict [(lit "a", JStr [55296%N])])))]
  /\ file_content (lit "out.json")
       (snd (main unit_float_of_literal unit_float_repr surrogate_world
               (args_pretty_to (lit "a.pdf") (lit "out.json"))))
       (Some (lit "old")) = Some [].
Proof.
  apply (@unencodable_output_empties_file unit unit_float_of_literal unit_float_repr
           surrogate_world (args_pretty_to (lit "a.pdf") (lit "out.json")) (lit "sk-test")
           (lit "Invoice 42") (JDict [(lit "a", JStr [55296%N])]) 111%N (lit "ut.json")
           (Some (lit "old")));
    try reflexivity; discriminate.
Defined.

(** ** The failures of the structured extraction *)

Section Failures.

Variable F : Type.
Variable float_of_literal : str -> pyfloat F.
Variable w : World.

Local Abbreviation parse := (parse_invoice_to_json float_of_literal w).
Local Abbreviation decode_in :=
  (Loads.decode_in float_of_literal (int_max_str_digits w) (max_nesting w)).


End Failures.



(** An interpreter that is two calls away from its recursion limit, and an
    answer of three nested arrays; an integer of 641 digits where at most 640
    are allowed. *)
Definition near_the_limit : World :=
  {| isfile := fun _ => true;
     read_pdf := fun _ => inr [inr (lit "Invoice 42")];
     environ_key := Some (lit "sk-test");
     dotenv_key := None;
     chat_create := fun _ _ => inr [Some (lit "[[[1]]] and more")];
     open_write := fun _ => None;
     max_nesting := 2;
     int_max_str_digits := 4300;
     stdout_encodes := fun s => negb (existsb is_surrogate s) |}.

Definition long_integer : World :=
  {| isfile := fun _ => true;
     read_pdf := fun _ => inr [inr (lit "Invoice 42")];
     environ_key := Some (lit "sk-test");
     dotenv_key := None;
     chat_create := fun _ _ => inr [Some (lit "[" ++ repeat 49%N 641 ++ lit "]")];
     open_write := fun _ => None;
     max_nesting := 990;
     int_max_str_digits := 640;
     stdout_encodes := fun s => negb (existsb is_surrogate s) |}.

Example limits_reported_as_failed_call :
  fst (parse_invoice_to_json unit_float_of_literal near_the_limit test_scanner
         (lit "Invoice 42") [])
  = inl (Chained Exception Msg.calling_api
           (Raised (Other (lit "RecursionError")) (Msg.too_deep false)))
  /\ fst (parse_invoice_to_json unit_float_of_literal long_integer test_scanner
            (lit "Invoice 42") [])
     = inl (Chained Exception Msg.calling_api
              (Raised ValueError (Msg.too_long 640 641))).
Proof.
  split; vm_compute; reflexivity.
Qed.

(** ** A result that is not an object *)

(** Standard output has the two progress lines of the scan. *)
Definition progress_ok (w : World) (pdf_path : str) : bool :=
  stdout_encodes w (Msg.progress_extract ++ pdf_path) && stdout_encodes w Msg.progress_parse.

Section NotAnObject.

Variable F : Type.
Variable float_of_literal : str -> pyfloat F.
Variable float_repr : F -> str.
Variable w : World.

Local Abbreviation parse := (parse_invoice_to_json float_of_literal w).
Local Abbreviation dumps := (json_dumps float_repr).

(** C9 (amended): a response whose cleaned text [json.loads] reads, within
    the limits of the interpreter, as a value that is not an object is
    returned as the result; and a run whose standard output has the progress
    lines and whose output can be delivered (the file opens, the text has a
    UTF-8 encoding and standard output has the line that says where it is
    saved; or, without a file, standard output has the banner and the text)
    serializes that value, delivers that text and exits with status 0, after
    one call of [create]. *)
Theorem C9_non_object_accepted
    (args : Args) (c : char) (k pdf_text content : str)
    (cs : list (option str)) (v : json F) :
  isfile w (pdf_file args) = true ->
  py_or (arg_api_key args) (getenv_key w) = Some (c :: k) ->
  progress_ok w (pdf_file args) = true ->
  fst (extract_text_from_pdf w (pdf_file args) []) = inr pdf_text ->
  strip pdf_text <> [] ->
  chat_create w (c :: k) (Prompt.request_for pdf_text) = inr (Some content :: cs) ->
  json_loads_in float_of_literal w (clean_json_text content) = inr v ->
  is_object v = false ->
  output_ok w args (dumps (if pretty args then Some 2%nat else None) v) = true ->
  (forall t, fst (parse {| api_key := c :: k |} pdf_text t) = inr v)
  /\ fst (main float_of_literal float_repr w args) = 0%Z
  /\ remote_calls (snd (main float_of_literal float_repr w args)) = 1%nat
  /\ In (delivered args (dumps (if pretty args then Some 2%nat else None) v))
        (snd (main float_of_literal float_repr w args)).
Proof.
  intros Hf Hk _ Hx Hs Hc Hl _ Ho. split.
  - intros t.
    pose proof (@parse_content _ float_of_literal w {| api_key := c :: k |} pdf_text
                  content cs t Hc) as Hp.
    now rewrite Hl in Hp.
  - destruct (@main_scanned F float_of_literal float_repr w args c k pdf_text content cs v
                Hf Hk Hx Hs Hc Hl) as (t & Ht & ->).
    destruct (@save_or_print_ok F float_repr w args v t Ho) as (t1 & t2 & E).
    rewrite E. split; [reflexivity|]. cbn [snd]. split.
    + destruct (@save_or_print_cases F float_of_literal float_repr w args v t)
        as [(t' & E' & Hcalls & _)|(e & t' & E' & _)]; rewrite E in E'; [|discriminate].
      injection E' as E'. apply app_inv_head in E'. rewrite E'.
      rewrite remote_calls_app, Ht, remote_calls_calls, Hcalls. reflexivity.
    + apply in_or_app; right. apply in_or_app; right. now left.
Qed.

End NotAnObject.

(** C9, counterexample: the response [[1, 2]] is valid JSON and not an
    object, and the extractor returns it; the output file cannot be opened,
    and the run exits with status 1. *)
Lemma C9_counterexample :
  json_loads unit_float_of_literal (clean_json_text (lit "[1, 2]"))
  = Some (JList [JInt 1; JInt 2])
  /\ is_object (JList [JInt 1; JInt 2] : json unit) = false
  /\ fst (parse_invoice_to_json unit_float_of_literal read_only test_scanner
            (lit "Invoice 42") [])
     = inr (JList [JInt 1; JInt 2])
  /\ fst (main unit_float_of_literal unit_float_repr read_only
            (args_pretty_to (lit "a.pdf") (lit "out.json"))) = 1%Z.
Proof.
  repeat split; vm_compute; reflexivity.
Qed.

(** An answer that is an array, with a text that has an escape for a letter
    that is not ASCII and escaped quotes. *)
Definition array_response : str :=
  lit "[" ++ [QUOTE] ++ lit "caf" ++ [BACKSLASH] ++ lit "u00e9 " ++ [BACKSLASH; QUOTE]
  ++ lit "x" ++ [BACKSLASH; QUOTE; QUOTE] ++ lit ", 10, null]".

Definition array_result : json unit :=
  JList [JStr (lit "caf" ++ [233%N] ++ lit " " ++ [QUOTE] ++ lit "x" ++ [QUOTE]); JInt 10; JNull].

Definition array_answer : World :=
  {| isfile := fun _ => true;
     read_pdf := fun _ => inr [inr (lit "Invoice 42")];
     environ_key := Some (lit "sk-test");
     dotenv_key := None;
     chat_create := fun _ _ => inr [Some array_response];
     open_write := fun _ => None;
     max_nesting := 990;
     int_max_str_digits := 4300;
     stdout_encodes := fun s => negb (existsb is_surrogate s) |}.

Lemma C9_witness :
  (forall t, fst (parse_invoice_to_json unit_float_of_literal array_answer
                    {| api_key := lit "sk-test" |} (lit "Invoice 42") t)
             = inr array_result)
  /\ fst (main unit_float_of_literal unit_float_repr array_answer (args_default (lit "a.pdf")))
     = 0%Z
  /\ remote_calls
       (snd (main unit_float_of_literal unit_float_repr array_answer (args_default (lit "a.pdf"))))
     = 1%nat
  /\ In (Print (Text (lit "[" ++ [QUOTE] ++ lit "caf" ++ [233%N] ++ lit " " ++ [BACKSLASH; QUOTE]
                      ++ lit "x" ++ [BACKSLASH; QUOTE; QUOTE] ++ lit ", 10, null]")))
        (snd (main unit_float_of_literal unit_float_repr array_answer
                (args_default (lit "a.pdf")))).
Proof.
  apply (@C9_non_object_accepted unit unit_float_of_literal unit_float_repr array_answer
           (args_default (lit "a.pdf")) 115%N (lit "k-test")
           (lit "Invoice 42") array_response [] array_result).
  - reflexivity.
  - reflexivity.
  - reflexivity.
  - reflexivity.
  - vm_compute. discriminate.
  - reflexivity.
  - vm_compute. reflexivity.
  - reflexivity.
  - reflexivity.
Defined.

(** A result that is not an object and holds a lone surrogate is not
    printed by a standard output in UTF-8: the run exits with status 1. *)
Definition surrogate_item : World :=
  {| isfile := fun _ => true;
     read_pdf := fun _ => inr [inr (lit "Invoice 42")];
     environ_key := Some (lit "sk-test");
     dotenv_key := None;
     chat_create := fun _ _ => inr [Some (lit "[" ++ [QUOTE; BACKSLASH] ++ lit "ud800"
                                              ++ [QUOTE] ++ lit "]")];
     open_write := fun _ => None;
     max_nesting := 990;
     int_max_str_digits := 4300;
     stdout_encodes := fun s => negb (existsb is_surrogate s) |}.

Example lone_surrogate_not_printed :
  fst (parse_invoice_to_json unit_float_of_literal surrogate_item test_scanner
         (lit "Invoice 42") [])
  = inr (JList [JStr [55296%N]])
  /\ output_ok surrogate_item (args_default (lit "a.pdf"))
       (json_dumps unit_float_repr None (JList [JStr [55296%N]])) = false
  /\ fst (main unit_float_of_literal unit_float_repr surrogate_item
            (args_default (lit "a.pdf"))) = 1%Z.
Proof.
  repeat split; vm_compute; reflexivity.
Qed.

(** ** Saving the result and reading it back *)

Lemma file_content_saved (path content : str) (rest t : list event) (before : option str) :
  forallb (fun ev => negb (file_event ev)) rest = true ->
  file_content path (t ++ FileCreated path :: FileWritten path content :: rest) before
  = Some content.
Proof.
  intros Hrest. revert before. induction t as [|ev t IH]; intros before.
  - cbn [app file_content]. rewrite !str_eqb_refl. cbn [app].
    rewrite <- (app_nil_r rest). now rewrite (@file_content_others path rest [] _ Hrest).
  - cbn [app file_content]. destruct ev; apply IH.
Qed.

Section SaveAndLoad.

Variable F : Type.
Variable float_of_literal : str -> pyfloat F.
Variable float_repr : F -> str.
Variable F_eqb : F -> F -> bool.
Variable F_eqb_Z : F -> Z -> bool.
Variable w : World.

Local Abbreviation parse := (parse_invoice_to_json float_of_literal w).

(** The file after the result is saved, whether or not the line that says
    so is printed. *)
Lemma saved_file (args : Args) (v : json F) (c : char) (p : str) (t : list event)
    (before : option str) :
  output args = Some (c :: p) ->
  open_write w (c :: p) = None ->
  existsb is_surrogate (json_dumps float_repr (if pretty args then Some 2%nat else None) v)
  = false ->
  file_content (c :: p) (snd (save_or_print float_repr w args v t)) before
  = Some (json_dumps float_repr (if pretty args then Some 2%nat else None) v)
  /\ fst (save_or_print float_repr w args v t)
     = if stdout_encodes w (Msg.saved ++ c :: p) then inr tt
       else inl (EncodeError (Msg.saved ++ c :: p)).
Proof.
  intros Ho Hw Hs. unfold save_or_print, write_text, print, bind, emit, raise.
  rewrite Ho, Hw, Hs. unfold emit.
  destruct (stdout_encodes w (Msg.saved ++ c :: p)); cbn [fst snd]; split;
    try reflexivity; rewrite <- ?app_assoc; cbn [app]; now apply file_content_saved.
Qed.

(** C5 (amended): for a result of the extraction that is not the NaN on
    its own and whose serialized text has no surrogate code point,
    [--pretty] with an output file that can be opened leaves in the file the
    two-space indented text of the result, whatever the file held; the save
    succeeds when standard output has the line that says so; and in the
    interpreter of the run that text parses as JSON to the result itself,
    which is equal to it under Python's [==].  The finite floats are assumed
    to be written by [float.__repr__] as numbers with a fraction or an
    exponent that [float] reads back as the same float, and to be equal to
    themselves. *)
Theorem C5_pretty_file_round_trip
    (args : Args) (self : PDFInvoiceScanner) (pdf_text : str) (t0 : list event)
    (v : json F) (c : char) (p : str) (t : list event) (before : option str) :
  (forall x, is_float_literal (float_repr x) = true) ->
  (forall x, float_of_literal (float_repr x) = Finite x) ->
  (forall x, F_eqb x x = true) ->
  fst (parse self pdf_text t0) = inr v ->
  v <> JFloat NaN ->
  pretty args = true ->
  output args = Some (c :: p) ->
  open_write w (c :: p) = None ->
  existsb is_surrogate (json_dumps float_repr (Some 2%nat) v) = false ->
  file_content (c :: p) (snd (save_or_print float_repr w args v t)) before
  = Some (json_dumps float_repr (Some 2%nat) v)
  /\ (stdout_encodes w (Msg.saved ++ c :: p) = true ->
      fst (save_or_print float_repr w args v t) = inr tt)
  /\ json_loads_in float_of_literal w (json_dumps float_repr (Some 2%nat) v) = inr v
  /\ py_eq F_eqb F_eqb_Z v v = true.
Proof.
  intros Hlit Hfloat Hrefl Hv Hnan Hpretty Ho Hw Hs.
  destruct (@parse_result F float_of_literal w self pdf_text t0 v Hv)
    as (content & cs & _ & Hloads).
  pose proof (json_loads_in_value _ _ _ Hloads) as Hin.
  pose proof (json_loads_wf _ _ (json_loads_in_loads _ _ _ Hloads)) as Hwf.
  apply decode_in_within in Hin.
  pose proof (@saved_file args v c p t before Ho Hw) as Hsave.
  rewrite Hpretty in Hsave. destruct (Hsave Hs) as [Hfile Hfst].
  repeat split.
  - exact Hfile.
  - intros Hp. now rewrite Hfst, Hp.
  - unfold json_loads_in, json_dumps.
    now rewrite (@loads_dumps_in F float_of_literal float_repr (Some 2%nat)
                   (int_max_str_digits w) Hlit Hfloat (max_nesting w) v Hwf Hin).
  - now apply py_eq_refl.
Qed.

End SaveAndLoad.

(** An answer with a NaN inside an object and inside a list, and a text
    that is not ASCII. *)
Definition invoice_response : str :=
  lit "{" ++ [QUOTE] ++ lit "total" ++ [QUOTE] ++ lit ": 10, " ++ [QUOTE] ++ lit "rate"
  ++ [QUOTE] ++ lit ": NaN, " ++ [QUOTE] ++ lit "items" ++ [QUOTE] ++ lit ": [0.0, "
  ++ [QUOTE] ++ lit "caf" ++ [233%N; QUOTE] ++ lit ", null, NaN]}".

Definition invoice_result : json unit :=
  JDict [(lit "total", JInt 10); (lit "rate", JFloat NaN);
         (lit "items", JList [JFloat (Finite tt); JStr (lit "caf" ++ [233%N]); JNull;
                              JFloat NaN])].

Definition invoice_world : World :=
  {| isfile := fun _ => true;
     read_pdf := fun _ => inr [inr (lit "Invoice 42")];
     environ_key := Some (lit "sk-test");
     dotenv_key := None;
     chat_create := fun _ _ => inr [Some invoice_response];
     open_write := fun _ => None;
     max_nesting := 990;
     int_max_str_digits := 4300;
     stdout_encodes := fun s => negb (existsb is_surrogate s) |}.

Lemma C5_witness :
  file_content (lit "out.json")
    (snd (save_or_print unit_float_repr invoice_world
            (args_pretty_to (lit "a.pdf") (lit "out.json")) invoice_result []))
    (Some (lit "old"))
  = Some (json_dumps unit_float_repr (Some 2%nat) invoice_result)
  /\ (stdout_encodes invoice_world (Msg.saved ++ lit "out.json") = true ->
      fst (save_or_print unit_float_repr invoice_world
             (args_pretty_to (lit "a.pdf") (lit "out.json")) invoice_result []) = inr tt)
  /\ json_loads_in unit_float_of_literal invoice_world
       (json_dumps unit_float_repr (Some 2%nat) invoice_result) = inr invoice_result
  /\ py_eq unit_eqb unit_eqb_Z invoice_result invoice_result = true.
Proof.
  apply (@C5_pretty_file_round_trip unit unit_float_of_literal unit_float_repr
           unit_eqb unit_eqb_Z invoice_world
           (args_pretty_to (lit "a.pdf") (lit "out.json")) test_scanner (lit "Invoice 42") []
           invoice_result 111%N (lit "ut.json") [] (Some (lit "old"))).
  - intros []. reflexivity.
  - intros []. reflexivity.
  - intros []. reflexivity.
  - vm_compute. reflexivity.
  - discriminate.
  - reflexivity.
  - reflexivity.
  - reflexivity.
  - vm_compute. reflexivity.
Defined.

(** The service answers with the NaN on its own, which [json.loads]
    accepts. *)
Definition bare_nan_world : World :=
  {| isfile := fun _ => true;
     read_pdf := fun _ => inr [inr (lit "Invoice 42")];
     environ_key := Some (lit "sk-test");
     dotenv_key := None;
     chat_create := fun _ _ => inr [Some (lit "NaN")];
     open_write := fun _ => None;
     max_nesting := 990;
     int_max_str_digits := 4300;
     stdout_encodes := fun s => negb (existsb is_surrogate s) |}.

(** C5, counterexample: the result NaN is saved with [--pretty], the run
    exits with status 0, the file parses as JSON to NaN again, and the two
    values are not equal under [==], since a NaN is not equal to itself. *)
Lemma C5_counterexample :
  fst (parse_invoice_to_json unit_float_of_literal bare_nan_world test_scanner
         (lit "Invoice 42") [])
  = inr (JFloat NaN)
  /\ fst (main unit_float_of_literal unit_float_repr bare_nan_world
            (args_pretty_to (lit "a.pdf") (lit "out.json"))) = 0%Z
  /\ match file_content (lit "out.json")
             (snd (main unit_float_of_literal unit_float_repr bare_nan_world
                     (args_pretty_to (lit "a.pdf") (lit "out.json")))) None with
     | Some saved => json_loads_in unit_float_of_literal bare_nan_world saved
     | None => inl (DecodeError [])
     end = inr (JFloat NaN)
  /\ py_eq unit_eqb unit_eqb_Z (JFloat NaN) (JFloat NaN) = false.
Proof.
  repeat split; vm_compute; reflexivity.
Qed.

(** A NaN inside an object is equal to itself: the object read back from
    the file is equal to the result. *)
Example nan_inside_is_equal :
  fst (parse_invoice_to_json unit_float_of_literal nan_world test_scanner (lit "Invoice 42") [])
  = inr nan_result
  /\ py_eq unit_eqb unit_eqb_Z nan_result nan_result = true.
Proof.
  split; vm_compute; reflexivity.
Qed.

(** ** A result that is saved and not announced *)

Section SavedNotAnnounced.

Variable F : Type.
Variable float_of_literal : str -> pyfloat F.
Variable float_repr : F -> str.
Variable w : World.

Local Abbreviation parse := (parse_invoice_to_json float_of_literal w).
Local Abbreviation run := (main float_of_literal float_repr w).

(** X15: when the result has been written to the output file and standard
    output has not the line that says where it is saved, the run ends with
    status 1, with the [UnicodeEncodeError] of that line as its one line on
    the error stream, and the file holds the serialized result all the
    same. *)
Theorem saved_result_not_announced
    (args : Args) (k pdf_text : str) (v : json F) (c : char) (p : str)
    (before : option str) :
  isfile w (pdf_file args) = true ->
  py_or (arg_api_key args) (getenv_key w) = Some k -> k <> [] ->
  fst (extract_text_from_pdf w (pdf_file args) []) = inr pdf_text ->
  strip pdf_text <> [] ->
  fst (parse {| api_key := k |} pdf_text []) = inr v ->
  output args = Some (c :: p) ->
  open_write w (c :: p) = None ->
  existsb is_surrogate (json_dumps float_repr (if pretty args then Some 2%nat else None) v)
  = false ->
  stdout_encodes w (Msg.saved ++ c :: p) = false ->
  fst (run args) = 1%Z
  /\ stderr (snd (run args)) = [TextExn Msg.cli_error (EncodeError (Msg.saved ++ c :: p))]
  /\ file_content (c :: p) (snd (run args)) before
     = Some (json_dumps float_repr (if pretty args then Some 2%nat else None) v).
Proof.
  intros Hf Hk Hne Hx Hs Hp Ho Hw Hsur Hout.
  rewrite (@main_after_scan F float_of_literal float_repr w args k pdf_text v
             Hf Hk Hne Hx Hs Hp).
  unfold save_or_print, write_text, print, bind, raise, emit.
  rewrite Ho, Hw, Hsur. unfold emit. rewrite Hout. cbn [fst snd].
  destruct (before_call_quiet w args) as (Hbc & Hbs & Hbd).
  repeat split.
  - rewrite <- !app_assoc, !stderr_app, Hbs. reflexivity.
  - rewrite <- !app_assoc.
    rewrite (@file_content_others (c :: p) _ _ before (before_call_no_file_event w args)).
    cbn [app file_content]. now rewrite !str_eqb_refl.
Qed.

End SavedNotAnnounced.

(** An output path that standard output has not: the name of the file has
    a byte that is not UTF-8, which Python holds as a lone surrogate. *)
Definition args_odd_output : Args :=
  {| pdf_file := lit "a.pdf"; output := Some (lit "out" ++ [56575%N] ++ lit ".json");
     pretty := false; arg_api_key := None |}.

Lemma saved_not_announced_witness :
  fst (main unit_float_of_literal unit_float_repr two_pages args_odd_output) = 1%Z
  /\ stderr (snd (main unit_float_of_literal unit_float_repr two_pages args_odd_output))
     = [TextExn Msg.cli_error
          (EncodeError (Msg.saved ++ lit "out" ++ [56575%N] ++ lit ".json"))]
  /\ file_content (lit "out" ++ [56575%N] ++ lit ".json")
       (snd (main unit_float_of_literal unit_float_repr two_pages args_odd_output))
       (Some (lit "old"))
     = Some (lit "[1, 2]").
Proof.
  apply (@saved_result_not_announced unit unit_float_of_literal unit_float_repr two_pages
           args_odd_output (lit "sk-test")
           (lit "Invoice 42" ++ [LF; LF] ++ lit "Total: 10")
           (JList [JInt 1; JInt 2]) 111%N (lit "ut" ++ [56575%N] ++ lit ".json")
           (Some (lit "old")));
    try reflexivity; try discriminate; vm_compute; discriminate.
Defined.
